(** * zipline pipelines: screens, prescreens, domains and classifier methods

    A shallow embedding of [zipline/pipeline/pipeline.py] and
    [zipline/pipeline/classifiers/classifier.py].

    Python objects are modelled as follows.
    - scalars and choice sets are [pyvalue]s, compared with Python's [==];
    - a pipeline term is a value of the inductive type [Term], one
      constructor per class the code tests with [isinstance];
    - a [dict] keyed by strings is a [gmap string _];
    - an exception is a value [exn] returned through [result];
    - a method that mutates [self] takes the object and returns the new
      object together with the outcome of the call. *)

From Stdlib Require Import ZArith String Ascii DecimalString DecimalPos DecimalZ.
From stdpp Require Import base option list gmap strings.

Set Warnings "-register-all,-clear-no-such-hyp".
Open Scope string_scope.
Open Scope list_scope.
Open Scope Z_scope.

(** ** Python values

    The values that the code compares, collects and formats: [None],
    booleans, integers, strings, lists and frozensets.  Floats and bytes
    are left out. *)

Inductive pyvalue :=
| PyNone
| PyBool (b : bool)
| PyInt (n : Z)
| PyStr (s : string)
| PyList (items : list pyvalue)
| PyFrozenset (items : list pyvalue).

(** Python's [a == b].  [True == 1]; lists compare element by element,
    frozensets by mutual inclusion. *)
Fixpoint py_eq (a b : pyvalue) : bool :=
  match a, b with
  | PyNone, PyNone => true
  | PyBool x, PyBool y => Bool.eqb x y
  | PyBool x, PyInt n => (if x then 1 else 0) =? n
  | PyInt n, PyBool x => n =? (if x then 1 else 0)
  | PyInt m, PyInt n => m =? n
  | PyStr s, PyStr t => String.eqb s t
  | PyList xs, PyList ys =>
      (fix go (xs ys : list pyvalue) : bool :=
         match xs, ys with
         | [], [] => true
         | x :: xs', y :: ys' => py_eq x y && go xs' ys'
         | _, _ => false
         end) xs ys
  | PyFrozenset xs, PyFrozenset ys =>
      forallb (fun x => existsb (fun y => py_eq x y) ys) xs
      && forallb (fun y => existsb (fun x => py_eq x y) xs) ys
  | _, _ => false
  end.

(** [v in container] for a container given by its elements. *)
Definition py_in (v : pyvalue) (container : list pyvalue) : bool :=
  existsb (py_eq v) container.

(** [isinstance(v, numbers.Number)]: [bool] is a subclass of [int]. *)
Definition isinstance_Number (v : pyvalue) : bool :=
  match v with PyBool _ | PyInt _ => true | _ => false end.

(** [isinstance(v, int)]. *)
Definition isinstance_int (v : pyvalue) : bool :=
  match v with PyBool _ | PyInt _ => true | _ => false end.

(** [isinstance(v, (bytes, unicode))]. *)
Definition isinstance_str (v : pyvalue) : bool :=
  match v with PyStr _ => true | _ => false end.

(** [int(v)] on a number. *)
Definition py_int (v : pyvalue) : Z :=
  match v with
  | PyInt n => n
  | PyBool true => 1
  | _ => 0
  end.

(** Lists and frozensets are unhashable and hashable respectively; the
    scalars are hashable. *)
Definition hashable (v : pyvalue) : bool :=
  match v with PyList _ => false | _ => true end.

(** [str(n)] for an integer. *)
Definition Z_to_string (n : Z) : string :=
  NilEmpty.string_of_int (Z.to_int n).

(** ** String methods used by the optimizer *)

(** [s.replace(c, new)] for a one-character [c]. *)
Fixpoint str_replace (s : string) (c : ascii) (new : string) : string :=
  match s with
  | EmptyString => EmptyString
  | String a rest =>
      if Ascii.eqb a c then new +:+ str_replace rest c new
      else String a (str_replace rest c new)
  end.

(** [c in s] for a one-character [c]. *)
Fixpoint str_contains (c : ascii) (s : string) : bool :=
  match s with
  | EmptyString => false
  | String a rest => Ascii.eqb a c || str_contains c rest
  end.

(** [all(P(c) for c in s)]. *)
Fixpoint str_forall (P : ascii -> bool) (s : string) : bool :=
  match s with
  | EmptyString => true
  | String a rest => P a && str_forall P rest
  end.

(** [s.split(sep)] for a non-empty [sep]: the separator is searched from
    the left, occurrences do not overlap.  [cur] is the piece read so
    far, [skip] counts the characters of a matched separator still to be
    dropped. *)
Fixpoint split_go (sep s : string) (cur : string) (skip : nat) : list string :=
  match s with
  | EmptyString => [cur]
  | String a rest =>
      match skip with
      | S k => split_go sep rest cur k
      | O =>
          if String.prefix sep s
          then cur :: split_go sep rest EmptyString (Nat.pred (String.length sep))
          else split_go sep rest (cur +:+ String a EmptyString) O
      end
  end.

Definition str_split (s sep : string) : list string :=
  split_go sep s EmptyString O.

(** ** Dtypes, domains and terms *)

Inductive DType :=
| int64_dtype
| categorical_dtype
| float64_dtype
| bool_dtype
| datetime64ns_dtype.

#[global] Instance DType_eq_dec : EqDecision DType.
Proof. solve_decision. Defined.

(** A pipeline domain: the [GENERIC] sentinel or a concrete domain object,
    identified by [domain_id] (Python compares domains with [is]). *)
Inductive Domain :=
| GENERIC
| ConcreteDomain (domain_id : positive) (repr : string).

#[global] Instance Domain_eq_dec : EqDecision Domain.
Proof. solve_decision. Defined.

Record DataSet := { qualname : string }.

Record Asset := { sid : Z }.

(** The classes of classifier.py.  [PlainClassifier] is any other subclass
    of [Classifier]. *)
Inductive ClassifierClass :=
| Everything
| Quantiles (bins : Z)
| Relabel (relabeler : string -> option string)
| CustomClassifier
| Latest
| Shift
| PlainClassifier.

(** The terms of a pipeline expression, one constructor per class that the
    code tests with [isinstance].  [OtherTerm] stands for every term class
    that the modelled code never inspects (factors, slices, user terms); it
    records only whether the object is a [ComputableTerm] and its [ndim].
    A classifier carries the attributes that classifier.py reads. *)
Inductive Term :=
| BoundColumn (dataset : DataSet) (name : string)
| OtherTerm (computable : bool) (term_ndim : Z)
| SingleAsset (_asset : Asset)
| StaticAssets (sids : list Z)
| StaticSids (sids : list string)
| StaticUniverse (sids : list string)
| ArrayPredicate (inputs : list Term) (op : string) (opargs : list pyvalue)
| NumExprFilter (_expr : string) (bindings : gmap string Term)
| LatestFilter (inputs : list Term)
| NullFilter (inputs : list Term)
| NotNullFilter (inputs : list Term)
| OtherFilter
| LatestFactor (inputs : list Term)
| ClassifierTerm (c : Classifier)
with Classifier :=
| mkClassifier (cls : ClassifierClass) (dtype : DType) (missing_value : pyvalue)
    (window_length : Z) (inputs : list Term) (mask : option Term).

Coercion ClassifierTerm : Classifier >-> Term.

Definition cls (c : Classifier) : ClassifierClass :=
  let 'mkClassifier cls _ _ _ _ _ := c in cls.
Definition dtype (c : Classifier) : DType :=
  let 'mkClassifier _ dtype _ _ _ _ := c in dtype.
Definition missing_value (c : Classifier) : pyvalue :=
  let 'mkClassifier _ _ missing_value _ _ _ := c in missing_value.
Definition window_length (c : Classifier) : Z :=
  let 'mkClassifier _ _ _ window_length _ _ := c in window_length.
Definition inputs (c : Classifier) : list Term :=
  let 'mkClassifier _ _ _ _ inputs _ := c in inputs.
Definition mask (c : Classifier) : option Term :=
  let 'mkClassifier _ _ _ _ _ mask := c in mask.

(** [isinstance(t, ComputableTerm)]: bound columns are loadable terms. *)
Definition isinstance_ComputableTerm (t : Term) : bool :=
  match t with
  | BoundColumn _ _ => false
  | OtherTerm computable _ => computable
  | _ => true
  end.

(** [isinstance(t, Filter)]. *)
Definition isinstance_Filter (t : Term) : bool :=
  match t with
  | SingleAsset _ | StaticAssets _ | StaticSids _ | StaticUniverse _
  | ArrayPredicate _ _ _ | NumExprFilter _ _ | LatestFilter _
  | NullFilter _ | NotNullFilter _ | OtherFilter => true
  | _ => false
  end.

(** [t.ndim]: filters, factors, classifiers and bound columns are
    two-dimensional. *)
Definition ndim (t : Term) : Z :=
  match t with
  | OtherTerm _ d => d
  | _ => 2
  end.

(** The exception classes.  [InvalidClassifierComparison] is the subclass of
    [TypeError] that classifier.py declares. *)
Inductive exn_type :=
| TypeError
| ValueError
| KeyError
| IndexError
| AssertionError
| NotImplementedError
| UnsupportedPipelineOutput
| UnsupportedDataType
| InvalidClassifierComparison
| OtherException (class_name : string).

(** One piece of a formatted message: literal text, or an object that the
    format string interpolates. *)
Inductive fmt :=
| Text (s : string)
| Arg_int (n : Z)
| Arg_str (s : string)
| Arg_value (v : pyvalue)
| Arg_values (vs : list pyvalue)
| Arg_dtype (d : DType)
| Arg_domain (d : Domain)
| Arg_term (t : Term)
| Arg_exn (e : exn_type)
| Arg_typename_of_term (t : Term)
| Arg_typename_of_value (v : pyvalue).

Record exn := mkExn { exn_class : exn_type; exn_message : list fmt }.

Inductive result (A : Type) :=
| Ok (a : A)
| Raise (e : exn).
Arguments Ok {A} a.
Arguments Raise {A} e.

#[global] Instance result_ret : MRet result := fun A a => Ok a.
#[global] Instance result_bind : MBind result := fun A B f m =>
  match m with
  | Ok a => f a
  | Raise e => Raise e
  end.

(** [l[0]]. *)
Definition getitem0 {A} (l : list A) : result A :=
  match l with
  | x :: _ => Ok x
  | [] => Raise (mkExn IndexError [Text "index out of range"])
  end.

(** [l[0]] guarded by [len(l) == 1]. *)
Definition single {A} (l : list A) : option A :=
  match l with
  | [x] => Some x
  | _ => None
  end.

(** [d[key]] on a dict. *)
Definition getitem {A} (d : gmap string A) (key : string) : result A :=
  match d !! key with
  | Some v => Ok v
  | None => Raise (mkExn KeyError [Arg_str key])
  end.

(** [list(v)].  The items of a frozenset come in the order in which the
    model holds them; Python iterates a set in the order of its hashes, so
    the list made from a frozenset is meant up to the order of its
    items. *)
Definition py_list (v : pyvalue) : result pyvalue :=
  match v with
  | PyList items | PyFrozenset items => Ok (PyList items)
  | PyStr s => Ok (PyList ((fun c => PyStr (String c EmptyString)) <$> list_ascii_of_string s))
  | _ => Raise (mkExn TypeError [Text "object is not iterable"])
  end.

(** ** pipeline.py: the prescreen conversion *)

Module pipeline.

(** A field definition, one element of the ["fields"] list of a prescreen
    dict: [{"field": ..., "op": ..., "negate": ..., "values": ...}]. *)
Record FieldDef := mkFieldDef {
  fd_field : string;
  fd_op : string;
  fd_negate : bool;
  fd_values : pyvalue
}.

(** A prescreen dict.  Its possible keys are ["sids"], ["real_sids"] and
    ["fields"]; a key that is absent is [None]. *)
Record Prescreen := mkPrescreen {
  ps_sids : option (list Z);
  ps_real_sids : option (list string);
  ps_fields : option (list FieldDef)
}.

(** The empty dict [{}]. *)
Definition empty_prescreen : Prescreen := mkPrescreen None None None.

(** Truth value of a dict: a dict is falsy exactly when it has no key. *)
Definition prescreen_truthy (p : Prescreen) : bool :=
  match p with
  | mkPrescreen None None None => false
  | _ => true
  end.

(** [prescreen or {}] where [prescreen] is a dict or [None]. *)
Definition prescreen_or_empty (prescreen : option Prescreen) : Prescreen :=
  match prescreen with
  | Some p => if prescreen_truthy p then p else empty_prescreen
  | None => empty_prescreen
  end.

(** [if "sids" not in prescreen: prescreen["sids"] = []] followed by
    [prescreen["sids"].extend(new)] ([append] is [extend] with one item). *)
Definition extend_sids (p : Prescreen) (new : list Z) : Prescreen :=
  mkPrescreen (Some (default [] (ps_sids p) ++ new)) (ps_real_sids p) (ps_fields p).

Definition extend_real_sids (p : Prescreen) (new : list string) : Prescreen :=
  mkPrescreen (ps_sids p) (Some (default [] (ps_real_sids p) ++ new)) (ps_fields p).

Definition append_field (p : Prescreen) (fielddef : FieldDef) : Prescreen :=
  mkPrescreen (ps_sids p) (ps_real_sids p) (Some (default [] (ps_fields p) ++ [fielddef])).

(** [fielddef["negate"] = True if fielddef["negate"] == False else False]. *)
Definition flip_negate (fielddef : FieldDef) : FieldDef :=
  mkFieldDef (fd_field fielddef) (fd_op fielddef)
    (if Bool.eqb (fd_negate fielddef) false then true else false)
    (fd_values fielddef).

(** [hasattr(t, "dataset") and t.dataset.qualname == "SecuritiesMaster"]:
    among the modelled terms only bound columns carry a dataset. *)
Definition is_SecuritiesMaster_column (t : Term) : bool :=
  match t with
  | BoundColumn ds _ => String.eqb (qualname ds) "SecuritiesMaster"
  | _ => false
  end.

(** [t.name] of a bound column. *)
Definition column_name (t : Term) : string :=
  match t with
  | BoundColumn _ name => name
  | _ => ""
  end.

Definition isinstance_LatestClassifier (t : Term) : bool :=
  match t with
  | ClassifierTerm c => match cls c with Latest => true | _ => false end
  | _ => false
  end.

Definition isinstance_LatestFactor (t : Term) : bool :=
  match t with LatestFactor _ => true | _ => false end.

(** [t.inputs]. *)
Definition term_inputs (t : Term) : list Term :=
  match t with
  | ArrayPredicate inputs _ _ | LatestFilter inputs | NullFilter inputs
  | NotNullFilter inputs | LatestFactor inputs => inputs
  | ClassifierTerm c => inputs c
  | _ => []
  end.

(** The operator names that the first test of
    [_term_to_prescreen_fielddef] accepts. *)
Definition prescreen_ops : list string :=
  ["eq"; "isin"; "ne"; "has_substring"; "startswith"; "endswith"; "matches"].

(** The body of the first [if] of [_term_to_prescreen_fielddef], once its
    condition holds: [op] is one of [prescreen_ops]. *)
Definition array_predicate_fielddef (field op : string) (opargs : list pyvalue)
  : result FieldDef :=
  arg ← getitem0 opargs;
  if String.eqb op "eq" then
    Ok (mkFieldDef field "eq" false (PyList [arg]))
  else if String.eqb op "isin" then
    values ← py_list arg;
    Ok (mkFieldDef field "eq" false values)
  else if String.eqb op "ne" then
    Ok (mkFieldDef field "eq" true (PyList [arg]))
  else if String.eqb op "has_substring" then
    Ok (mkFieldDef field "contains" false arg)
  else if String.eqb op "startswith" then
    Ok (mkFieldDef field "startswith" false arg)
  else if String.eqb op "endswith" then
    Ok (mkFieldDef field "endswith" false arg)
  else
    Ok (mkFieldDef field "match" false arg).

(** [_term_to_prescreen_fielddef(term)]: the field definition of a term, or
    [None].  The four [if]s of the source test disjoint classes, so they
    are the branches of one match; [and] short-circuits, so an index is
    only taken where the source takes it. *)
Definition _term_to_prescreen_fielddef (term : Term) : result (option FieldDef) :=
  match term with
  | ArrayPredicate inputs op opargs =>
      match single inputs with
      | Some input0 =>
          if isinstance_LatestClassifier input0 then
            match single (term_inputs input0) with
            | Some col =>
                if is_SecuritiesMaster_column col
                   && bool_decide (op ∈ prescreen_ops)
                then
                  fielddef ← array_predicate_fielddef (column_name col) op opargs;
                  Ok (Some fielddef)
                else Ok None
            | None => Ok None
            end
          else Ok None
      | None => Ok None
      end
  | LatestFilter inputs =>
      col ← getitem0 inputs;
      if is_SecuritiesMaster_column col
      then Ok (Some (mkFieldDef (column_name col) "eq" false (PyList [PyBool true])))
      else Ok None
  | NullFilter inputs | NotNullFilter inputs =>
      input0 ← getitem0 inputs;
      if isinstance_LatestClassifier input0 || isinstance_LatestFactor input0 then
        col ← getitem0 (term_inputs input0);
        if is_SecuritiesMaster_column col
        then Ok (Some (mkFieldDef (column_name col) "isnull"
                         (match term with NotNullFilter _ => true | _ => false end)
                         (PyList [PyBool true])))
        else Ok None
      else Ok None
  | NumExprFilter _expr bindings =>
      if String.eqb _expr "x_0 != x_0" then
        x_0 ← getitem bindings "x_0";
        if isinstance_LatestFactor x_0 then
          match single (term_inputs x_0) with
          | Some col =>
              if is_SecuritiesMaster_column col
              then Ok (Some (mkFieldDef (column_name col) "isnull" false (PyList [PyBool true])))
              else Ok None
          | None => Ok None
          end
        else Ok None
      else Ok None
  | _ => Ok None
  end.

(** The tail of [_term_to_prescreen_dict]: the term itself as a field
    definition. *)
Definition field_term_to_prescreen (term : Term) (prescreen : Prescreen) (negate : bool)
  : result (option Prescreen) :=
  fielddef ← _term_to_prescreen_fielddef term;
  match fielddef with
  | Some fielddef =>
      let fielddef := if negate then flip_negate fielddef else fielddef in
      Ok (Some (append_field prescreen fielddef))
  | None => Ok None
  end.

(** [_term_to_prescreen_dict(term, prescreen=None, negate=False)]. *)
Definition _term_to_prescreen_dict (term : Term) (prescreen : option Prescreen)
    (negate : bool) : result (option Prescreen) :=
  let prescreen := prescreen_or_empty prescreen in
  match term with
  | SingleAsset _asset => Ok (Some (extend_sids prescreen [sid _asset]))
  | StaticAssets sids => Ok (Some (extend_sids prescreen sids))
  | StaticSids sids | StaticUniverse sids => Ok (Some (extend_real_sids prescreen sids))
  | NumExprFilter _expr bindings =>
      if String.eqb _expr "~x_0" then
        x_0 ← getitem bindings "x_0";
        fielddef ← _term_to_prescreen_fielddef x_0;
        match fielddef with
        | Some fielddef =>
            let fielddef := flip_negate fielddef in
            let fielddef := if negate then flip_negate fielddef else fielddef in
            Ok (Some (append_field prescreen fielddef))
        | None => field_term_to_prescreen term prescreen negate
        end
      else field_term_to_prescreen term prescreen negate
  | _ => field_term_to_prescreen term prescreen negate
  end.

(** ** pipeline.py: the Pipeline class *)

Record Pipeline := mkPipeline {
  _columns : gmap string Term;
  _prescreen : option Prescreen;
  _screen : option Term;
  _domain : Domain
}.

(** [self._prescreen = prescreen; self._screen = None]. *)
Definition install_prescreen (self : Pipeline) (prescreen : Prescreen) : Pipeline :=
  mkPipeline (_columns self) (Some prescreen) None (_domain self).

(** The [for term in terms: ... else: ...] loop of
    [_maybe_convert_to_prescreen].  [Ok None] is the [break]; [Ok (Some p)]
    is the loop running to its end with the dict [p]. *)
Fixpoint convert_terms (bindings : gmap string Term) (terms : list string)
    (prescreen : Prescreen) : result (option Prescreen) :=
  match terms with
  | [] => Ok (Some prescreen)
  | term :: rest =>
      let negate := str_contains "~" term in
      let term := str_replace term "~" "" in
      bound ← getitem bindings term;
      converted ← _term_to_prescreen_dict bound (Some prescreen) negate;
      match converted with
      | Some prescreen =>
          if prescreen_truthy prescreen
          then convert_terms bindings rest prescreen
          else Ok None
      | None => Ok None
      end
  end.

(** [expr.replace("(", "").replace(")", "").split(" & ")]. *)
Definition conjunction_terms (_expr : string) : list string :=
  str_split (str_replace (str_replace _expr "(" "") ")" "") " & ".

(** [Pipeline._maybe_convert_to_prescreen(self, screen)]. *)
Definition _maybe_convert_to_prescreen (screen : Term) (self : Pipeline)
  : Pipeline * result unit :=
  match _term_to_prescreen_dict screen None false with
  | Raise e => (self, Raise e)
  | Ok (Some prescreen) => (install_prescreen self prescreen, Ok tt)
  | Ok None =>
      match screen with
      | NumExprFilter _expr bindings =>
          let terms := conjunction_terms _expr in
          if bool_decide
               (list_to_set ((fun term => str_replace term "~" "") <$> terms)
                = dom bindings)
          then
            match convert_terms bindings terms empty_prescreen with
            | Raise e => (self, Raise e)
            | Ok (Some prescreen) => (install_prescreen self prescreen, Ok tt)
            | Ok None => (self, Ok tt)
            end
          else (self, Ok tt)
      | _ => (self, Ok tt)
      end
  end.

(** [Pipeline.validate_column(column_name, term)]. *)
Definition validate_column (column_name : string) (term : Term) : result unit :=
  if ndim term =? 1
  then Raise (mkExn UnsupportedPipelineOutput [Arg_str column_name; Arg_term term])
  else Ok tt.

(** The loop of [Pipeline.__init__] over [columns.items()].  The order in
    which a dict with several invalid columns reports them is that of the
    list passed here. *)
Fixpoint validate_columns (items : list (string * Term)) : result unit :=
  match items with
  | [] => Ok tt
  | (column_name, term) :: rest =>
      _ ← validate_column column_name term;
      if isinstance_ComputableTerm term then validate_columns rest
      else Raise (mkExn TypeError
                    [Text "Column "; Arg_str column_name;
                     Text " contains an invalid pipeline term (";
                     Arg_term term; Text "). Did you mean to append '.latest'?"])
  end.

(** [Pipeline(columns=None, screen=None, domain=GENERIC)].  [expect_types]
    rejects a screen that is not a Filter. *)
Definition Pipeline__init__ (columns : option (gmap string Term))
    (screen : option Term) (domain : Domain) : result Pipeline :=
  if negb (from_option isinstance_Filter true screen)
  then Raise (mkExn TypeError [Text "expected a value of type Filter or NoneType for argument 'screen'"])
  else
    let columns := default ∅ columns in
    _ ← validate_columns (map_to_list columns);
    let self := mkPipeline columns None screen GENERIC in
    self ← match screen with
           | Some s =>
               match _maybe_convert_to_prescreen s self with
               | (self, Ok _) => Ok self
               | (_, Raise e) => Raise e
               end
           | None => Ok self
           end;
    Ok (mkPipeline (_columns self) (_prescreen self) (_screen self) domain).

(** [Pipeline.remove(self, name)]: [self.columns.pop(name)]. *)
Definition remove (name : string) (self : Pipeline) : Pipeline * result Term :=
  match _columns self !! name with
  | Some term =>
      (mkPipeline (delete name (_columns self)) (_prescreen self) (_screen self) (_domain self),
       Ok term)
  | None => (self, Raise (mkExn KeyError [Arg_str name]))
  end.

(** [Pipeline.add(self, term, name, overwrite=False)]. *)
Definition add (term : Term) (name : string) (overwrite : bool) (self : Pipeline)
  : Pipeline * result unit :=
  match validate_column name term with
  | Raise e => (self, Raise e)
  | Ok _ =>
      let '(self, outcome) :=
        if bool_decide (name ∈ dom (_columns self)) then
          if overwrite then
            match remove name self with
            | (self, Ok _) => (self, Ok tt)
            | (self, Raise e) => (self, Raise e)
            end
          else (self, Raise (mkExn KeyError [Text "Column '"; Arg_str name; Text "' already exists."]))
        else (self, Ok tt) in
      match outcome with
      | Raise e => (self, Raise e)
      | Ok _ =>
          if negb (isinstance_ComputableTerm term) then
            (self, Raise (mkExn TypeError
                            [Arg_term term;
                             Text " is not a valid pipeline column. Did you mean to append '.latest'?"]))
          else
            (mkPipeline (<[name := term]> (_columns self)) (_prescreen self)
                        (_screen self) (_domain self),
             Ok tt)
      end
  end.

(** [Pipeline.set_screen(self, screen, overwrite=False)]. *)
Definition set_screen (screen : Term) (overwrite : bool) (self : Pipeline)
  : Pipeline * result unit :=
  if negb (isinstance_Filter screen)
  then (self, Raise (mkExn TypeError [Text "expected a value of type Filter for argument 'screen'"]))
  else if (bool_decide (_screen self <> None) || bool_decide (_prescreen self <> None))
          && negb overwrite
  then (self, Raise (mkExn ValueError
          [Text "set_screen() called with overwrite=False and screen already set.
If you want to apply multiple filters as a screen use set_screen(filter1 & filter2 & ...).
If you want to replace the previous screen with a new one, use set_screen(new_filter, overwrite=True)."]))
  else
    let self := mkPipeline (_columns self) (_prescreen self) (Some screen) (_domain self) in
    let self := mkPipeline (_columns self) None (_screen self) (_domain self) in
    _maybe_convert_to_prescreen screen self.

(** [Pipeline._output_terms]: the columns' terms, then the screen if any. *)
Definition _output_terms (self : Pipeline) : list Term :=
  (snd <$> map_to_list (_columns self))
  ++ match _screen self with Some screen => [screen] | None => [] end.

Section Domains.
(** [infer_domain] of [zipline/pipeline/domain.py], a collaborator of this
    module: it returns a concrete domain or [GENERIC], or raises. *)
Variable infer_domain : list Term -> result Domain.

(** [Pipeline.domain(self, default)]. *)
Definition domain (default : Domain) (self : Pipeline) : result Domain :=
  inferred ← infer_domain (_output_terms self);
  if bool_decide (inferred = GENERIC) && bool_decide (_domain self = GENERIC) then
    Ok default
  else if bool_decide (inferred = GENERIC) && bool_decide (_domain self <> GENERIC) then
    Ok (_domain self)
  else if bool_decide (inferred <> GENERIC) && bool_decide (_domain self = GENERIC) then
    Ok inferred
  else
    if bool_decide (inferred <> _domain self) then
      Raise (mkExn ValueError
               [Text "Conflicting domains in Pipeline. Inferred "; Arg_domain inferred;
                Text ", but "; Arg_domain (_domain self);
                Text " was passed at construction."])
    else Ok inferred.
End Domains.

End pipeline.

(** ** classifier.py *)

Module classifier.

(** [NumExprFilter.create(expr, binds)].  The class is imported from
    filters.py; [binds[i]] is bound to the name [x_i], the names that the
    expressions built in this file use and that pipeline.py looks up in
    [bindings]. *)
Definition NumExprFilter_create (expr : string) (binds : list Term) : Term :=
  NumExprFilter expr
    (list_to_map (imap (fun i t => ("x_" +:+ Z_to_string (Z.of_nat i), t)) binds)).

(** [frozenset(choices)]: [choices] must be iterable and its items
    hashable; of several equal items the first one is kept.  The set is
    given by its items in the order of insertion. *)
Fixpoint remove_equal (x : pyvalue) (items : list pyvalue) : list pyvalue :=
  match items with
  | [] => []
  | y :: rest =>
      if py_eq y x then remove_equal x rest else y :: remove_equal x rest
  end.

Fixpoint dedup (items : list pyvalue) : list pyvalue :=
  match items with
  | [] => []
  | x :: rest => x :: remove_equal x (dedup rest)
  end.

Definition py_frozenset (choices : pyvalue) : result (list pyvalue) :=
  items ← py_list choices;
  match items with
  | PyList items =>
      if forallb hashable items then Ok (dedup items)
      else Raise (mkExn TypeError [Text "unhashable type: 'list'"])
  | _ => Raise (mkExn TypeError [Text "object is not iterable"])
  end.

(** [sorted(values)] as far as its outcome matters to a message: numbers
    compare with numbers and strings with strings; comparing anything with
    [None], or across these families, raises [TypeError].  A list of at
    most one item is never compared.  The order of the sorted list itself
    is not modelled. *)
Definition py_sorted (values : list pyvalue) : result (list pyvalue) :=
  match values with
  | [] | [_] => Ok values
  | _ =>
      if forallb isinstance_Number values || forallb isinstance_str values
      then Ok values
      else Raise (mkExn TypeError [Text "'<' not supported between instances"])
  end.

(** [Classifier.eq(self, other)].  The constructors of the filters
    ([NumExprFilter.create] and [ArrayPredicate], of filters.py) are taken
    to accept an operand that is a string or a number, the types of the
    signature; other operands are not meant to reach them. *)
Definition eq (other : pyvalue) (self : Classifier) : result Term :=
  if py_eq other (missing_value self) then
    Raise (mkExn ValueError
             [Text "Comparison against self.missing_value ("; Arg_value other;
              Text ") in "; Arg_typename_of_term self; Text ".eq().
Missing values have NaN semantics, so the requested comparison would always produce False.
Use the isnull() method to check for missing values."])
  else if negb (Bool.eqb (isinstance_Number other) (bool_decide (dtype self = int64_dtype))) then
    Raise (mkExn InvalidClassifierComparison
             [Text "Can't compare classifier of dtype "; Arg_dtype (dtype self);
              Text " to value "; Arg_value other; Text " of type ";
              Arg_typename_of_value other; Text "."])
  else if isinstance_Number other then
    Ok (NumExprFilter_create ("x_0 == " +:+ Z_to_string (py_int other)) [ClassifierTerm self])
  else
    Ok (ArrayPredicate [ClassifierTerm self] "eq" [other]).

(** [Classifier.__ne__(self, other)].  The missing value is interpolated
    into the expression; it is an integer on this path.  As for [eq], the
    constructors of the filters are taken to accept an operand that is a
    string or a number. *)
Definition __ne__ (other : pyvalue) (self : Classifier) : result Term :=
  if negb (Bool.eqb (isinstance_Number other) (bool_decide (dtype self = int64_dtype))) then
    Raise (mkExn InvalidClassifierComparison
             [Text "Can't compare classifier of dtype "; Arg_dtype (dtype self);
              Text " to value "; Arg_value other; Text " of type ";
              Arg_typename_of_value other; Text "."])
  else if isinstance_Number other then
    Ok (NumExprFilter_create
          ("((x_0 != " +:+ Z_to_string (py_int other) +:+ ") & (x_0 != "
           +:+ Z_to_string (py_int (missing_value self)) +:+ "))")
          [ClassifierTerm self])
  else
    Ok (ArrayPredicate [ClassifierTerm self] "ne" [other]).

(** [bad_compare]: [__gt__], [__ge__], [__le__] and [__lt__]. *)
Definition bad_compare (opname : string) (other : pyvalue) : result Term :=
  Raise (mkExn TypeError [Text "cannot compare classifiers with "; Arg_str opname]).

(** The decorator [string_classifiers_only], that is
    [restrict_to_dtype(dtype=categorical_dtype, message_template=...)].

    Modelled from the spec: [restrict_to_dtype] is defined in
    zipline/pipeline/api_utils.py, which is not among the sources; by
    section 4.1 a string-only operation called on a numeric-coded term
    "fails with a dtype-mismatch error naming the offending method and
    received dtype", which is the message template given here in
    classifier.py. *)
Definition string_classifiers_only {A} (method_name : string)
    (method : Classifier -> result A) (self : Classifier) : result A :=
  if bool_decide (dtype self = categorical_dtype) then method self
  else Raise (mkExn TypeError
                [Arg_str method_name;
                 Text "() is only defined on Classifiers producing strings but it was called on a Classifier of dtype ";
                 Arg_dtype (dtype self); Text "."]).

Definition startswith (prefix : string) : Classifier -> result Term :=
  string_classifiers_only "startswith" (fun self =>
    Ok (ArrayPredicate [ClassifierTerm self] "startswith" [PyStr prefix])).

Definition endswith (suffix : string) : Classifier -> result Term :=
  string_classifiers_only "endswith" (fun self =>
    Ok (ArrayPredicate [ClassifierTerm self] "endswith" [PyStr suffix])).

Definition has_substring (substring : string) : Classifier -> result Term :=
  string_classifiers_only "has_substring" (fun self =>
    Ok (ArrayPredicate [ClassifierTerm self] "has_substring" [PyStr substring])).

Definition matches (pattern : string) : Classifier -> result Term :=
  string_classifiers_only "matches" (fun self =>
    Ok (ArrayPredicate [ClassifierTerm self] "matches" [PyStr pattern])).

(** [Classifier.isin(self, choices)]. *)
Definition isin (choices : pyvalue) (self : Classifier) : result Term :=
  match py_frozenset choices with
  | Raise e =>
      Raise (mkExn TypeError
               [Text "Expected `choices` to be an iterable of hashable values, but got ";
                Arg_value choices; Text " instead.
This caused the following error: "; Arg_exn (exn_class e); Text "."])
  | Ok choices =>
      if py_in (missing_value self) choices then
        sorted_choices ← py_sorted choices;
        Raise (mkExn ValueError
                 [Text "Found self.missing_value ("; Arg_value (missing_value self);
                  Text ") in choices supplied to "; Arg_typename_of_term self; Text ".isin().
Missing values have NaN semantics, so the requested comparison would always produce False.
Use the isnull() method to check for missing values.
Received choices were "; Arg_values sorted_choices; Text "."])
      else if bool_decide (dtype self = int64_dtype) then
        if forallb isinstance_int choices then
          Ok (ArrayPredicate [ClassifierTerm self] "vectorized_is_element" [PyFrozenset choices])
        else
          Raise (mkExn TypeError
                   [Text "Found non-int in choices for "; Arg_typename_of_term self; Text ".isin.
Supplied choices were "; Arg_values choices; Text "."])
      else if bool_decide (dtype self = categorical_dtype) then
        if forallb isinstance_str choices then
          Ok (ArrayPredicate [ClassifierTerm self] "isin" [PyFrozenset choices])
        else
          Raise (mkExn TypeError
                   [Text "Found non-string in choices for "; Arg_typename_of_term self; Text ".isin.
Supplied choices were "; Arg_values choices; Text "."])
      else
        Raise (mkExn AssertionError
                 [Text "Unknown dtype in Classifier.isin "; Arg_dtype (dtype self); Text "."])
  end.

Section Construction.
(** The missing value that a term gets when its class sets none; it is
    chosen per dtype by term.py. *)
Variable default_missing_value : DType -> pyvalue.

(** [Relabel.__new__(cls, term, relabeler)]. *)
Definition Relabel__new__ (term : Classifier) (relabeler : string -> option string)
  : result Classifier :=
  if bool_decide (dtype term <> categorical_dtype) then
    Raise (mkExn TypeError
             [Text "term should have dtype "; Arg_dtype categorical_dtype;
              Text " but has "; Arg_dtype (dtype term)])
  else
    Ok (mkClassifier (Relabel relabeler) (dtype term)
          (default_missing_value (dtype term)) 0 [ClassifierTerm term] (mask term)).

(** [Classifier.relabel(self, relabeler)]. *)
Definition relabel (relabeler : string -> option string) : Classifier -> result Classifier :=
  string_classifiers_only "relabel" (fun self => Relabel__new__ self relabeler).

(** [Shift(inputs=..., window_length=..., mask=..., dtype=...)].

    Modelled from the spec: the constructor of terms is [Term.__new__] of
    zipline/pipeline/term.py, which is not among the sources.  By section
    4.1, validation of a shifted classifier is "deferred to validate-time,
    not construction-time": constructing the node stores its attributes
    and checks nothing. *)
Definition Shift__new__ (inputs : list Term) (window_length : Z)
    (mask : option Term) (dtype : DType) : result Classifier :=
  Ok (mkClassifier Shift dtype (default_missing_value dtype) window_length inputs mask).

(** [Classifier.shift(self, periods=1, mask=None)]. *)
Definition shift (periods : Z) (mask : option Term) (self : Classifier)
  : result Classifier :=
  Shift__new__ [ClassifierTerm self] (periods + 1) mask (dtype self).
End Construction.

Section Validation.
(** [super(CustomClassifier, self)._validate()]: the checks of the mixins
    and of the term base classes (mixins.py, term.py). *)
Variable base_validate : Classifier -> result unit.
(** The dtype families of dtypes.py. *)
Variable FACTOR_DTYPES FILTER_DTYPES : list DType.

(** [CustomClassifier._validate(self)]. *)
Definition CustomClassifier_validate (self : Classifier) : result unit :=
  match base_validate self with
  | Ok _ => Ok tt
  | Raise e =>
      match exn_class e with
      | UnsupportedDataType =>
          if bool_decide (dtype self ∈ FACTOR_DTYPES) then
            Raise (mkExn UnsupportedDataType
                     [Arg_dtype (dtype self); Text "Did you mean to create a CustomFactor?"])
          else if bool_decide (dtype self ∈ FILTER_DTYPES) then
            Raise (mkExn UnsupportedDataType
                     [Arg_dtype (dtype self); Text "Did you mean to create a CustomFilter?"])
          else Raise e
      | _ => Raise e
      end
  end.

(** [Shift._validate(self)].  The two adjacent string literals of the
    source join without a space. *)
Definition Shift_validate (self : Classifier) : result unit :=
  _ ← CustomClassifier_validate self;
  if window_length self <? 2 then
    Raise (mkExn ValueError
             [Text "'Shift' expected a window lengthof at least 2, but was given ";
              Arg_int (window_length self);
              Text ". To shift one period, use a window length of 2."])
  else Ok tt.
End Validation.

End classifier.

(** ** Evaluation of filters and classifiers

    The engine that computes terms over arrays, the coded string array and
    the expression evaluator are collaborators of the two modules above.
    They are modelled here as far as the properties below need them. *)

Module engine.

(** A date-by-asset array. *)
Abbreviation grid A := (list (list A)).

Definition grid_map {A B} (f : A -> B) (g : grid A) : grid B :=
  fmap (M := list) f <$> g.

Definition grid_zip_with {A B C} (f : A -> B -> C) (g : grid A) (h : grid B) : grid C :=
  zip_with (zip_with f) g h.

Definition grid_get {A} (g : grid A) (i j : nat) : option A :=
  match g !! i with
  | Some row => row !! j
  | None => None
  end.

(** Modelled from the spec: the Coded String Array ([LabelArray] of
    zipline/lib/labelarray.py, which is not among the sources).  By
    section 3 it pairs "a fixed-size grid of integer codes" with "a finite
    ordered set of distinct category strings" and "one reserved code
    denoting missing", and "the missing code is never a valid index into
    the category set". *)
Record LabelArray := mkLabelArray {
  categories : list string;
  codes : grid Z
}.

Definition missing_code : Z := -1.

(** The category of a code; [None] for the missing code (and for any code
    that indexes no category). *)
Definition label_of (cats : list string) (code : Z) : option string :=
  if code <? 0 then None else cats !! Z.to_nat code.

(** The code of a category in a table, or the missing code. *)
Fixpoint code_of (cats : list string) (label : string) : Z :=
  match cats with
  | [] => missing_code
  | c :: rest =>
      if String.eqb c label then 0
      else let k := code_of rest label in if k <? 0 then missing_code else k + 1
  end.

(** Modelled from the spec: a vectorized predicate of the Coded String
    Array.  By section 3 it is "evaluated once per distinct category and
    then broadcast to codes", and "no vectorized predicate ever matches the
    missing code". *)
Definition map_predicate (p : string -> bool) (la : LabelArray) : grid bool :=
  let results := p <$> categories la in
  grid_map (fun code =>
              if code <? 0 then false
              else default false (results !! Z.to_nat code))
           (codes la).

(** The distinct values of a list, in order of first occurrence. *)
Fixpoint distinct (l : list string) : list string :=
  match l with
  | [] => []
  | x :: rest => x :: filter (fun y => y <> x) (distinct rest)
  end.

(** Modelled from the spec: [LabelArray.map(f)].  By section 4.1 it
    "applies [fn] exactly once per distinct category value (not per cell)
    and rewrites the category table, leaving missing cells unchanged".
    The second component lists the arguments [f] was called with, in
    order; the codes are rewritten from the table of results, with no
    further call.  A category that [f] sends to [None] becomes missing. *)
Definition LabelArray_map (f : string -> option string) (la : LabelArray)
  : LabelArray * list string :=
  let calls := categories la in
  let results := f <$> calls in
  let new_categories := distinct (omap id results) in
  let recode code :=
    if code <? 0 then missing_code
    else match results !! Z.to_nat code with
         | Some (Some label) => code_of new_categories label
         | _ => missing_code
         end in
  (mkLabelArray new_categories (grid_map recode (codes la)), calls).

(** The array a term receives as input: a plain integer array or a coded
    string array. *)
Inductive array :=
| IntArray (values : grid Z)
| Labels (la : LabelArray).

(** [Relabel._compute(self, arrays, dates, assets, mask)] of classifier.py.
    [result[~mask] = data.missing_value] writes the missing code where the
    mask is false.  The list of calls made to the relabeler is returned
    with the result. *)
Definition Relabel_compute (self : Classifier) (arrays : list array)
    (mask : grid bool) : result (LabelArray * list string) :=
  match cls self with
  | Relabel relabeler =>
      data ← getitem0 arrays;
      match data with
      | Labels data =>
          let '(mapped, calls) := LabelArray_map relabeler data in
          Ok (mkLabelArray (categories mapped)
                (grid_zip_with (fun code (m : bool) => if m then code else missing_code)
                               (codes mapped) mask),
              calls)
      | IntArray _ =>
          Raise (mkExn NotImplementedError
                   [Text "Relabeling is not currently supported for int-dtype classifiers."])
      end
  | _ => Raise (mkExn KeyError [Arg_str "relabeler"])
  end.

(** *** The expression evaluator *)

Inductive token :=
| T_lparen | T_rparen | T_not | T_and | T_or | T_eq | T_ne
| T_var (name : string)
| T_int (n : Z)
| T_bad (word : string).

Definition classify (word : string) : token :=
  if String.eqb word "&" then T_and
  else if String.eqb word "|" then T_or
  else if String.eqb word "==" then T_eq
  else if String.eqb word "!=" then T_ne
  else if String.prefix "x_" word then T_var word
  else match NilEmpty.int_of_string word with
       | Some d => T_int (Z.of_int d)
       | None => T_bad word
       end.

Definition flush (word : string) (rest : list token) : list token :=
  if String.eqb word "" then rest else classify word :: rest.

(** Words are separated by blanks; parentheses and [~] stand alone. *)
Fixpoint lex (s : string) (word : string) : list token :=
  match s with
  | EmptyString => flush word []
  | String c rest =>
      if Ascii.eqb c " " then flush word (lex rest "")
      else if Ascii.eqb c "(" then flush word (T_lparen :: lex rest "")
      else if Ascii.eqb c ")" then flush word (T_rparen :: lex rest "")
      else if Ascii.eqb c "~" then flush word (T_not :: lex rest "")
      else lex rest (word +:+ String c "")
  end.

Inductive nexpr :=
| N_var (name : string)
| N_int (n : Z)
| N_not (e : nexpr)
| N_and (a b : nexpr)
| N_or (a b : nexpr)
| N_eq (a b : nexpr)
| N_ne (a b : nexpr).

(** Python's precedence: [~] binds tighter than [&], [&] tighter than [|],
    and the comparisons are the loosest. *)
Fixpoint p_cmp (fuel : nat) (ts : list token) {struct fuel} : option (nexpr * list token) :=
  match fuel with
  | O => None
  | S f =>
      match p_or f ts with
      | Some (a, T_eq :: r) =>
          match p_or f r with
          | Some (b, r') => Some (N_eq a b, r')
          | None => None
          end
      | Some (a, T_ne :: r) =>
          match p_or f r with
          | Some (b, r') => Some (N_ne a b, r')
          | None => None
          end
      | other => other
      end
  end
with p_or (fuel : nat) (ts : list token) {struct fuel} : option (nexpr * list token) :=
  match fuel with
  | O => None
  | S f =>
      match p_and f ts with
      | Some (a, r) => p_or_rest f a r
      | None => None
      end
  end
with p_or_rest (fuel : nat) (a : nexpr) (ts : list token) {struct fuel}
  : option (nexpr * list token) :=
  match fuel with
  | O => None
  | S f =>
      match ts with
      | T_or :: r =>
          match p_and f r with
          | Some (b, r') => p_or_rest f (N_or a b) r'
          | None => None
          end
      | _ => Some (a, ts)
      end
  end
with p_and (fuel : nat) (ts : list token) {struct fuel} : option (nexpr * list token) :=
  match fuel with
  | O => None
  | S f =>
      match p_unary f ts with
      | Some (a, r) => p_and_rest f a r
      | None => None
      end
  end
with p_and_rest (fuel : nat) (a : nexpr) (ts : list token) {struct fuel}
  : option (nexpr * list token) :=
  match fuel with
  | O => None
  | S f =>
      match ts with
      | T_and :: r =>
          match p_unary f r with
          | Some (b, r') => p_and_rest f (N_and a b) r'
          | None => None
          end
      | _ => Some (a, ts)
      end
  end
with p_unary (fuel : nat) (ts : list token) {struct fuel} : option (nexpr * list token) :=
  match fuel with
  | O => None
  | S f =>
      match ts with
      | T_not :: r =>
          match p_unary f r with
          | Some (e, r') => Some (N_not e, r')
          | None => None
          end
      | T_var x :: r => Some (N_var x, r)
      | T_int n :: r => Some (N_int n, r)
      | T_lparen :: r =>
          match p_cmp f r with
          | Some (e, T_rparen :: r') => Some (e, r')
          | _ => None
          end
      | _ => None
      end
  end.

Definition parse (expr : string) : option nexpr :=
  let ts := lex expr "" in
  match p_cmp (8 * length ts + 8) ts with
  | Some (e, []) => Some e
  | _ => None
  end.

(** The value of one cell: a boolean or an integer. *)
Inductive nvalue :=
| NBool (b : bool)
| NInt (n : Z).

Definition nvalue_int (v : nvalue) : Z :=
  match v with
  | NInt n => n
  | NBool b => if b then 1 else 0
  end.

Fixpoint eval (env : gmap string nvalue) (e : nexpr) : option nvalue :=
  match e with
  | N_var x => env !! x
  | N_int n => Some (NInt n)
  | N_not a =>
      match eval env a with
      | Some (NBool b) => Some (NBool (negb b))
      | Some (NInt n) => Some (NInt (Z.lnot n))
      | None => None
      end
  | N_and a b =>
      match eval env a, eval env b with
      | Some (NBool x), Some (NBool y) => Some (NBool (x && y))
      | Some (NInt x), Some (NInt y) => Some (NInt (Z.land x y))
      | _, _ => None
      end
  | N_or a b =>
      match eval env a, eval env b with
      | Some (NBool x), Some (NBool y) => Some (NBool (x || y))
      | Some (NInt x), Some (NInt y) => Some (NInt (Z.lor x y))
      | _, _ => None
      end
  | N_eq a b =>
      match eval env a, eval env b with
      | Some x, Some y => Some (NBool (nvalue_int x =? nvalue_int y))
      | _, _ => None
      end
  | N_ne a b =>
      match eval env a, eval env b with
      | Some x, Some y => Some (NBool (negb (nvalue_int x =? nvalue_int y)))
      | _, _ => None
      end
  end.

(** Modelled from the spec: the evaluation of a filter's expression string
    (numexpr, called from zipline/pipeline/expression.py; neither is among
    the sources).  By section 4.1 an equality on a numeric-coded term
    "compiles to a scalar arithmetic-expression evaluator bound to the
    term".  The expression is evaluated cell by cell on the values bound to
    its variables and must produce a boolean. *)
Definition numexpr_evaluate (expr : string) (env : gmap string nvalue) : result bool :=
  match parse expr with
  | Some e =>
      match eval env e with
      | Some (NBool b) => Ok b
      | _ => Raise (mkExn TypeError [Text "expression does not evaluate to a boolean: "; Arg_str expr])
      end
  | None => Raise (mkExn (OtherException "SyntaxError") [Arg_str expr])
  end.

(** *** Computing a filter over the output of its input *)

Fixpoint traverse {A B} (f : A -> result B) (l : list A) : result (list B) :=
  match l with
  | [] => Ok []
  | x :: rest =>
      y ← f x;
      ys ← traverse f rest;
      Ok (y :: ys)
  end.

Definition grid_traverse {A B} (f : A -> result B) (g : grid A) : result (grid B) :=
  traverse (traverse f) g.

(** [s.endswith(suffix)] and [substring in s]. *)
Definition str_endswith (suffix s : string) : bool :=
  (String.length suffix <=? String.length s)%nat
  && String.eqb (String.substring (String.length s - String.length suffix)
                                  (String.length suffix) s) suffix.

Definition str_has_substring (substring s : string) : bool :=
  match String.index 0 substring s with
  | Some _ => true
  | None => false
  end.

(** Modelled from the spec: the operators that an [ArrayPredicate] applies
    to string labels (methods of [LabelArray] and [operator.eq]/[ne] on
    it; zipline/lib/labelarray.py is not among the sources), named by
    their [__name__].  By section 4.1 they are elementwise predicates on
    the label: equality, inequality, membership, prefix, suffix and
    substring tests.  Regular expressions are not modelled. *)
Definition label_op (op : string) (arg : pyvalue) : result (string -> bool) :=
  if String.eqb op "eq" then Ok (fun label => py_eq (PyStr label) arg)
  else if String.eqb op "ne" then Ok (fun label => negb (py_eq (PyStr label) arg))
  else if String.eqb op "isin" then
    match arg with
    | PyFrozenset choices => Ok (fun label => py_in (PyStr label) choices)
    | _ => Raise (mkExn TypeError [Text "isin expects a frozenset"])
    end
  else
    match arg with
    | PyStr s =>
        if String.eqb op "startswith" then Ok (String.prefix s)
        else if String.eqb op "endswith" then Ok (str_endswith s)
        else if String.eqb op "has_substring" then Ok (str_has_substring s)
        else Raise (mkExn (OtherException "Unsupported") [Arg_str op])
    | _ => Raise (mkExn TypeError [Text "expected a string"])
    end.

(** Modelled from the spec: [op(data, *opargs)] of an [ArrayPredicate].
    On a coded string array the operator is a vectorized predicate, so a
    missing cell never matches (section 3; for [ne], section 4.1: "a
    missing element is never 'not equal' either").  On an integer array
    the only operator is [vectorized_is_element], the membership test of
    each cell in the choices. *)
Definition apply_op (op : string) (data : array) (opargs : list pyvalue)
  : result (grid bool) :=
  arg ← getitem0 opargs;
  match data with
  | Labels la =>
      p ← label_op op arg;
      Ok (map_predicate p la)
  | IntArray values =>
      if String.eqb op "vectorized_is_element" then
        match arg with
        | PyFrozenset choices => Ok (grid_map (fun x => py_in (PyInt x) choices) values)
        | _ => Raise (mkExn TypeError [Text "vectorized_is_element expects a frozenset"])
        end
      else Raise (mkExn (OtherException "Unsupported") [Arg_str op])
  end.

(** Modelled from the spec: [_compute(arrays, dates, assets, mask)] of a
    filter with one input (filters.py and expression.py are not among the
    sources).  An [ArrayPredicate] applies its operator to the input and
    masks the result; a [NumExprFilter] evaluates its expression with
    [x_0] bound to each cell of the integer input and masks the result
    (section 4.1: numeric-coded comparisons compile to the expression
    evaluator, categorical ones to an elementwise predicate). *)
Definition Filter_compute (self : Term) (arrays : list array) (mask : grid bool)
  : result (grid bool) :=
  match self with
  | ArrayPredicate _ op opargs =>
      data ← getitem0 arrays;
      matched ← apply_op op data opargs;
      Ok (grid_zip_with andb matched mask)
  | NumExprFilter _expr _ =>
      data ← getitem0 arrays;
      match data with
      | IntArray values =>
          matched ← grid_traverse
                      (fun x => numexpr_evaluate _expr {["x_0" := NInt x]}) values;
          Ok (grid_zip_with andb matched mask)
      | Labels _ =>
          Raise (mkExn TypeError [Text "Numexpr doesn't know how to use LabelArrays."])
      end
  | _ => Raise (mkExn (OtherException "Unsupported") [Arg_term self])
  end.

(** The value of the filter [f] at row [i], column [j]. *)
Definition filter_cell (f : Term) (data : array) (mask : grid bool) (i j : nat)
  : option bool :=
  match Filter_compute f [data] mask with
  | Ok g => grid_get g i j
  | Raise _ => None
  end.

(** The cells of an input array that hold the missing value: the missing
    code of a coded string array, the integer [missing_value] of an
    integer array. *)
Definition cell_missing (missing_value : pyvalue) (data : array) (i j : nat) : option bool :=
  match data with
  | IntArray values => (fun x => py_eq (PyInt x) missing_value) <$> grid_get values i j
  | Labels la =>
      (fun code => bool_decide (label_of (categories la) code = None))
        <$> grid_get (codes la) i j
  end.

(** *** Screens and prescreens on the securities master *)

(** One security with its securities master record.  The record does not
    change over time, so a screen built from it keeps or drops a security
    on every date alike. *)
Record Security := mkSecurity {
  security_sid : Z;
  security_real_sid : string;
  security_fields : gmap string pyvalue
}.

(** The value of a field, [None] when it is missing. *)
Definition field_value (row : Security) (field : string) : option pyvalue :=
  match security_fields row !! field with
  | Some PyNone | None => None
  | Some v => Some v
  end.

(** The securities master field that [term] reads through [.latest]. *)
Definition latest_field (term : Term) : option string :=
  match term with
  | ClassifierTerm c =>
      match cls c, inputs c with
      | Latest, [BoundColumn _ name] => Some name
      | _, _ => None
      end
  | LatestFactor [BoundColumn _ name] => Some name
  | _ => None
  end.

(** Modelled from the spec: the value of a screen for one security, that
    is, the cell that the engine (not among the sources) computes for the
    filter.  The leaves are those of section 4.2: a single asset, static
    sets of sids or real sids, a comparison of a securities master column,
    a boolean column, and the null checks; a [NumExprFilter] evaluates
    its expression over the values of its bindings.  [fuel] bounds the
    nesting of expressions. *)
Fixpoint screen_value (fuel : nat) (screen : Term) (row : Security) : result bool :=
  match fuel with
  | O => Raise (mkExn (OtherException "RecursionError") [])
  | S fuel =>
      match screen with
      | SingleAsset _asset => Ok (security_sid row =? sid _asset)
      | StaticAssets sids => Ok (bool_decide (security_sid row ∈ sids))
      | StaticSids sids | StaticUniverse sids =>
          Ok (bool_decide (security_real_sid row ∈ sids))
      | ArrayPredicate [input] op opargs =>
          arg ← getitem0 opargs;
          p ← label_op op arg;
          match latest_field input with
          | Some field =>
              match field_value row field with
              | Some (PyStr label) => Ok (p label)
              | _ => Ok false
              end
          | None => Raise (mkExn (OtherException "Unsupported") [Arg_term screen])
          end
      | LatestFilter [BoundColumn _ name] =>
          match field_value row name with
          | Some v => Ok (py_eq v (PyBool true))
          | None => Ok false
          end
      | NullFilter [input] =>
          match latest_field input with
          | Some field => Ok (bool_decide (field_value row field = None))
          | None => Raise (mkExn (OtherException "Unsupported") [Arg_term screen])
          end
      | NotNullFilter [input] =>
          match latest_field input with
          | Some field => Ok (bool_decide (field_value row field <> None))
          | None => Raise (mkExn (OtherException "Unsupported") [Arg_term screen])
          end
      | NumExprFilter _expr bindings =>
          numexpr_evaluate _expr
            (omap (fun bound =>
                     match screen_value fuel bound row with
                     | Ok b => Some (NBool b)
                     | Raise _ => None
                     end) bindings)
      | _ => Raise (mkExn (OtherException "Unsupported") [Arg_term screen])
      end
  end.

(** Modelled from the spec: one field predicate of a prescreen.  By the
    docstring of [_maybe_convert_to_prescreen], [values] are the "values
    to include or exclude" and [negate] says "whether to negate the
    filter"; the operators are those of section 3. *)
Definition fielddef_keeps (fielddef : pipeline.FieldDef) (row : Security) : result bool :=
  let value := field_value row (pipeline.fd_field fielddef) in
  let op := pipeline.fd_op fielddef in
  matched ←
    (if String.eqb op "isnull" then Ok (bool_decide (value = None))
     else match value with
          | None => Ok false
          | Some v =>
              if String.eqb op "eq" then
                match pipeline.fd_values fielddef with
                | PyList values => Ok (py_in v values)
                | _ => Raise (mkExn TypeError [Text "values must be a list"])
                end
              else
                match v, pipeline.fd_values fielddef with
                | PyStr s, PyStr arg =>
                    if String.eqb op "contains" then Ok (str_has_substring arg s)
                    else if String.eqb op "startswith" then Ok (String.prefix arg s)
                    else if String.eqb op "endswith" then Ok (str_endswith arg s)
                    else Raise (mkExn (OtherException "Unsupported") [Arg_str op])
                | _, _ => Ok false
                end
          end);
  Ok (xorb (pipeline.fd_negate fielddef) matched).

(** Modelled from the spec: whether a prescreen keeps a security.  By the
    docstring of [_maybe_convert_to_prescreen], ["sids"] and
    ["real_sids"] list the securities "to include" and every entry of
    ["fields"] is a filter on a securities master field; a key that is
    absent restricts nothing. *)
Definition prescreen_keeps (prescreen : pipeline.Prescreen) (row : Security) : result bool :=
  let by_sid :=
    match pipeline.ps_sids prescreen with
    | Some sids => bool_decide (security_sid row ∈ sids)
    | None => true
    end in
  let by_real_sid :=
    match pipeline.ps_real_sids prescreen with
    | Some sids => bool_decide (security_real_sid row ∈ sids)
    | None => true
    end in
  by_fields ← traverse (fun fielddef => fielddef_keeps fielddef row)
                       (default [] (pipeline.ps_fields prescreen));
  Ok (by_sid && by_real_sid && forallb id by_fields).

(** The rows of [universe] that a row predicate keeps. *)
Fixpoint keep_rows (keeps : Security -> result bool) (universe : list Security)
  : result (list Security) :=
  match universe with
  | [] => Ok []
  | row :: rest =>
      kept ← keeps row;
      others ← keep_rows keeps rest;
      Ok (if kept : bool then row :: others else others)
  end.

(** The securities in the output of a pipeline: those that its prescreen
    admits before computation and that its screen keeps after it. *)
Definition output_rows (p : pipeline.Pipeline) (universe : list Security)
  : result (list Security) :=
  admitted ← match pipeline._prescreen p with
             | Some prescreen => keep_rows (prescreen_keeps prescreen) universe
             | None => Ok universe
             end;
  match pipeline._screen p with
  | Some screen => keep_rows (screen_value 8 screen) admitted
  | None => Ok admitted
  end.

End engine.

(** ** Predicates used to state the properties *)

Module props.
Import pipeline.

(** At most one of the screen and the prescreen of a pipeline is set. *)
Definition at_most_one_active (p : Pipeline) : Prop :=
  _screen p = None \/ _prescreen p = None.

(** The pipelines that construction and the mutating methods produce;
    the state left behind by a call that raised counts as well. *)
Inductive reachable : Pipeline -> Prop :=
| reach_init columns screen domain p :
    Pipeline__init__ columns screen domain = Ok p -> reachable p
| reach_add term name overwrite p :
    reachable p -> reachable (fst (add term name overwrite p))
| reach_remove name p :
    reachable p -> reachable (fst (remove name p))
| reach_set_screen screen overwrite p :
    reachable p -> reachable (fst (set_screen screen overwrite p)).

(** [p] with its columns replaced. *)
Definition with_columns (columns : gmap string Term) (p : Pipeline) : Pipeline :=
  mkPipeline columns (_prescreen p) (_screen p) (_domain p).

(** [p] with neither screen nor prescreen. *)
Definition without_screen (p : Pipeline) : Pipeline :=
  mkPipeline (_columns p) None None (_domain p).

(** A conjunction of variables, each possibly negated, in any order and
    with parentheses anywhere: the shape of the expression of a screen
    that is an AND of filters. *)
Inductive conjunction :=
| Leaf (negated : bool) (name : string)
| And (lhs rhs : conjunction)
| Paren (e : conjunction).

(** One conjunct as it is written: [x_i] or [~x_i]. *)
Definition written (leaf : bool * string) : string :=
  (if leaf.1 then "~" else "") +:+ leaf.2.

(** The expression string of a conjunction. *)
Fixpoint render (e : conjunction) : string :=
  match e with
  | Leaf negated name => written (negated, name)
  | And lhs rhs => render lhs +:+ " & " +:+ render rhs
  | Paren e => "(" +:+ render e +:+ ")"
  end.

(** The conjuncts of a conjunction, from left to right. *)
Fixpoint leaves (e : conjunction) : list (bool * string) :=
  match e with
  | Leaf negated name => [(negated, name)]
  | And lhs rhs => leaves lhs ++ leaves rhs
  | Paren e => leaves e
  end.

(** [" & ".join(pieces)]. *)
Fixpoint join_and (pieces : list string) : string :=
  match pieces with
  | [] => ""
  | [piece] => piece
  | piece :: rest => piece +:+ " & " +:+ join_and rest
  end.

(** The characters of a variable name: anything but blanks, parentheses
    and the operators [~], [&] and [|]. *)
Definition name_char (c : ascii) : bool :=
  negb (str_contains c " ()~&|").

(** [s[n:]]. *)
Fixpoint str_drop (n : nat) (s : string) : string :=
  match n, s with
  | S n, String _ rest => str_drop n rest
  | _, _ => s
  end.

(** [expr.replace("(", "").replace(")", "")]. *)
Definition strip_parens (s : string) : string :=
  str_replace (str_replace s "(" "") ")" "".

(** The outcome of a conversion is a prescreen dict. *)
Definition converted {A} (outcome : result (option A)) : bool :=
  match outcome with
  | Ok (Some _) => true
  | _ => false
  end.

(** A term converts when [_term_to_prescreen_dict] turns it into a
    prescreen dict. *)
Definition converts (term : Term) : Prop :=
  exists prescreen, _term_to_prescreen_dict term None false = Ok (Some prescreen).

(** Every conjunct of [e] is bound, and bound to a term that converts. *)
Definition all_convert (bindings : gmap string Term) (e : conjunction) : Prop :=
  forall leaf, leaf ∈ leaves e ->
    exists term, bindings !! leaf.2 = Some term /\ converts term.

(** Some conjunct of [e] is bound to a term that does not convert. *)
Definition some_fails (bindings : gmap string Term) (e : conjunction) : Prop :=
  exists leaf term,
    leaf ∈ leaves e /\ bindings !! leaf.2 = Some term /\ ~ converts term.

(** The screen of [e] over [bindings] is well formed: the names are
    variable names, and the bindings are exactly the variables. *)
Definition well_formed (bindings : gmap string Term) (e : conjunction) : Prop :=
  Forall (fun leaf : bool * string => str_forall name_char leaf.2 = true) (leaves e)
  /\ dom bindings = list_to_set ((fun leaf : bool * string => leaf.2) <$> leaves e).

(** [set_screen(screen, overwrite=True)] installs a prescreen. *)
Definition installs_prescreen (screen : Term) (p : Pipeline) : Prop :=
  is_Some (_prescreen (fst (set_screen screen true p))).

(** [p] with [screen] as its screen and no prescreen. *)
Definition with_screen (screen : Term) (p : Pipeline) : Pipeline :=
  mkPipeline (_columns p) None (Some screen) (_domain p).

(** The characters of a decimal numeral, and the characters that the
    lexer of expressions reads as part of a word. *)
Definition decimal_char (c : ascii) : bool :=
  str_contains c "0123456789-".

Definition word_char (c : ascii) : bool :=
  negb (str_contains c " ()~").

(** The choices fit the dtype of the classifier, and [data] is an array
    that a classifier of that dtype produces. *)
Definition well_typed_choices (self : Classifier) (items : list pyvalue)
    (data : engine.array) : Prop :=
  (dtype self = int64_dtype
   /\ forallb isinstance_int items = true
   /\ exists values, data = engine.IntArray values)
  \/ (dtype self = categorical_dtype
      /\ forallb isinstance_str items = true
      /\ exists la, data = engine.Labels la).

(** The sids of the securities in the output of a pipeline. *)
Definition output_sids (p : Pipeline) (universe : list engine.Security) : result (list Z) :=
  match engine.output_rows p universe with
  | Ok rows => Ok (engine.security_sid <$> rows)
  | Raise e => Raise e
  end.

End props.

(** ** Example objects *)

Module examples.
Import pipeline.

Definition SecuritiesMaster : DataSet := {| qualname := "SecuritiesMaster" |}.

(** [SecuritiesMaster.SecType], a bound column, and its [.latest]. *)
Definition SecType : Term := BoundColumn SecuritiesMaster "SecType".
Definition SecType_latest : Classifier :=
  mkClassifier Latest categorical_dtype PyNone 1 [SecType] None.

(** [SecuritiesMaster.SecType.latest.eq('STK')]. *)
Definition is_stock : Term := ArrayPredicate [ClassifierTerm SecType_latest] "eq" [PyStr "STK"].

(** [SecuritiesMaster.Etf.latest], a boolean column read directly. *)
Definition is_etf : Term := LatestFilter [BoundColumn SecuritiesMaster "Etf"].

(** A filter that the optimizer does not recognize. *)
Definition unrecognized : Term := OtherFilter.

Definition asset1 : Asset := {| sid := 1 |}.

(** An integer-coded classifier, such as a sector code. *)
Definition sector : Classifier :=
  mkClassifier PlainClassifier int64_dtype (PyInt (-1)) 0 [] None.

(** A one-dimensional computable term and a two-dimensional term that is
    not computable. *)
Definition one_dimensional : Term := OtherTerm true 1.
Definition not_computable : Term := SecType.

(** [Pipeline(columns={"sector": sector})]. *)
Definition one_column : Pipeline :=
  mkPipeline {["sector" := ClassifierTerm sector]} None None GENERIC.

(** [Pipeline(columns={"sector": sector, "stock": is_stock})]. *)
Definition two_columns : Pipeline :=
  mkPipeline (<["stock" := is_stock]> {["sector" := ClassifierTerm sector]}) None None GENERIC.

Definition US_EQUITIES : Domain := ConcreteDomain 1 "EquityCalendarDomain('US', 'XNYS')".
Definition CA_EQUITIES : Domain := ConcreteDomain 2 "EquityCalendarDomain('CA', 'XTSE')".

(** Three securities: a stock, a stock that is an ETF, and a future. *)
Definition universe : list engine.Security :=
  [engine.mkSecurity 1 "FIBBG0001" (<["SecType" := PyStr "STK"]> {["Etf" := PyBool false]});
   engine.mkSecurity 2 "FIBBG0002" (<["SecType" := PyStr "STK"]> {["Etf" := PyBool true]});
   engine.mkSecurity 3 "FIBBG0003" (<["SecType" := PyStr "FUT"]> {["Etf" := PyBool false]})].

(** [~SingleAsset(asset1)]: the inversion of a filter is the expression
    [~x_0] over that filter. *)
Definition not_asset1 : Term :=
  classifier.NumExprFilter_create "~x_0" [SingleAsset asset1].

(** [~(is_stock & is_etf)]: the conjunction is the expression
    [x_0 & x_1]; inverting an expression wraps it in parentheses. *)
Definition not_stock_and_etf : Term :=
  classifier.NumExprFilter_create "~(x_0 & x_1)" [is_stock; is_etf].

(** The bindings and the expression of [~is_stock & is_etf], written by
    the filter operators as [(~x_0) & (x_1)], and the bindings of a
    conjunction whose second conjunct is not recognized. *)
Definition stock_etf_bindings : gmap string Term :=
  <["x_1" := is_etf]> {["x_0" := is_stock]}.
Definition stock_other_bindings : gmap string Term :=
  <["x_1" := unrecognized]> {["x_0" := is_stock]}.
Definition not_x0_and_x1 : props.conjunction :=
  props.And (props.Paren (props.Leaf true "x_0")) (props.Paren (props.Leaf false "x_1")).

(** A coded string array over three categories, with one missing cell,
    and a mask that hides one cell. *)
Definition labels : engine.LabelArray :=
  engine.mkLabelArray ["STK"; "FUT"; "CASH"] [[0; 1; -1]; [2; 2; 1]].
Definition mask_one_hidden : list (list bool) :=
  [[true; true; true]; [true; false; true]].

(** The output of [sector] on two dates and three assets; [-1] is its
    missing value. *)
Definition sector_codes : engine.array := engine.IntArray [[101; 205; -1]; [205; 205; 310]].

(** A relabeler that merges two categories and drops a third. *)
Definition merge_labels (label : string) : option string :=
  if String.eqb label "CASH" then None else Some "SEC".

End examples.

(** ** pipeline.py: compiling a pipeline into a graph *)

Module pipeline_graph.
Import pipeline.

Section Graph.
(** The collaborators of graph.py: the column name [SCREEN_NAME] under
    which the screen enters the graph, and the constructors of
    [ExecutionPlan] and [TermGraph], which build the dependency graph of
    the terms they are given or raise. *)
Variable SCREEN_NAME : string.
Variables Timestamp ExecutionPlan TermGraph : Type.
Variable ExecutionPlan__init__ :
  Domain -> gmap string Term -> Timestamp -> Timestamp -> result ExecutionPlan.
Variable TermGraph__init__ : gmap string Term -> result TermGraph.

(** [Pipeline._prepare_graph_terms(self, default_screen)]: a copy of the
    columns with the screen, or the default screen, stored under
    [SCREEN_NAME]. *)
Definition _prepare_graph_terms (default_screen : Term) (self : Pipeline)
  : gmap string Term :=
  let columns := _columns self in
  let screen := _screen self in
  let screen := match screen with
                | None => default_screen
                | Some screen => screen
                end in
  <[SCREEN_NAME := screen]> columns.

(** [Pipeline.to_execution_plan(self, domain, default_screen, start_date,
    end_date)]. *)
Definition to_execution_plan (domain : Domain) (default_screen : Term)
    (start_date end_date : Timestamp) (self : Pipeline) : result ExecutionPlan :=
  if bool_decide (_domain self <> GENERIC) && bool_decide (_domain self <> domain) then
    Raise (mkExn AssertionError
             [Text "Attempted to compile Pipeline with domain "; Arg_domain (_domain self);
              Text " to execution plan with different domain "; Arg_domain domain;
              Text "."])
  else
    ExecutionPlan__init__ domain (_prepare_graph_terms default_screen self)
                          start_date end_date.

(** [Pipeline.to_simple_graph(self, default_screen)]. *)
Definition to_simple_graph (default_screen : Term) (self : Pipeline) : result TermGraph :=
  TermGraph__init__ (_prepare_graph_terms default_screen self).
End Graph.

End pipeline_graph.

(** ** Predicates on columns and prescreens *)

Module invariants.
Import pipeline.

(** A term that [Pipeline.__init__] and [Pipeline.add] accept as a column:
    a [ComputableTerm] whose [ndim] is not 1. *)
Definition valid_column (term : Term) : bool :=
  isinstance_ComputableTerm term && negb (ndim term =? 1).

(** The values that the ["op"] key of a field definition takes in
    [_term_to_prescreen_fielddef]. *)
Definition field_ops : list string :=
  ["eq"; "contains"; "startswith"; "endswith"; "match"; "isnull"].

Definition is_list (v : pyvalue) : bool :=
  match v with PyList _ => true | _ => false end.

(** A field definition with a known operator; those of the operators
    ["eq"] and ["isnull"] carry a list of values. *)
Definition valid_fielddef (fielddef : FieldDef) : bool :=
  bool_decide (fd_op fielddef ∈ field_ops)
  && (if String.eqb (fd_op fielddef) "eq" || String.eqb (fd_op fielddef) "isnull"
      then is_list (fd_values fielddef) else true).

(** A prescreen dict that has a key, and whose field definitions are
    valid. *)
Definition valid_prescreen (prescreen : Prescreen) : bool :=
  prescreen_truthy prescreen
  && forallb valid_fielddef (default [] (ps_fields prescreen)).

(** The filters that [_term_to_prescreen_dict] turns into sids or real
    sids. *)
Definition sid_filter (term : Term) : bool :=
  match term with
  | SingleAsset _ | StaticAssets _ | StaticSids _ | StaticUniverse _ => true
  | _ => false
  end.

(** The filters whose sids are zipline sids, and those sids. *)
Definition asset_filter (term : Term) : bool :=
  match term with
  | SingleAsset _ | StaticAssets _ => true
  | _ => false
  end.

Definition asset_sids (term : Term) : list Z :=
  match term with
  | SingleAsset _asset => [sid _asset]
  | StaticAssets sids => sids
  | _ => []
  end.

(** The sids of the filter bound to a name. *)
Definition bound_sids (bindings : gmap string Term) (name : string) : list Z :=
  match bindings !! name with
  | Some term => asset_sids term
  | None => []
  end.

(** The field definition that a conjunct contributes: that of the filter
    bound to its name, with [negate] flipped when the conjunct is
    inverted. *)
Definition bound_fielddef (bindings : gmap string Term) (leaf : bool * string)
  : option FieldDef :=
  match bindings !! leaf.2 with
  | Some term =>
      match _term_to_prescreen_fielddef term with
      | Ok (Some fielddef) => Some (if leaf.1 then flip_negate fielddef else fielddef)
      | _ => None
      end
  | None => None
  end.

(** [~term] for a filter that is not itself an expression, and [~~term]:
    the expressions [~x_0] and [~(~x_0)] over [term]. *)
Definition invert (term : Term) : Term :=
  NumExprFilter "~x_0" {["x_0" := term]}.

Definition invert_twice (term : Term) : Term :=
  NumExprFilter "~(~x_0)" {["x_0" := term]}.

End invariants.

(** ** More example objects *)

Module samples.
Import pipeline.

(** The expression [x_0 & ~x_1] over a single asset and a static set of
    assets: its bindings and its conjunction. *)
Definition asset_bindings : gmap string Term :=
  <["x_1" := StaticAssets [2; 3]]> {["x_0" := SingleAsset examples.asset1]}.
Definition x0_and_not_x1 : props.conjunction :=
  props.And (props.Leaf false "x_0") (props.Leaf true "x_1").

(** The dataset [alpaca.ETB], with its boolean column [etb]. *)
Definition ETB : DataSet := {| qualname := "ETB" |}.

(** A graph constructor that records what it is given. *)
Definition plan_of (domain : Domain) (terms : gmap string Term) (start_date end_date : Z)
  : result (Domain * gmap string Term) :=
  Ok (domain, terms).

End samples.

(** * Facts about the string methods *)

Module string_facts.

#[local] Arguments append : simpl nomatch.

Lemma str_app_nil_l s : "" +:+ s = s.
Proof. done. Qed.

Lemma str_app_nil_r s : s +:+ "" = s.
Proof. induction s as [|c s IH]; simpl; [done | by rewrite IH]. Qed.

Lemma str_app_assoc s t u : (s +:+ t) +:+ u = s +:+ (t +:+ u).
Proof. induction s as [|c s IH]; simpl; [done | by rewrite IH]. Qed.

Lemma str_forall_impl (P Q : ascii -> bool) s :
  (forall c, P c = true -> Q c = true) ->
  str_forall P s = true -> str_forall Q s = true.
Proof.
  intros HPQ. induction s as [|c s IH]; simpl; [done|].
  rewrite !andb_true_iff. intros [Hc Hs]. auto.
Qed.

Lemma str_forall_app P s t :
  str_forall P (s +:+ t) = str_forall P s && str_forall P t.
Proof. induction s as [|c s IH]; simpl; [done|]. by rewrite IH, andb_assoc. Qed.

Lemma str_contains_app c s t :
  str_contains c (s +:+ t) = str_contains c s || str_contains c t.
Proof. induction s as [|a s IH]; simpl; [done|]. by rewrite IH, orb_assoc. Qed.

Lemma str_contains_forall P c s :
  str_forall P s = true -> P c = false -> str_contains c s = false.
Proof.
  intros Hs Hc. induction s as [|a s IH]; [done|].
  cbn [str_forall str_contains] in *. apply andb_true_iff in Hs as [Ha Hs].
  rewrite IH by done. destruct (Ascii.eqb_spec a c) as [->|]; [congruence|done].
Qed.

Lemma str_replace_app s t c new :
  str_replace (s +:+ t) c new = str_replace s c new +:+ str_replace t c new.
Proof.
  induction s as [|a s IH]; [done|].
  change (String a s +:+ t) with (String a (s +:+ t)). cbn [str_replace].
  rewrite IH. destruct (Ascii.eqb a c); [by rewrite str_app_assoc | done].
Qed.

Lemma str_replace_absent s c new :
  str_contains c s = false -> str_replace s c new = s.
Proof.
  induction s as [|a s IH]; [done|]. cbn [str_replace str_contains].
  intros [Ha Hs]%orb_false_iff. by rewrite Ha, IH.
Qed.

Lemma str_contains_replace_other c c' s :
  c <> c' -> str_contains c (str_replace s c' "") = str_contains c s.
Proof.
  intros Hne. induction s as [|a s IH]; [done|]. cbn [str_replace str_contains].
  destruct (Ascii.eqb_spec a c') as [->|Ha].
  - rewrite str_app_nil_l, IH. by destruct (Ascii.eqb_spec c' c).
  - cbn [str_contains]. by rewrite IH.
Qed.

End string_facts.

(** * Properties of pipeline.py *)

Module pipeline_facts.
Import pipeline props.

Lemma maybe_convert_cases screen p :
  let p' := fst (_maybe_convert_to_prescreen screen p) in
  p' = p \/ exists prescreen, p' = install_prescreen p prescreen.
Proof.
  unfold _maybe_convert_to_prescreen.
  destruct (_term_to_prescreen_dict screen None false) as [[ps|]|e]; simpl; eauto.
  destruct screen; simpl; auto.
  case_bool_decide; simpl; auto.
  destruct (convert_terms _ _ _) as [[ps|]|e]; simpl; eauto.
Qed.

Lemma maybe_convert_at_most_one screen p :
  at_most_one_active p ->
  at_most_one_active (fst (_maybe_convert_to_prescreen screen p)).
Proof.
  intros Hp. destruct (maybe_convert_cases screen p) as [-> | [ps ->]]; [done|].
  by left.
Qed.

Lemma init_at_most_one columns screen domain p :
  Pipeline__init__ columns screen domain = Ok p -> at_most_one_active p.
Proof.
  unfold Pipeline__init__. destruct (negb _); [done|].
  destruct (validate_columns _); simpl; [|done].
  destruct screen as [s|]; simpl.
  - pose proof (maybe_convert_at_most_one s (mkPipeline (default ∅ columns) None (Some s) GENERIC)) as H.
    destruct (_maybe_convert_to_prescreen s _) as [p' [u|e]]; simpl in *; [|done].
    intros [= <-]. apply H. by right.
  - intros [= <-]. by left.
Qed.

Lemma add_screen_unchanged term name overwrite p :
  let p' := fst (add term name overwrite p) in
  _screen p' = _screen p /\ _prescreen p' = _prescreen p /\ _domain p' = _domain p.
Proof.
  unfold add, remove. destruct (validate_column name term); simpl; [|done].
  destruct (bool_decide _), overwrite, (_columns p !! name),
    (negb (isinstance_ComputableTerm term)); simpl; done.
Qed.

Lemma remove_screen_unchanged name p :
  let p' := fst (remove name p) in
  _screen p' = _screen p /\ _prescreen p' = _prescreen p /\ _domain p' = _domain p.
Proof. unfold remove. destruct (_columns p !! name); simpl; done. Qed.

Lemma set_screen_at_most_one screen overwrite p :
  at_most_one_active p -> at_most_one_active (fst (set_screen screen overwrite p)).
Proof.
  intros Hp. unfold set_screen.
  destruct (negb (isinstance_Filter screen)); [done|].
  destruct (_ && negb overwrite); [done|].
  apply maybe_convert_at_most_one. by right.
Qed.

Lemma reachable_at_most_one p : reachable p -> at_most_one_active p.
Proof.
  induction 1 as [c s d p Hinit | t n o p _ IH | n p _ IH | s o p _ IH].
  - by eapply init_at_most_one.
  - destruct (add_screen_unchanged t n o p) as (Hs & Hp & _).
    unfold at_most_one_active. rewrite Hs, Hp. exact IH.
  - destruct (remove_screen_unchanged n p) as (Hs & Hp & _).
    unfold at_most_one_active. rewrite Hs, Hp. exact IH.
  - by apply set_screen_at_most_one.
Qed.

(** C3.  Every pipeline reached by construction followed by any sequence of
    [add], [remove] and [set_screen] calls (failed calls included) has at
    most one of its screen and prescreen set.  A conversion attempt either
    leaves the pipeline as it is or installs a prescreen and clears the
    screen.  The outcome of [set_screen] does not depend on the screen or
    prescreen that was set before: whenever the call gets past its
    guards, the previous prescreen is cleared and only the new screen, or
    the prescreen converted from it, remains. *)
Theorem screen_and_prescreen_exclusive :
  (forall p, reachable p -> at_most_one_active p)
  /\ (forall screen p,
        let p' := fst (_maybe_convert_to_prescreen screen p) in
        p' = p \/ (_screen p' = None /\ is_Some (_prescreen p')))
  /\ (forall screen overwrite p p',
        set_screen screen overwrite p = (p', Ok tt) ->
        p' = fst (set_screen screen true (without_screen p))
        /\ ((_screen p' = Some screen /\ _prescreen p' = None)
            \/ (_screen p' = None /\ is_Some (_prescreen p')))).
Proof.
  split; [exact reachable_at_most_one|]. split.
  - intros screen p p'. subst p'.
    destruct (maybe_convert_cases screen p) as [-> | [ps ->]]; [by left|].
    right. simpl. eauto.
  - intros screen overwrite p p'. unfold set_screen, without_screen. simpl.
    destruct (negb (isinstance_Filter screen)); [done|].
    destruct (_ && negb overwrite); [done|]. simpl.
    intros Heq. rewrite Heq. simpl. split; [done|].
    pose proof (maybe_convert_cases screen
                  (mkPipeline (_columns p) None (Some screen) (_domain p))) as Hc.
    rewrite Heq in Hc. simpl in Hc.
    destruct Hc as [-> | [ps ->]]; simpl; eauto.
Qed.

Lemma screen_and_prescreen_exclusive_witness :
  at_most_one_active
    (fst (set_screen examples.is_stock false
            (fst (add examples.is_etf "etf" false examples.one_column)))).
Proof.
  apply (proj1 screen_and_prescreen_exclusive).
  apply reach_set_screen, reach_add.
  apply (reach_init (Some {["sector" := ClassifierTerm examples.sector]}) None GENERIC).
  reflexivity.
Defined.

(** C4.  With the domain inferred from the output terms at hand,
    [Pipeline.domain(default)] returns [default] when the inferred and the
    explicit domain are both generic, the non-generic one when exactly one
    of them is, their common value when both are non-generic and
    identical, and raises a [ValueError] whose message names the inferred
    and the explicit domain when both are non-generic and differ. *)
Theorem domain_three_way_resolution
    (infer_domain : list Term -> result Domain) (default inferred : Domain) (p : Pipeline) :
  infer_domain (_output_terms p) = Ok inferred ->
  (inferred = GENERIC -> _domain p = GENERIC ->
     domain infer_domain default p = Ok default)
  /\ (inferred = GENERIC -> _domain p <> GENERIC ->
        domain infer_domain default p = Ok (_domain p))
  /\ (inferred <> GENERIC -> _domain p = GENERIC ->
        domain infer_domain default p = Ok inferred)
  /\ (inferred <> GENERIC -> _domain p <> GENERIC -> inferred = _domain p ->
        domain infer_domain default p = Ok inferred)
  /\ (inferred <> GENERIC -> _domain p <> GENERIC -> inferred <> _domain p ->
        domain infer_domain default p =
          Raise (mkExn ValueError
                   [Text "Conflicting domains in Pipeline. Inferred "; Arg_domain inferred;
                    Text ", but "; Arg_domain (_domain p);
                    Text " was passed at construction."])).
Proof.
  intros Hinf. unfold domain. rewrite Hinf. simpl.
  repeat split; intros; repeat (case_bool_decide; simpl); congruence.
Qed.

Lemma domain_three_way_resolution_witness :
  domain (fun _ => Ok examples.CA_EQUITIES) GENERIC
         (mkPipeline ∅ None None examples.US_EQUITIES)
  = Raise (mkExn ValueError
             [Text "Conflicting domains in Pipeline. Inferred ";
              Arg_domain examples.CA_EQUITIES;
              Text ", but "; Arg_domain examples.US_EQUITIES;
              Text " was passed at construction."])
  /\ domain (fun _ => Ok GENERIC) examples.CA_EQUITIES
            (mkPipeline ∅ None None GENERIC)
     = Ok examples.CA_EQUITIES.
Proof.
  split.
  - apply (domain_three_way_resolution (fun _ => Ok examples.CA_EQUITIES) GENERIC
             examples.CA_EQUITIES (mkPipeline ∅ None None examples.US_EQUITIES));
      [reflexivity | discriminate | discriminate | discriminate].
  - apply (domain_three_way_resolution (fun _ => Ok GENERIC) examples.CA_EQUITIES
             GENERIC (mkPipeline ∅ None None GENERIC)); reflexivity.
Defined.

Lemma add_unfold_present term name overwrite p :
  name ∈ dom (_columns p) -> ndim term <> 1 ->
  add term name overwrite p =
    if overwrite then
      if isinstance_ComputableTerm term
      then (with_columns (<[name := term]> (_columns p)) p, Ok tt)
      else (with_columns (delete name (_columns p)) p,
            Raise (mkExn TypeError
                     [Arg_term term;
                      Text " is not a valid pipeline column. Did you mean to append '.latest'?"]))
    else (p, Raise (mkExn KeyError [Text "Column '"; Arg_str name; Text "' already exists."])).
Proof.
  intros Hin Hnd. unfold add, validate_column, remove, with_columns.
  destruct (Z.eqb_spec (ndim term) 1) as [|_]; [done|].
  rewrite bool_decide_eq_true_2 by done.
  destruct (proj1 (elem_of_dom _ _) Hin) as [old Hold]. rewrite Hold.
  destruct overwrite; simpl; [|done].
  destruct (isinstance_ComputableTerm term); simpl; [|done].
  by rewrite insert_delete_eq.
Qed.

(** C5, amended.  For a name already present in the columns,
    [add(term, name, overwrite=False)] leaves the pipeline as it is and
    fails: with the duplicate-name [KeyError] when [term.ndim != 1], and
    with [UnsupportedPipelineOutput], raised by the column validation that
    runs first, when [term.ndim == 1].  [add(term, name, overwrite=True)]
    with a two-dimensional [ComputableTerm] succeeds, maps [name] to
    [term] and leaves every other entry of the mapping unchanged. *)
Theorem add_to_existing_name term name p :
  name ∈ dom (_columns p) ->
  fst (add term name false p) = p
  /\ (ndim term <> 1 ->
        snd (add term name false p) =
          Raise (mkExn KeyError [Text "Column '"; Arg_str name; Text "' already exists."]))
  /\ (ndim term = 1 ->
        snd (add term name false p) =
          Raise (mkExn UnsupportedPipelineOutput [Arg_str name; Arg_term term]))
  /\ (ndim term <> 1 -> isinstance_ComputableTerm term = true ->
        snd (add term name true p) = Ok tt
        /\ fst (add term name true p) = with_columns (<[name := term]> (_columns p)) p
        /\ _columns (fst (add term name true p)) !! name = Some term
        /\ forall other, other <> name ->
             _columns (fst (add term name true p)) !! other = _columns p !! other).
Proof.
  intros Hin. split; [|split; [|split]].
  - unfold add, validate_column. destruct (ndim term =? 1); [done|].
    by rewrite bool_decide_eq_true_2 by done.
  - intros Hnd. by rewrite add_unfold_present.
  - intros Hnd. unfold add, validate_column. by rewrite Hnd.
  - intros Hnd Hct. rewrite add_unfold_present, Hct by done. simpl.
    split; [done|]. split; [done|]. split.
    + apply lookup_insert_eq.
    + intros other Hne. by apply lookup_insert_ne.
Qed.

Lemma add_to_existing_name_witness :
  snd (add examples.is_etf "sector" false examples.two_columns)
  = Raise (mkExn KeyError [Text "Column '"; Arg_str "sector"; Text "' already exists."])
  /\ _columns (fst (add examples.is_etf "sector" true examples.two_columns)) !! "stock"
     = Some examples.is_stock.
Proof.
  assert (Hin : "sector" ∈ dom (_columns examples.two_columns))
    by (apply elem_of_dom; eexists; reflexivity).
  destruct (add_to_existing_name examples.is_etf "sector" examples.two_columns Hin)
    as (_ & Hdup & _ & Hrepl).
  split.
  - apply Hdup. discriminate.
  - destruct Hrepl as (_ & _ & _ & Hother); [discriminate | reflexivity |].
    rewrite Hother; [reflexivity | discriminate].
Defined.

(** C5 as stated fails for a one-dimensional term: the name is present
    and [overwrite] is false, yet the error is the unsupported-output
    error of the column validation, not the duplicate-name error. *)
Lemma add_existing_name_one_dimensional :
  "sector" ∈ dom (_columns examples.one_column)
  /\ ndim examples.one_dimensional = 1
  /\ add examples.one_dimensional "sector" false examples.one_column
     = (examples.one_column,
        Raise (mkExn UnsupportedPipelineOutput
                 [Arg_str "sector"; Arg_term examples.one_dimensional])).
Proof.
  split; [apply elem_of_dom; eexists; reflexivity|].
  split; reflexivity.
Qed.

(** C10.  When [name] is present and [add(term, name, overwrite=True)] is
    called with a term that passes the dimension check but is not a
    [ComputableTerm], the call raises the [TypeError] after the existing
    column has been removed: the pipeline left behind has no column
    [name], and is otherwise unchanged. *)
Theorem add_overwrite_failure_removes_column term name p :
  name ∈ dom (_columns p) ->
  ndim term <> 1 ->
  isinstance_ComputableTerm term = false ->
  snd (add term name true p) =
    Raise (mkExn TypeError
             [Arg_term term;
              Text " is not a valid pipeline column. Did you mean to append '.latest'?"])
  /\ fst (add term name true p) = with_columns (delete name (_columns p)) p
  /\ _columns (fst (add term name true p)) !! name = None
  /\ name ∉ dom (_columns (fst (add term name true p))).
Proof.
  intros Hin Hnd Hnc. rewrite add_unfold_present, Hnc by done. simpl.
  repeat split.
  - apply lookup_delete_eq.
  - apply not_elem_of_dom, lookup_delete_eq.
Qed.

Lemma add_overwrite_failure_removes_column_witness :
  _columns (fst (add examples.not_computable "sector" true examples.two_columns)) !! "sector"
  = None
  /\ is_Some (_columns examples.two_columns !! "sector").
Proof.
  split.
  - apply (add_overwrite_failure_removes_column examples.not_computable "sector"
             examples.two_columns).
    + apply elem_of_dom; eexists; reflexivity.
    + discriminate.
    + reflexivity.
  - eexists; reflexivity.
Defined.

End pipeline_facts.

(** * Properties of classifier.py *)

Module classifier_facts.
Import classifier.

(** C7.  For every classifier, whatever its dtype, and every value equal
    (by Python's [==]) to its missing value, [eq] raises a [ValueError] and
    so returns no filter. *)
Theorem eq_missing_value_raises (self : Classifier) (other : pyvalue) :
  py_eq other (missing_value self) = true ->
  eq other self =
    Raise (mkExn ValueError
             [Text "Comparison against self.missing_value ("; Arg_value other;
              Text ") in "; Arg_typename_of_term self; Text ".eq().
Missing values have NaN semantics, so the requested comparison would always produce False.
Use the isnull() method to check for missing values."])
  /\ (forall filter, eq other self <> Ok filter)
  /\ exists e, eq other self = Raise e /\ exn_class e = ValueError.
Proof.
  intros Heq. unfold eq. rewrite Heq. split; [done|]. split; [done|]. eauto.
Qed.

Lemma eq_missing_value_raises_witness :
  (exists e, eq (PyInt (-1)) examples.sector = Raise e /\ exn_class e = ValueError)
  /\ (exists e, eq PyNone examples.SecType_latest = Raise e /\ exn_class e = ValueError).
Proof.
  split.
  - apply (eq_missing_value_raises examples.sector (PyInt (-1))). reflexivity.
  - apply (eq_missing_value_raises examples.SecType_latest PyNone). reflexivity.
Defined.

(** C6.  [shift(periods)] builds a node whose window length is
    [periods + 1], for every integer [periods]; [shift(periods=1)] gives
    window length 2.  Construction checks nothing: [shift(periods=0)]
    returns a node, of window length 1, and validating that node raises
    the [ValueError] whose message quotes the window length 1, once the
    base classes' validation has let the node through. *)
Theorem shift_window_length
    (default_missing_value : DType -> pyvalue) (self : Classifier)
    (periods : Z) (mask : option Term) :
  (exists node,
     shift default_missing_value periods mask self = Ok node
     /\ window_length node = periods + 1
     /\ cls node = Shift
     /\ inputs node = [ClassifierTerm self])
  /\ (exists node,
        shift default_missing_value 1 mask self = Ok node /\ window_length node = 2)
  /\ (exists node,
        shift default_missing_value 0 mask self = Ok node
        /\ window_length node = 1
        /\ forall base_validate FACTOR_DTYPES FILTER_DTYPES,
             base_validate node = Ok tt ->
             Shift_validate base_validate FACTOR_DTYPES FILTER_DTYPES node =
               Raise (mkExn ValueError
                        [Text "'Shift' expected a window lengthof at least 2, but was given ";
                         Arg_int 1;
                         Text ". To shift one period, use a window length of 2."])).
Proof.
  split; [|split]; eexists; (split; [reflexivity|]).
  - done.
  - done.
  - split; [done|]. intros base_validate F1 F2 Hbase.
    unfold Shift_validate, CustomClassifier_validate. by rewrite Hbase.
Qed.

Lemma shift_window_length_witness :
  exists node,
    shift (fun _ => PyNone) 0 None examples.SecType_latest = Ok node
    /\ Shift_validate (fun _ => Ok tt) [float64_dtype] [bool_dtype] node =
         Raise (mkExn ValueError
                  [Text "'Shift' expected a window lengthof at least 2, but was given ";
                   Arg_int 1;
                   Text ". To shift one period, use a window length of 2."]).
Proof.
  destruct (shift_window_length (fun _ => PyNone) examples.SecType_latest 0 None)
    as (_ & _ & node & Hnode & _ & Hval).
  exists node. split; [exact Hnode|].
  apply Hval. reflexivity.
Defined.

End classifier_facts.

(** * Properties of the evaluation model *)

Module engine_facts.
Import engine.

Lemma grid_get_map {A B} (f : A -> B) (g : grid A) i j :
  grid_get (grid_map f g) i j = f <$> grid_get g i j.
Proof.
  unfold grid_get, grid_map. rewrite list_lookup_fmap.
  destruct (g !! i) as [row|]; simpl; [apply list_lookup_fmap | done].
Qed.

Lemma grid_get_zip_with {A B C} (f : A -> B -> C) (g : grid A) (h : grid B) i j :
  grid_get (grid_zip_with f g h) i j =
    match grid_get g i j, grid_get h i j with
    | Some a, Some b => Some (f a b)
    | _, _ => None
    end.
Proof.
  unfold grid_get, grid_zip_with. rewrite lookup_zip_with.
  destruct (g !! i) as [row|]; simpl; [|done].
  destruct (h !! i) as [row'|]; simpl.
  - rewrite lookup_zip_with. destruct (row !! j); simpl; [|done].
    by destruct (row' !! j).
  - by destruct (row !! j).
Qed.

Lemma label_of_cons c cats k :
  0 <= k -> label_of (c :: cats) (k + 1) = label_of cats k.
Proof.
  intros Hk. unfold label_of.
  destruct (Z.ltb_spec (k + 1) 0); [lia|]. destruct (Z.ltb_spec k 0); [lia|].
  replace (Z.to_nat (k + 1)) with (S (Z.to_nat k)) by lia. done.
Qed.

Lemma code_of_elem cats label :
  label ∈ cats -> 0 <= code_of cats label /\ label_of cats (code_of cats label) = Some label.
Proof.
  induction cats as [|c cats IH]; intros Hin; [by apply elem_of_nil in Hin|].
  simpl. destruct (String.eqb_spec c label) as [->|Hne].
  - split; [lia | done].
  - apply elem_of_cons in Hin as [->|Hin]; [done|].
    destruct (IH Hin) as [Hk Hl].
    destruct (Z.ltb_spec (code_of cats label) 0); [lia|].
    split; [lia|]. by rewrite label_of_cons.
Qed.

Lemma elem_of_distinct l x : x ∈ distinct l <-> x ∈ l.
Proof.
  induction l as [|y l IH]; simpl; [done|].
  rewrite !elem_of_cons, list_elem_of_filter, IH.
  destruct (decide (x = y)); naive_solver.
Qed.

Lemma NoDup_distinct l : NoDup (distinct l).
Proof.
  induction l as [|y l IH]; simpl; constructor.
  - rewrite list_elem_of_filter. naive_solver.
  - by apply NoDup_filter.
Qed.

(** The label of a cell after [LabelArray.map(f)]: [f] of its label, and
    missing if the cell was missing or [f] returned [None]. *)
Lemma LabelArray_map_label f la code :
  let out := fst (LabelArray_map f la) in
  exists code',
    (fun c => if c <? 0 then missing_code
              else match (f <$> categories la) !! Z.to_nat c with
                   | Some (Some label) => code_of (categories out) label
                   | _ => missing_code
                   end) code = code'
    /\ label_of (categories out) code' = label_of (categories la) code ≫= f.
Proof.
  simpl. eexists; split; [reflexivity|].
  unfold label_of at 2. destruct (Z.ltb_spec code 0) as [Hneg|Hpos]; [done|].
  rewrite list_lookup_fmap.
  destruct (categories la !! Z.to_nat code) as [c|] eqn:Hc; simpl; [|done].
  destruct (f c) as [label|] eqn:Hf; [|done].
  apply code_of_elem, elem_of_distinct, list_elem_of_omap.
  exists (Some label). split; [|done].
  apply list_elem_of_fmap. exists c. split; [done|].
  by eapply list_elem_of_lookup_2.
Qed.

End engine_facts.

(** * Relabelling *)

Module relabel_facts.
Import classifier engine engine_facts.

Lemma relabel_not_categorical dmv relabeler (self : Classifier) :
  dtype self <> categorical_dtype ->
  relabel dmv relabeler self =
    Raise (mkExn TypeError
             [Arg_str "relabel";
              Text "() is only defined on Classifiers producing strings but it was called on a Classifier of dtype ";
              Arg_dtype (dtype self); Text "."])
  /\ Relabel__new__ dmv self relabeler =
       Raise (mkExn TypeError
                [Text "term should have dtype "; Arg_dtype categorical_dtype;
                 Text " but has "; Arg_dtype (dtype self)]).
Proof.
  intros Hd. unfold relabel, string_classifiers_only, Relabel__new__.
  rewrite bool_decide_eq_false_2, bool_decide_eq_true_2 by done. done.
Qed.

Lemma Relabel_compute_labels (node : Classifier) relabeler data mask :
  cls node = Relabel relabeler ->
  Relabel_compute node [Labels data] mask =
    Ok (mkLabelArray (categories (fst (LabelArray_map relabeler data)))
          (grid_zip_with (fun code (m : bool) => if m then code else missing_code)
             (codes (fst (LabelArray_map relabeler data))) mask),
        categories data).
Proof. intros Hcls. unfold Relabel_compute. by rewrite Hcls. Qed.

Lemma filter_absent (label : string) (calls : list string) :
  label ∉ calls -> filter (fun call => call = label) calls = [].
Proof.
  induction calls as [|c calls IH]; intros Hnin; [done|].
  rewrite filter_cons. apply not_elem_of_cons in Hnin as [Hne Hnin].
  rewrite decide_False by done. by apply IH.
Qed.

Lemma called_once (label : string) (calls : list string) :
  NoDup calls -> label ∈ calls ->
  length (filter (fun call => call = label) calls) = 1%nat.
Proof.
  induction 1 as [|c calls Hc Hnd IH]; intros Hin; [by apply elem_of_nil in Hin|].
  rewrite filter_cons. destruct (decide (c = label)) as [->|Hne].
  - simpl. by rewrite filter_absent.
  - apply elem_of_cons in Hin as [->|Hin]; [done|]. by apply IH.
Qed.

(** C8, amended.  On a classifier whose dtype is not categorical (an
    integer-coded one in particular) [relabel] fails at the call with a
    [TypeError] that names the method and the dtype received, and so does
    the constructor of [Relabel] by itself; no node is built.  The "not
    implemented" error belongs to [Relabel._compute] and is raised when
    the computed input is not a coded string array.  On a categorical
    classifier [relabel] returns a [Relabel] node over it; computing the
    node on a coded string array calls the relabeler on the categories of
    the table, once each and whatever the number of cells; the new table
    has distinct categories; every cell that the mask keeps carries the
    relabeler's result for its old label, and a cell that was missing, or
    that the mask hides, is missing. *)
Theorem relabel_by_dtype
    (default_missing_value : DType -> pyvalue)
    (relabeler : string -> option string) (self : Classifier) :
  (dtype self <> categorical_dtype ->
     exists e,
       relabel default_missing_value relabeler self = Raise e
       /\ exn_class e = TypeError
       /\ exn_message e =
            [Arg_str "relabel";
             Text "() is only defined on Classifiers producing strings but it was called on a Classifier of dtype ";
             Arg_dtype (dtype self); Text "."]
       /\ exists e', Relabel__new__ default_missing_value self relabeler = Raise e'
                     /\ exn_class e' = TypeError)
  /\ (dtype self = categorical_dtype ->
        exists node,
          relabel default_missing_value relabeler self = Ok node
          /\ cls node = Relabel relabeler
          /\ inputs node = [ClassifierTerm self]
          /\ (forall values mask,
                Relabel_compute node [IntArray values] mask =
                  Raise (mkExn NotImplementedError
                           [Text "Relabeling is not currently supported for int-dtype classifiers."]))
          /\ forall data mask,
               exists out,
                 Relabel_compute node [Labels data] mask = Ok (out, categories data)
                 /\ (NoDup (categories data) ->
                       forall label, label ∈ categories data ->
                         length (filter (fun call => call = label) (categories data)) = 1%nat)
                 /\ NoDup (categories out)
                 /\ forall i j code (m : bool),
                      grid_get (codes data) i j = Some code ->
                      grid_get mask i j = Some m ->
                      exists code',
                        grid_get (codes out) i j = Some code'
                        /\ label_of (categories out) code' =
                             if m then label_of (categories data) code ≫= relabeler
                             else None).
Proof.
  split.
  - intros Hd. destruct (relabel_not_categorical default_missing_value relabeler self Hd)
      as [Hr Hn].
    rewrite Hr, Hn. eexists; repeat split; eauto.
  - intros Hd. unfold relabel, string_classifiers_only, Relabel__new__.
    rewrite bool_decide_eq_true_2, bool_decide_eq_false_2 by (by rewrite ?Hd; auto).
    eexists; split; [reflexivity|]. split; [done|]. split; [done|]. split; [done|].
    intros data mask. eexists; split; [by apply Relabel_compute_labels|].
    simpl. split; [|split].
    + intros Hnd label Hin. by apply called_once.
    + apply NoDup_distinct.
    + intros i j code m Hcode Hm.
      rewrite grid_get_zip_with, grid_get_map, Hcode, Hm. simpl.
      eexists; split; [reflexivity|].
      destruct m; [|done].
      destruct (LabelArray_map_label relabeler data code) as (code' & <- & Hl).
      exact Hl.
Qed.

Lemma relabel_by_dtype_witness :
  (exists e, relabel (fun _ => PyNone) examples.merge_labels examples.sector = Raise e
             /\ exn_class e = TypeError)
  /\ (exists node,
        relabel (fun _ => PyNone) examples.merge_labels examples.SecType_latest = Ok node
        /\ exists out,
             Relabel_compute node [Labels examples.labels] examples.mask_one_hidden
             = Ok (out, ["STK"; "FUT"; "CASH"])).
Proof.
  destruct (relabel_by_dtype (fun _ => PyNone) examples.merge_labels examples.sector)
    as [Hint _].
  destruct (relabel_by_dtype (fun _ => PyNone) examples.merge_labels examples.SecType_latest)
    as [_ Hcat].
  split.
  - destruct Hint as (e & He & Hc & _); [discriminate|]. by exists e.
  - destruct Hcat as (node & Hnode & _ & _ & _ & Hcomp); [reflexivity|].
    exists node. split; [exact Hnode|].
    destruct (Hcomp examples.labels examples.mask_one_hidden) as (out & Hout & _).
    by exists out.
Defined.

(** C8 as stated fails on an integer-coded classifier: [relabel] raises a
    [TypeError] about the dtype, not a "not implemented" error. *)
Lemma relabel_int_classifier_type_error :
  dtype examples.sector = int64_dtype
  /\ relabel (fun _ => PyNone) examples.merge_labels examples.sector =
       Raise (mkExn TypeError
                [Arg_str "relabel";
                 Text "() is only defined on Classifiers producing strings but it was called on a Classifier of dtype ";
                 Arg_dtype int64_dtype; Text "."])
  /\ Relabel__new__ (fun _ => PyNone) examples.sector examples.merge_labels =
       Raise (mkExn TypeError
                [Text "term should have dtype "; Arg_dtype categorical_dtype;
                 Text " but has "; Arg_dtype int64_dtype]).
Proof. repeat split. Qed.

End relabel_facts.

(** * Membership and equality filters *)

Module isin_facts.
Import classifier engine engine_facts props string_facts.

#[local] Arguments append : simpl nomatch.

Lemma decimal_char_word c : decimal_char c = true -> word_char c = true.
Proof.
  destruct c as [[] [] [] [] [] [] [] []]; vm_compute; congruence.
Qed.

Lemma lex_step c rest w :
  word_char c = true -> lex (String c rest) w = lex rest (w +:+ String c "").
Proof.
  destruct c as [[] [] [] [] [] [] [] []]; intros Hc;
    first [discriminate Hc | reflexivity].
Qed.

Lemma uint_chars d : str_forall decimal_char (NilEmpty.string_of_uint d) = true.
Proof. induction d; simpl; auto. Qed.

Lemma Z_to_string_chars k : str_forall decimal_char (Z_to_string k) = true.
Proof. unfold Z_to_string. destruct k; simpl; auto using uint_chars. Qed.

Lemma Z_to_string_nonempty k : Z_to_string k <> "".
Proof.
  destruct k as [|p|p]; simpl; [done| |done].
  unfold Z_to_string. simpl.
  pose proof (DecimalPos.Unsigned.to_uint_nonnil p) as Hnil.
  destruct (Pos.to_uint p); simpl; done.
Qed.

(** A run of word characters is read into the current word. *)
Lemma lex_word s rest w :
  str_forall word_char s = true ->
  lex (s +:+ rest) w = lex rest (w +:+ s).
Proof.
  revert w. induction s as [|c s IH]; intros w.
  - intros _. by rewrite str_app_nil_r.
  - cbn [str_forall]. rewrite andb_true_iff. intros [Hc Hs].
    change (String c s +:+ rest) with (String c (s +:+ rest)).
    rewrite lex_step, IH, str_app_assoc by done. done.
Qed.

Lemma classify_decimal k : classify (Z_to_string k) = T_int k.
Proof.
  pose proof (Z_to_string_chars k) as Hc. unfold classify.
  destruct (String.eqb_spec (Z_to_string k) "&") as [E|_]; [by rewrite E in Hc|].
  destruct (String.eqb_spec (Z_to_string k) "|") as [E|_]; [by rewrite E in Hc|].
  destruct (String.eqb_spec (Z_to_string k) "==") as [E|_]; [by rewrite E in Hc|].
  destruct (String.eqb_spec (Z_to_string k) "!=") as [E|_]; [by rewrite E in Hc|].
  assert (String.prefix "x_" (Z_to_string k) = false) as ->.
  { destruct (Z_to_string k) as [|ch digits]; [done|].
    destruct ch as [[] [] [] [] [] [] [] []];
      first [reflexivity | vm_compute in Hc; discriminate Hc]. }
  unfold Z_to_string. by rewrite NilEmpty.isi, DecimalZ.of_to.
Qed.

Lemma lex_equality k :
  lex ("x_0 == " +:+ Z_to_string k) "" = [T_var "x_0"; T_eq; T_int k].
Proof.
  simpl. rewrite <- (str_app_nil_r (Z_to_string k)) at 1.
  rewrite lex_word
    by (eapply str_forall_impl; [apply decimal_char_word | apply Z_to_string_chars]).
  simpl. unfold flush.
  destruct (String.eqb_spec (Z_to_string k) "") as [E|_];
    [by apply Z_to_string_nonempty in E|].
  by rewrite classify_decimal.
Qed.

Lemma parse_equality k :
  parse ("x_0 == " +:+ Z_to_string k) = Some (N_eq (N_var "x_0") (N_int k)).
Proof. unfold parse. rewrite lex_equality. reflexivity. Qed.

(** The expression that [eq] builds for an integer compares each cell
    with that integer. *)
Lemma numexpr_equality k x :
  numexpr_evaluate ("x_0 == " +:+ Z_to_string k) {["x_0" := NInt x]} = Ok (x =? k).
Proof.
  unfold numexpr_evaluate. rewrite parse_equality. simpl.
  by rewrite lookup_singleton_eq.
Qed.

Lemma traverse_total {A B} (f : A -> result B) (h : A -> B) (l : list A) :
  (forall x, f x = Ok (h x)) -> traverse f l = Ok (h <$> l).
Proof.
  intros Hf. induction l as [|x l IH]; simpl; [done|].
  by rewrite Hf, IH.
Qed.

Lemma grid_traverse_total {A B} (f : A -> result B) (h : A -> B) (g : grid A) :
  (forall x, f x = Ok (h x)) -> grid_traverse f g = Ok (grid_map h g).
Proof.
  intros Hf. unfold grid_traverse, grid_map.
  apply traverse_total. intros row. by apply traverse_total.
Qed.

Lemma map_predicate_get p la i j :
  grid_get (map_predicate p la) i j =
    (fun code => match label_of (categories la) code with
                 | Some label => p label
                 | None => false
                 end) <$> grid_get (codes la) i j.
Proof.
  unfold map_predicate. rewrite grid_get_map.
  destruct (grid_get (codes la) i j) as [code|]; simpl; [|done].
  f_equal. unfold label_of. destruct (code <? 0); [done|].
  rewrite list_lookup_fmap. by destruct (categories la !! Z.to_nat code).
Qed.

(** Python's [==] on integers and booleans compares their integer values;
    on strings it compares the strings. *)
Lemma py_eq_int_like a b :
  isinstance_int a = true -> isinstance_int b = true ->
  py_eq a b = (py_int a =? py_int b).
Proof. destruct a as [|[]| | | |], b as [|[]| | | |]; simpl; done. Qed.

Lemma py_eq_int_class a b :
  isinstance_int a = true -> py_eq a b = true -> isinstance_int b = true.
Proof. destruct a, b; simpl; done. Qed.

Lemma py_eq_str_class a b :
  isinstance_str a = true -> py_eq a b = true -> isinstance_str b = true.
Proof. destruct a, b; simpl; done. Qed.

Lemma py_eq_sym_scalar a b :
  isinstance_int a = true \/ isinstance_str a = true -> py_eq a b = py_eq b a.
Proof.
  intros [Ha|Ha]; destruct a as [|[]| | | |], b as [|[]| | | |];
    cbn [py_eq isinstance_int isinstance_str] in *;
    try done; first [apply Z.eqb_sym | apply String.eqb_sym].
Qed.

Lemma py_eq_trans_scalar a b c :
  isinstance_int a = true \/ isinstance_str a = true ->
  py_eq a b = true -> py_eq b c = true -> py_eq a c = true.
Proof.
  intros [Ha|Ha] Hab Hbc.
  - pose proof (py_eq_int_class _ _ Ha Hab) as Hb.
    pose proof (py_eq_int_class _ _ Hb Hbc) as Hc.
    rewrite py_eq_int_like in * by done. lia.
  - destruct a, b, c; simpl in *; try done.
    apply String.eqb_eq in Hab, Hbc. apply String.eqb_eq. congruence.
Qed.

Lemma py_in_remove_equal_sub x y l :
  py_in x (remove_equal y l) = true -> py_in x l = true.
Proof.
  unfold py_in. induction l as [|z l IH]; simpl; [done|].
  destruct (py_eq z y); simpl.
  - intros H. rewrite IH by done. apply orb_true_r.
  - destruct (py_eq x z); simpl; [done | exact IH].
Qed.

Lemma py_in_dedup_sub x l : py_in x (dedup l) = true -> py_in x l = true.
Proof.
  induction l as [|y l IH]; [done|]. cbn [dedup].
  unfold py_in in *. cbn [existsb].
  destruct (py_eq x y); simpl; [done|].
  intros H. by apply IH, (py_in_remove_equal_sub x y).
Qed.

Lemma py_in_remove_equal x y l :
  isinstance_int x = true \/ isinstance_str x = true ->
  py_eq x y = false -> py_in x (remove_equal y l) = py_in x l.
Proof.
  intros Hx Hxy. unfold py_in. induction l as [|z l IH]; [done|].
  cbn [remove_equal existsb]. destruct (py_eq z y) eqn:Hzy; cbn [existsb].
  - rewrite IH. destruct (py_eq x z) eqn:Hxz; [|done].
    rewrite (py_eq_trans_scalar x z y) in Hxy by done. done.
  - by rewrite IH.
Qed.

Lemma py_in_dedup x l :
  isinstance_int x = true \/ isinstance_str x = true ->
  py_in x (dedup l) = py_in x l.
Proof.
  intros Hx. induction l as [|y l IH]; [done|]. cbn [dedup].
  unfold py_in in *. cbn [existsb].
  destruct (py_eq x y) eqn:Hxy; [done|]. simpl.
  fold (py_in x (remove_equal y (dedup l))).
  by rewrite py_in_remove_equal.
Qed.

Lemma forallb_remove_equal (C : pyvalue -> bool) y l :
  forallb C l = true -> forallb C (remove_equal y l) = true.
Proof.
  induction l as [|z l IH]; simpl; [done|]. rewrite andb_true_iff. intros [Hz Hl].
  destruct (py_eq z y); simpl; [auto|]. rewrite Hz. auto.
Qed.

Lemma forallb_dedup (C : pyvalue -> bool) l :
  forallb C l = true -> forallb C (dedup l) = true.
Proof.
  induction l as [|y l IH]; simpl; [done|]. rewrite andb_true_iff. intros [Hy Hl].
  rewrite Hy. simpl. auto using forallb_remove_equal.
Qed.

Lemma py_in_true x l : py_in x l = true <-> exists v, v ∈ l /\ py_eq x v = true.
Proof.
  unfold py_in. rewrite existsb_exists.
  split; intros (v & Hv & Heq); exists v; split; auto; by apply list_elem_of_In.
Qed.

Lemma forallb_elem (C : pyvalue -> bool) l v :
  forallb C l = true -> v ∈ l -> C v = true.
Proof.
  intros Hall Hv. apply list_elem_of_In in Hv.
  by apply (proj1 (forallb_forall C l) Hall).
Qed.

Lemma py_frozenset_scalars choices items :
  choices = PyList items \/ choices = PyFrozenset items ->
  forallb hashable items = true ->
  py_frozenset choices = Ok (dedup items).
Proof. intros [->| ->] Hh; unfold py_frozenset; simpl; by rewrite Hh. Qed.

Lemma hashable_scalars items :
  forallb isinstance_int items = true \/ forallb isinstance_str items = true ->
  forallb hashable items = true.
Proof.
  intros H. apply forallb_forall. intros v Hv.
  destruct H as [H|H]; apply (proj1 (forallb_forall _ _) H) in Hv; by destruct v.
Qed.

Lemma eq_int_filter (self : Classifier) v :
  dtype self = int64_dtype -> isinstance_int v = true ->
  py_eq v (missing_value self) = false ->
  eq v self =
    Ok (NumExprFilter_create ("x_0 == " +:+ Z_to_string (py_int v)) [ClassifierTerm self]).
Proof.
  intros Hd Hv Hm. unfold eq. rewrite Hm.
  replace (isinstance_Number v) with true by (by destruct v).
  by rewrite bool_decide_eq_true_2.
Qed.

Lemma eq_str_filter (self : Classifier) v :
  dtype self = categorical_dtype -> isinstance_str v = true ->
  py_eq v (missing_value self) = false ->
  eq v self = Ok (ArrayPredicate [ClassifierTerm self] "eq" [v]).
Proof.
  intros Hd Hv Hm. unfold eq. rewrite Hm.
  replace (isinstance_Number v) with false by (by destruct v).
  by rewrite bool_decide_eq_false_2 by (by rewrite Hd).
Qed.

Lemma isin_int_filter (self : Classifier) choices items :
  dtype self = int64_dtype ->
  choices = PyList items \/ choices = PyFrozenset items ->
  forallb isinstance_int items = true ->
  py_in (missing_value self) items = false ->
  isin choices self =
    Ok (ArrayPredicate [ClassifierTerm self] "vectorized_is_element"
          [PyFrozenset (dedup items)]).
Proof.
  intros Hd Hch Hty Hm. unfold isin.
  rewrite (py_frozenset_scalars choices items) by auto using hashable_scalars.
  destruct (py_in (missing_value self) (dedup items)) eqn:Hin;
    [apply py_in_dedup_sub in Hin; congruence|].
  by rewrite bool_decide_eq_true_2, forallb_dedup.
Qed.

Lemma isin_str_filter (self : Classifier) choices items :
  dtype self = categorical_dtype ->
  choices = PyList items \/ choices = PyFrozenset items ->
  forallb isinstance_str items = true ->
  py_in (missing_value self) items = false ->
  isin choices self =
    Ok (ArrayPredicate [ClassifierTerm self] "isin" [PyFrozenset (dedup items)]).
Proof.
  intros Hd Hch Hty Hm. unfold isin.
  rewrite (py_frozenset_scalars choices items) by auto using hashable_scalars.
  destruct (py_in (missing_value self) (dedup items)) eqn:Hin;
    [apply py_in_dedup_sub in Hin; congruence|].
  rewrite bool_decide_eq_false_2 by (by rewrite Hd).
  by rewrite bool_decide_eq_true_2, forallb_dedup.
Qed.

Lemma cell_is_element ins cs values mask i j :
  filter_cell (ArrayPredicate ins "vectorized_is_element" [PyFrozenset cs])
              (IntArray values) mask i j =
    match grid_get values i j, grid_get mask i j with
    | Some x, Some m => Some (py_in (PyInt x) cs && m)
    | _, _ => None
    end.
Proof.
  unfold filter_cell. simpl. rewrite grid_get_zip_with, grid_get_map.
  by destruct (grid_get values i j).
Qed.

Lemma cell_int_equality k bs values mask i j :
  filter_cell (NumExprFilter ("x_0 == " +:+ Z_to_string k) bs)
              (IntArray values) mask i j =
    match grid_get values i j, grid_get mask i j with
    | Some x, Some m => Some ((x =? k) && m)
    | _, _ => None
    end.
Proof.
  unfold filter_cell, Filter_compute. cbn [getitem0 mbind result_bind].
  rewrite (grid_traverse_total _ (fun x => x =? k)) by apply numexpr_equality.
  cbn [mbind result_bind]. rewrite grid_get_zip_with, grid_get_map.
  by destruct (grid_get values i j).
Qed.

Lemma cell_label_isin ins cs la mask i j :
  filter_cell (ArrayPredicate ins "isin" [PyFrozenset cs]) (Labels la) mask i j =
    match grid_get (codes la) i j, grid_get mask i j with
    | Some code, Some m =>
        Some (match label_of (categories la) code with
              | Some label => py_in (PyStr label) cs
              | None => false
              end && m)
    | _, _ => None
    end.
Proof.
  unfold filter_cell. simpl. rewrite grid_get_zip_with, map_predicate_get.
  by destruct (grid_get (codes la) i j).
Qed.

Lemma cell_label_eq ins v la mask i j :
  filter_cell (ArrayPredicate ins "eq" [v]) (Labels la) mask i j =
    match grid_get (codes la) i j, grid_get mask i j with
    | Some code, Some m =>
        Some (match label_of (categories la) code with
              | Some label => py_eq (PyStr label) v
              | None => false
              end && m)
    | _, _ => None
    end.
Proof.
  unfold filter_cell. simpl. rewrite grid_get_zip_with, map_predicate_get.
  by destruct (grid_get (codes la) i j).
Qed.

Lemma not_missing_choice (mv v : pyvalue) items :
  isinstance_int v = true \/ isinstance_str v = true ->
  py_in mv items = false -> v ∈ items -> py_eq v mv = false.
Proof.
  intros Hv Hm Hin. rewrite py_eq_sym_scalar by done.
  destruct (py_eq mv v) eqn:E; [|done].
  assert (py_in mv items = true) by (apply py_in_true; eauto). congruence.
Qed.

Lemma isin_int_cells (self : Classifier) choices items values mask :
  dtype self = int64_dtype ->
  choices = PyList items \/ choices = PyFrozenset items ->
  forallb isinstance_int items = true ->
  py_in (missing_value self) items = false ->
  exists f,
    isin choices self = Ok f
    /\ (forall v, v ∈ items -> exists f_v, eq v self = Ok f_v)
    /\ forall i j,
         is_Some (cell_missing (missing_value self) (IntArray values) i j) ->
         is_Some (grid_get mask i j) ->
         exists b,
           filter_cell f (IntArray values) mask i j = Some b
           /\ (forall v f_v, v ∈ items -> eq v self = Ok f_v ->
                 is_Some (filter_cell f_v (IntArray values) mask i j))
           /\ (b = true <->
                 exists v f_v, v ∈ items /\ eq v self = Ok f_v
                               /\ filter_cell f_v (IntArray values) mask i j = Some true)
           /\ (cell_missing (missing_value self) (IntArray values) i j = Some true ->
                 b = false).
Proof.
  intros Hd Hch Hty Hm.
  assert (Heq : forall v, v ∈ items ->
            eq v self = Ok (NumExprFilter_create
                              ("x_0 == " +:+ Z_to_string (py_int v)) [ClassifierTerm self])).
  { intros v Hv. apply eq_int_filter; [done|by eapply forallb_elem|].
    eapply not_missing_choice; [left; by eapply forallb_elem|done..]. }
  eexists. split; [by apply isin_int_filter|]. split; [by eauto|].
  intros i j [bm Hbm] [m Hmask]. simpl in Hbm.
  destruct (grid_get values i j) as [x|] eqn:Hx; [|done].
  exists (py_in (PyInt x) (dedup items) && m).
  rewrite cell_is_element, Hx, Hmask. split; [done|].
  assert (Hcell : forall v, v ∈ items ->
            filter_cell (NumExprFilter_create
                           ("x_0 == " +:+ Z_to_string (py_int v)) [ClassifierTerm self])
                        (IntArray values) mask i j
            = Some (py_eq (PyInt x) v && m)).
  { intros v Hv. unfold NumExprFilter_create.
    rewrite cell_int_equality, Hx, Hmask, py_eq_int_like; [done|done|].
    by eapply forallb_elem. }
  split; [|split].
  - intros v f_v Hv Hf. rewrite Heq in Hf by done.
    assert (Ok_inj : forall t u : Term, Ok t = Ok u -> t = u) by congruence.
    apply Ok_inj in Hf as <-.
    rewrite Hcell by done. eauto.
  - rewrite andb_true_iff, py_in_dedup, py_in_true by auto. split.
    + intros [(v & Hv & Hxv) ->]. exists v. eexists. split; [done|].
      split; [by apply Heq|]. by rewrite Hcell, Hxv.
    + intros (v & f_v & Hv & Hf & Hc). rewrite Heq in Hf by done.
      assert (Ok_inj : forall t u : Term, Ok t = Ok u -> t = u) by congruence.
      apply Ok_inj in Hf as <-.
      rewrite Hcell in Hc by done. injection Hc as Hc.
      apply andb_true_iff in Hc as [Hxv ->]. eauto.
  - simpl. rewrite Hx. simpl. intros [= Hmiss].
    rewrite py_in_dedup by auto.
    destruct (py_in (PyInt x) items) eqn:Hin; [|done].
    apply py_in_true in Hin as (v & Hv & Hxv).
    assert (py_in (missing_value self) items = true); [|congruence].
    apply py_in_true. exists v. split; [done|].
    pose proof (py_eq_int_class (PyInt x) _ eq_refl Hmiss) as Hmv.
    eapply py_eq_trans_scalar; [by left| |exact Hxv].
    by rewrite py_eq_sym_scalar by auto.
Qed.

Lemma isin_str_cells (self : Classifier) choices items la mask :
  dtype self = categorical_dtype ->
  choices = PyList items \/ choices = PyFrozenset items ->
  forallb isinstance_str items = true ->
  py_in (missing_value self) items = false ->
  exists f,
    isin choices self = Ok f
    /\ (forall v, v ∈ items -> exists f_v, eq v self = Ok f_v)
    /\ forall i j,
         is_Some (cell_missing (missing_value self) (Labels la) i j) ->
         is_Some (grid_get mask i j) ->
         exists b,
           filter_cell f (Labels la) mask i j = Some b
           /\ (forall v f_v, v ∈ items -> eq v self = Ok f_v ->
                 is_Some (filter_cell f_v (Labels la) mask i j))
           /\ (b = true <->
                 exists v f_v, v ∈ items /\ eq v self = Ok f_v
                               /\ filter_cell f_v (Labels la) mask i j = Some true)
           /\ (cell_missing (missing_value self) (Labels la) i j = Some true ->
                 b = false).
Proof.
  intros Hd Hch Hty Hm.
  assert (Heq : forall v, v ∈ items ->
            eq v self = Ok (ArrayPredicate [ClassifierTerm self] "eq" [v])).
  { intros v Hv. apply eq_str_filter; [done|by eapply forallb_elem|].
    eapply not_missing_choice; [right; by eapply forallb_elem|done..]. }
  eexists. split; [by apply isin_str_filter|]. split; [by eauto|].
  intros i j [bm Hbm] [m Hmask]. simpl in Hbm.
  destruct (grid_get (codes la) i j) as [code|] eqn:Hcode; [|done].
  rewrite cell_label_isin, Hcode, Hmask. eexists. split; [done|].
  split; [|split].
  - intros v f_v Hv Hf. rewrite Heq in Hf by done.
    assert (Ok_inj : forall t u : Term, Ok t = Ok u -> t = u) by congruence.
    apply Ok_inj in Hf as <-.
    rewrite cell_label_eq, Hcode, Hmask. eauto.
  - rewrite andb_true_iff. split.
    + intros [Hin ->]. destruct (label_of (categories la) code) as [label|] eqn:Hl; [|done].
      rewrite py_in_dedup in Hin by auto. apply py_in_true in Hin as (v & Hv & Hlv).
      exists v. eexists. split; [done|]. split; [by apply Heq|].
      by rewrite cell_label_eq, Hcode, Hmask, Hl, Hlv.
    + intros (v & f_v & Hv & Hf & Hc). rewrite Heq in Hf by done.
      assert (Ok_inj : forall t u : Term, Ok t = Ok u -> t = u) by congruence.
      apply Ok_inj in Hf as <-.
      rewrite cell_label_eq, Hcode, Hmask in Hc. injection Hc as Hc.
      apply andb_true_iff in Hc as [Hlv ->]. split; [|done].
      destruct (label_of (categories la) code) as [label|]; [|done].
      rewrite py_in_dedup by auto. apply py_in_true. eauto.
  - simpl. rewrite Hcode. simpl. intros [= Hmiss].
    apply bool_decide_eq_true in Hmiss. by rewrite Hmiss.
Qed.

(** C9.  Let the choices be a list or a frozenset of integers for an
    integer-coded classifier, of strings for a categorical one, none of
    them equal to the classifier's missing value.  Then [isin] returns a
    filter and so does [eq] for every choice; on every cell of the
    classifier's output, the value of the [isin] filter is true exactly
    when the [eq] filter of some choice is true there; and on a cell that
    holds the missing value the [isin] filter is false. *)
Theorem isin_is_disjunction_of_eq
    (self : Classifier) (choices : pyvalue) (items : list pyvalue)
    (data : array) (mask : grid bool) :
  choices = PyList items \/ choices = PyFrozenset items ->
  py_in (missing_value self) items = false ->
  well_typed_choices self items data ->
  exists f,
    isin choices self = Ok f
    /\ (forall v, v ∈ items -> exists f_v, eq v self = Ok f_v)
    /\ forall i j,
         is_Some (cell_missing (missing_value self) data i j) ->
         is_Some (grid_get mask i j) ->
         exists b,
           filter_cell f data mask i j = Some b
           /\ (forall v f_v, v ∈ items -> eq v self = Ok f_v ->
                 is_Some (filter_cell f_v data mask i j))
           /\ (b = true <->
                 exists v f_v, v ∈ items /\ eq v self = Ok f_v
                               /\ filter_cell f_v data mask i j = Some true)
           /\ (cell_missing (missing_value self) data i j = Some true -> b = false).
Proof.
  intros Hch Hm [(Hd & Hty & values & ->) | (Hd & Hty & la & ->)].
  - by apply isin_int_cells.
  - by apply isin_str_cells.
Qed.

Lemma isin_is_disjunction_of_eq_witness :
  (exists f,
     isin (PyList [PyInt 205; PyInt 310]) examples.sector = Ok f
     /\ forall v, v ∈ [PyInt 205; PyInt 310] -> exists f_v, eq v examples.sector = Ok f_v)
  /\ (exists f,
        isin (PyFrozenset [PyStr "STK"; PyStr "FUT"]) examples.SecType_latest = Ok f
        /\ forall v, v ∈ [PyStr "STK"; PyStr "FUT"] ->
             exists f_v, eq v examples.SecType_latest = Ok f_v).
Proof.
  split.
  - destruct (isin_is_disjunction_of_eq examples.sector
                (PyList [PyInt 205; PyInt 310]) [PyInt 205; PyInt 310]
                examples.sector_codes examples.mask_one_hidden)
      as (f & Hf & Heq & _).
    + by left.
    + reflexivity.
    + left. split; [reflexivity|]. split; [reflexivity|]. by eexists.
    + exists f. by split.
  - destruct (isin_is_disjunction_of_eq examples.SecType_latest
                (PyFrozenset [PyStr "STK"; PyStr "FUT"]) [PyStr "STK"; PyStr "FUT"]
                (Labels examples.labels) examples.mask_one_hidden)
      as (f & Hf & Heq & _).
    + by right.
    + reflexivity.
    + right. split; [reflexivity|]. split; [reflexivity|]. by eexists.
    + exists f. by split.
Defined.

End isin_facts.

(** * The prescreen against the screen it replaces *)

Module prescreen_facts.
Import pipeline props engine.

(** C1 fails on the code.  The screen [~SingleAsset(asset1)] keeps every
    security but the one with sid 1; the optimizer converts it into the
    prescreen [{"sids": [1]}], which admits that security alone.  The
    screen [~(is_stock & is_etf)] keeps every security that is not both a
    stock and an ETF; the optimizer converts it into the field predicates
    "not a stock" and "an ETF", the same prescreen that it derives from
    [~is_stock & is_etf].  In both cases the pipeline with the prescreen
    and the pipeline with the screen return different rows.  The
    conversion of a single term, which has a branch of its own for [~x_0],
    declines both screens; it is the loop over the conjuncts that converts
    them. *)
Theorem negated_screen_changes_output :
  _term_to_prescreen_dict examples.not_asset1 None false = Ok None
  /\ _term_to_prescreen_dict examples.not_stock_and_etf None false = Ok None
  /\ (exists p,
        Pipeline__init__ None (Some examples.not_asset1) GENERIC = Ok p
        /\ _screen p = None
        /\ _prescreen p = Some (mkPrescreen (Some [1]) None None)
        /\ output_sids p examples.universe = Ok [1])
  /\ output_sids (mkPipeline ∅ None (Some examples.not_asset1) GENERIC) examples.universe
     = Ok [2; 3]
  /\ (exists p,
        Pipeline__init__ None (Some examples.not_stock_and_etf) GENERIC = Ok p
        /\ _screen p = None
        /\ _prescreen p =
             Some (mkPrescreen None None
                     (Some [mkFieldDef "SecType" "eq" true (PyList [PyStr "STK"]);
                            mkFieldDef "Etf" "eq" false (PyList [PyBool true])]))
        /\ output_sids p examples.universe = Ok [])
  /\ output_sids (mkPipeline ∅ None (Some examples.not_stock_and_etf) GENERIC)
       examples.universe
     = Ok [1; 3].
Proof.
  split; [by vm_compute|]. split; [by vm_compute|].
  split; [|split; [|split]].
  - eexists. split; [vm_compute; reflexivity|]. by vm_compute.
  - by vm_compute.
  - eexists. split; [vm_compute; reflexivity|]. by vm_compute.
  - by vm_compute.
Qed.

End prescreen_facts.

(** * Conjunctions of filters as screens *)

Module conjunction_facts.
Import pipeline props string_facts.

#[local] Arguments append : simpl nomatch.

Lemma written_lacks c (leaf : bool * string) :
  str_forall name_char leaf.2 = true -> name_char c = false -> c <> "~"%char ->
  str_contains c (written leaf) = false.
Proof.
  intros Hname Hc Hne. unfold written. rewrite str_contains_app.
  rewrite (str_contains_forall name_char c leaf.2) by done.
  destruct leaf.1; cbn [str_contains]; [|done].
  by destruct (Ascii.eqb_spec "~" c).
Qed.

Lemma written_name (leaf : bool * string) :
  str_forall name_char leaf.2 = true ->
  str_replace (written leaf) "~" "" = leaf.2
  /\ str_contains "~" (written leaf) = leaf.1.
Proof.
  intros Hname.
  assert (str_contains "~" leaf.2 = false) as Hno
    by (by apply (str_contains_forall name_char)).
  unfold written. rewrite str_replace_app, str_contains_app, Hno.
  rewrite (str_replace_absent leaf.2) by done.
  by destruct leaf.1.
Qed.

Lemma strip_parens_app s t : strip_parens (s +:+ t) = strip_parens s +:+ strip_parens t.
Proof. unfold strip_parens. by rewrite !str_replace_app. Qed.

Lemma strip_parens_written (leaf : bool * string) :
  str_forall name_char leaf.2 = true -> strip_parens (written leaf) = written leaf.
Proof.
  intros Hname. unfold strip_parens.
  rewrite (str_replace_absent (written leaf) "(") by (by apply written_lacks).
  by rewrite str_replace_absent by (by apply written_lacks).
Qed.

Lemma leaves_nonempty e : leaves e <> [].
Proof.
  induction e as [n x|l IHl r IHr|e IH]; simpl; [done| |done].
  by destruct (leaves l).
Qed.

Lemma join_and_app l r :
  l <> [] -> r <> [] -> join_and (l ++ r) = join_and l +:+ " & " +:+ join_and r.
Proof.
  intros Hl Hr. induction l as [|x [|y l] IH]; [done| |].
  - by destruct r.
  - change (join_and ((x :: y :: l) ++ r))
      with (x +:+ " & " +:+ join_and ((y :: l) ++ r)).
    rewrite IH by done.
    change (join_and (x :: y :: l)) with (x +:+ " & " +:+ join_and (y :: l)).
    by rewrite !str_app_assoc.
Qed.

(** Without its parentheses, the expression of a conjunction is its
    conjuncts joined by [" & "]. *)
Lemma strip_parens_render e :
  Forall (fun leaf : bool * string => str_forall name_char leaf.2 = true) (leaves e) ->
  strip_parens (render e) = join_and (written <$> leaves e).
Proof.
  induction e as [n x|l IHl r IHr|e IH]; cbn [render leaves]; intros Hnames.
  - apply Forall_inv in Hnames. by rewrite strip_parens_written.
  - apply Forall_app in Hnames as [Hl Hr].
    rewrite !strip_parens_app, IHl, IHr by done.
    rewrite fmap_app, join_and_app; [done|..];
      intros ?%fmap_nil_inv; by eapply leaves_nonempty.
  - rewrite !strip_parens_app, IH by done.
    change (strip_parens "(") with "". change (strip_parens ")") with "".
    by rewrite str_app_nil_l, str_app_nil_r.
Qed.

Lemma split_go_piece t rest cur :
  str_contains " " t = false ->
  split_go " & " (t +:+ rest) cur 0 = split_go " & " rest (cur +:+ t) 0.
Proof.
  revert cur. induction t as [|a t IH]; intros cur Ht.
  - by rewrite str_app_nil_l, str_app_nil_r.
  - cbn [str_contains] in Ht. apply orb_false_iff in Ht as [Ha Ht].
    change (String a t +:+ rest) with (String a (t +:+ rest)).
    cbn [split_go String.prefix].
    destruct (ascii_dec " " a) as [<-|_]; [done|].
    rewrite IH by done. by rewrite str_app_assoc.
Qed.

Lemma split_go_separator rest cur :
  split_go " & " (" & " +:+ rest) cur 0 = cur :: split_go " & " rest "" 0.
Proof. destruct rest; reflexivity. Qed.

Lemma split_go_join pieces cur :
  pieces <> [] ->
  Forall (fun piece => str_contains " " piece = false) pieces ->
  split_go " & " (join_and pieces) cur 0 =
    match pieces with
    | [] => []
    | piece :: rest => (cur +:+ piece) :: rest
    end.
Proof.
  intros Hne Hall. revert cur.
  induction Hall as [|x [|y rest] Hx Hall IH]; intros cur; [done| |].
  - cbn [join_and]. rewrite <- (str_app_nil_r x) at 1.
    by rewrite split_go_piece.
  - change (join_and (x :: y :: rest)) with (x +:+ " & " +:+ join_and (y :: rest)).
    rewrite split_go_piece, split_go_separator, IH by done.
    by rewrite str_app_nil_l.
Qed.

(** The terms that the optimizer reads off the expression of a
    conjunction are its conjuncts as written. *)
Lemma conjunction_terms_render e :
  Forall (fun leaf : bool * string => str_forall name_char leaf.2 = true) (leaves e) ->
  conjunction_terms (render e) = written <$> leaves e.
Proof.
  intros Hnames. unfold conjunction_terms, str_split.
  fold (strip_parens (render e)). rewrite strip_parens_render by done.
  rewrite split_go_join.
  - destruct (leaves e) as [|leaf rest] eqn:E; [done|]. by rewrite fmap_cons.
  - intros ?%fmap_nil_inv. by eapply leaves_nonempty.
  - apply Forall_fmap. eapply Forall_impl; [exact Hnames|].
    intros leaf Hleaf. by apply written_lacks.
Qed.

(** Whether a term converts depends neither on the dict being extended
    nor on the negation flag, and a converted dict is never empty. *)
Lemma field_term_converted term prescreen negate :
  converted (field_term_to_prescreen term prescreen negate)
  = converted (_term_to_prescreen_fielddef term).
Proof.
  unfold field_term_to_prescreen.
  by destruct (_term_to_prescreen_fielddef term) as [[fd|]|].
Qed.

Lemma dict_converted term prescreen negate :
  converted (_term_to_prescreen_dict term prescreen negate)
  = converted (_term_to_prescreen_dict term None false).
Proof.
  unfold _term_to_prescreen_dict.
  destruct term as [ds nm|comp nd|a|sids|sids|sids|ins op args|expr bindings|ins|ins|ins| |ins|c];
    try done; rewrite ?field_term_converted; try done.
  destruct (String.eqb expr "~x_0"); [|by rewrite !field_term_converted].
  destruct (getitem bindings "x_0") as [x_0|]; [|done]. simpl.
  destruct (_term_to_prescreen_fielddef x_0) as [[fd|]|]; simpl; [done| |done].
  by rewrite !field_term_converted.
Qed.

Lemma field_term_truthy term prescreen negate out :
  field_term_to_prescreen term prescreen negate = Ok (Some out) ->
  prescreen_truthy out = true.
Proof.
  unfold field_term_to_prescreen.
  destruct (_term_to_prescreen_fielddef term) as [[fd|]|]; simpl; [|done..].
  intros [= <-]. unfold append_field, prescreen_truthy.
  simpl. by repeat case_match.
Qed.

Lemma dict_truthy term prescreen negate out :
  _term_to_prescreen_dict term prescreen negate = Ok (Some out) ->
  prescreen_truthy out = true.
Proof.
  unfold _term_to_prescreen_dict.
  destruct term as [ds nm|comp nd|a|sids|sids|sids|ins op args|expr bindings|ins|ins|ins| |ins|c];
    try (by apply field_term_truthy);
    try (intros [= <-]; unfold extend_sids, extend_real_sids, prescreen_truthy;
         simpl; by repeat case_match).
  destruct (String.eqb expr "~x_0"); [|by apply field_term_truthy].
  destruct (getitem bindings "x_0") as [x_0|]; [|done]. simpl.
  destruct (_term_to_prescreen_fielddef x_0) as [[fd|]|]; simpl;
    [|by apply field_term_truthy|done].
  intros [= <-]. unfold append_field, prescreen_truthy.
  simpl. by repeat case_match.
Qed.

Lemma converts_converted term :
  converts term <-> converted (_term_to_prescreen_dict term None false) = true.
Proof.
  unfold converts. destruct (_term_to_prescreen_dict term None false) as [[ps|]|];
    simpl; split; try done; eauto; by intros [? ?].
Qed.

Lemma converted_Some {A} (outcome : result (option A)) :
  converted outcome = true -> exists a, outcome = Ok (Some a).
Proof. destruct outcome as [[a|]|]; simpl; [eauto|done..]. Qed.

(** The loop over the conjuncts runs to its end when every conjunct
    converts. *)
Lemma convert_terms_all bindings (ls : list (bool * string)) prescreen :
  Forall (fun leaf : bool * string => str_forall name_char leaf.2 = true) ls ->
  (forall leaf, leaf ∈ ls -> exists term, bindings !! leaf.2 = Some term /\ converts term) ->
  exists out, convert_terms bindings (written <$> ls) prescreen = Ok (Some out).
Proof.
  revert prescreen. induction ls as [|leaf ls IH]; intros prescreen Hnames Hall.
  - simpl. eauto.
  - apply Forall_cons in Hnames as [Hname Hnames].
    destruct (Hall leaf) as (term & Hbound & Hconv); [by left|].
    rewrite fmap_cons. cbn [convert_terms].
    destruct (written_name leaf Hname) as [-> ->].
    unfold getitem. rewrite Hbound. simpl.
    apply converts_converted in Hconv.
    rewrite <- (dict_converted term (Some prescreen) leaf.1) in Hconv.
    apply converted_Some in Hconv as [out Hout]. rewrite Hout. simpl.
    rewrite (dict_truthy _ _ _ _ Hout).
    apply IH; [done|]. intros l Hl. apply Hall. by right.
Qed.

(** The loop breaks, or raises, when some conjunct does not convert. *)
Lemma convert_terms_some_fails bindings (ls : list (bool * string)) prescreen :
  Forall (fun leaf : bool * string => str_forall name_char leaf.2 = true) ls ->
  (exists leaf term, leaf ∈ ls /\ bindings !! leaf.2 = Some term /\ ~ converts term) ->
  converted (convert_terms bindings (written <$> ls) prescreen) = false.
Proof.
  revert prescreen. induction ls as [|leaf ls IH]; intros prescreen Hnames Hfail.
  - destruct Hfail as (l & t & Hl & _). by apply elem_of_nil in Hl.
  - apply Forall_cons in Hnames as [Hname Hnames].
    rewrite fmap_cons. cbn [convert_terms].
    destruct (written_name leaf Hname) as [-> ->].
    unfold getitem. destruct (bindings !! leaf.2) as [term|] eqn:Hbound; [|done].
    simpl.
    destruct (_term_to_prescreen_dict term (Some prescreen) leaf.1)
      as [[out|]|] eqn:Hout; simpl; [|done..].
    rewrite (dict_truthy _ _ _ _ Hout).
    destruct Hfail as (l & t & Hl & Hb & Hnc).
    apply elem_of_cons in Hl as [->|Hl]; [|by apply IH; eauto].
    exfalso. apply Hnc, converts_converted.
    rewrite <- (dict_converted t (Some prescreen) leaf.1).
    rewrite Hb in Hbound. injection Hbound as ->. by rewrite Hout.
Qed.

Lemma render_has_and e :
  (2 <= length (leaves e))%nat -> str_contains "&" (render e) = true.
Proof.
  induction e as [n x|l IHl r IHr|e IH]; cbn [render leaves]; intros Hlen.
  - simpl in Hlen. lia.
  - by rewrite !str_contains_app, orb_true_r.
  - rewrite !str_contains_app, IH by done. by rewrite orb_true_r.
Qed.

(** An expression with a character that neither ["~x_0"] nor
    ["x_0 != x_0"] has is not converted as a single term. *)
Lemma single_term_attempt_fails c _expr bindings :
  str_contains c _expr = true ->
  str_contains c "~x_0" = false -> str_contains c "x_0 != x_0" = false ->
  _term_to_prescreen_dict (NumExprFilter _expr bindings) None false = Ok None.
Proof.
  intros Hc H1 H2. unfold _term_to_prescreen_dict, field_term_to_prescreen.
  cbn [_term_to_prescreen_fielddef].
  destruct (String.eqb_spec _expr "~x_0") as [->|_]; [congruence|].
  destruct (String.eqb_spec _expr "x_0 != x_0") as [->|_]; [congruence|].
  done.
Qed.

(** On the expression of a conjunction of two or more conjuncts, the
    optimizer runs its loop over the conjuncts as written. *)
Lemma maybe_convert_conjunction bindings e p :
  well_formed bindings e -> (2 <= length (leaves e))%nat ->
  _maybe_convert_to_prescreen (NumExprFilter (render e) bindings) p =
    match convert_terms bindings (written <$> leaves e) empty_prescreen with
    | Raise err => (p, Raise err)
    | Ok (Some prescreen) => (install_prescreen p prescreen, Ok tt)
    | Ok None => (p, Ok tt)
    end.
Proof.
  intros [Hnames Hdom] Hlen. unfold _maybe_convert_to_prescreen.
  rewrite (single_term_attempt_fails "&") by (by try apply render_has_and).
  rewrite conjunction_terms_render by done.
  rewrite bool_decide_eq_true_2; [done|].
  rewrite Hdom, <- list_fmap_compose. f_equal.
  apply Forall_fmap_ext_1. eapply Forall_impl; [exact Hnames|].
  intros leaf Hleaf. simpl. by destruct (written_name leaf Hleaf) as [-> _].
Qed.

Lemma set_screen_overwrite screen p :
  isinstance_Filter screen = true ->
  set_screen screen true p = _maybe_convert_to_prescreen screen (with_screen screen p).
Proof.
  intros Hf. unfold set_screen. rewrite Hf. simpl.
  by rewrite andb_false_r.
Qed.

Lemma bound_leaf bindings e leaf :
  well_formed bindings e -> leaf ∈ leaves e -> is_Some (bindings !! leaf.2).
Proof.
  intros [_ Hdom] Hleaf. apply elem_of_dom. rewrite Hdom.
  apply elem_of_list_to_set, list_elem_of_fmap. eauto.
Qed.

Lemma all_convert_or_some_fails bindings e :
  well_formed bindings e -> all_convert bindings e \/ some_fails bindings e.
Proof.
  intros Hwf. unfold all_convert, some_fails.
  assert (Hbound : forall leaf, leaf ∈ leaves e -> is_Some (bindings !! leaf.2))
    by (intros; by eapply bound_leaf).
  induction (leaves e) as [|leaf ls IH].
  - left. intros leaf Hleaf. by apply elem_of_nil in Hleaf.
  - destruct (Hbound leaf) as [term Hterm]; [by left|].
    destruct (converted (_term_to_prescreen_dict term None false)) eqn:Hc.
    + destruct IH as [Hall | (l & t & Hl & Ht & Hn)].
      * intros l Hl. apply Hbound. by right.
      * left. intros l [->|Hl]%elem_of_cons; [|by apply Hall].
        exists term. split; [done|]. by apply converts_converted.
      * right. exists l, t. split; [by right|done].
    + right. exists leaf, term. split; [by left|]. split; [done|].
      rewrite converts_converted. congruence.
Qed.

Lemma conjunction_installs bindings e p :
  well_formed bindings e -> (2 <= length (leaves e))%nat ->
  let p' := fst (set_screen (NumExprFilter (render e) bindings) true p) in
  (all_convert bindings e ->
     _screen p' = None /\ _columns p' = _columns p /\ _domain p' = _domain p
     /\ exists prescreen, _prescreen p' = Some prescreen)
  /\ (some_fails bindings e ->
        p' = with_screen (NumExprFilter (render e) bindings) p).
Proof.
  intros Hwf Hlen. simpl.
  rewrite set_screen_overwrite, maybe_convert_conjunction by done.
  split.
  - intros Hall.
    destruct (convert_terms_all bindings (leaves e) empty_prescreen) as [out ->];
      [by destruct Hwf|done|]. simpl. eauto.
  - intros Hfail.
    pose proof (convert_terms_some_fails bindings (leaves e) empty_prescreen
                  (proj1 Hwf) Hfail) as Hc.
    by destruct (convert_terms bindings (written <$> leaves e) empty_prescreen)
      as [[out|]|].
Qed.

Lemma conjunction_installs_iff bindings e p :
  well_formed bindings e -> (2 <= length (leaves e))%nat ->
  installs_prescreen (NumExprFilter (render e) bindings) p <-> all_convert bindings e.
Proof.
  intros Hwf Hlen. unfold installs_prescreen.
  destruct (conjunction_installs bindings e p Hwf Hlen) as [Hall Hfail].
  split.
  - intros Hinst. destruct (all_convert_or_some_fails bindings e Hwf) as [|Hf]; [done|].
    rewrite (Hfail Hf) in Hinst. by destruct Hinst.
  - intros Ha. destruct (Hall Ha) as (_ & _ & _ & ps & ->). eauto.
Qed.

(** The pieces that [split(" & ")] returns keep every character that is
    not part of the separator. *)
Lemma prefix_separator s :
  String.prefix " & " s = true -> exists rest, s = " & " +:+ rest.
Proof.
  destruct s as [|a [|b [|c rest]]]; cbn [String.prefix]; try done;
    destruct (ascii_dec " " a) as [<-|]; try done;
    destruct (ascii_dec "&" b) as [<-|]; try done;
    destruct (ascii_dec " " c) as [<-|]; try done.
  intros _. by exists rest.
Qed.

Lemma split_go_keeps c s cur skip :
  c <> " "%char -> c <> "&"%char ->
  str_contains c cur = true \/ str_contains c (str_drop skip s) = true ->
  exists piece, piece ∈ split_go " & " s cur skip /\ str_contains c piece = true.
Proof.
  intros Hsp Hamp. revert cur skip.
  induction s as [|a s IH]; intros cur skip Hc.
  - exists cur. split; [by left|]. destruct Hc as [|Hc]; [done|]. by destruct skip.
  - destruct skip as [|k]; cbn [split_go].
    + destruct (String.prefix " & " (String a s)) eqn:Hp.
      * destruct Hc as [Hc|Hc]; [exists cur; split; [by left|done]|].
        apply prefix_separator in Hp as [rest Hrest].
        injection Hrest as -> ->.
        destruct (IH "" 2%nat) as (piece & Hin & Hpiece).
        { right. cbn [str_contains str_drop] in *.
          destruct (Ascii.eqb_spec " " c) as [|_]; [done|].
          by destruct (Ascii.eqb_spec "&" c). }
        exists piece. split; [by right|done].
      * apply IH. cbn [str_drop str_contains] in Hc.
        rewrite str_contains_app. cbn [str_contains].
        destruct Hc as [->|Hc]; [by left|].
        destruct (Ascii.eqb a c); [left; by rewrite orb_true_r|by right].
    + apply IH. by destruct Hc as [|Hc]; [left|right].
Qed.

(** An expression that contains [|] is never converted. *)
Lemma disjunction_not_converted _expr bindings p :
  str_contains "|" _expr = true ->
  (forall name, name ∈ dom bindings -> str_contains "|" name = false) ->
  _maybe_convert_to_prescreen (NumExprFilter _expr bindings) p = (p, Ok tt).
Proof.
  intros Hor Hnames. unfold _maybe_convert_to_prescreen.
  rewrite (single_term_attempt_fails "|") by done.
  rewrite bool_decide_eq_false_2; [done|]. intros Hset.
  destruct (split_go_keeps "|" (strip_parens _expr) "" 0) as (piece & Hin & Hpiece);
    [done|done| |].
  { right. unfold strip_parens. cbn [str_drop].
    by rewrite !str_contains_replace_other. }
  assert (str_replace piece "~" "" ∈ dom bindings) as Hdom.
  { rewrite <- Hset. apply elem_of_list_to_set, list_elem_of_fmap.
    exists piece. split; [done|]. exact Hin. }
  apply Hnames in Hdom. rewrite str_contains_replace_other in Hdom by done.
  congruence.
Qed.

Lemma all_convert_perm bindings e e' :
  leaves e' ≡ₚ leaves e -> all_convert bindings e' <-> all_convert bindings e.
Proof.
  intros Hperm. unfold all_convert.
  split; intros Hall leaf Hleaf; apply Hall.
  - by rewrite Hperm.
  - by rewrite <- Hperm.
Qed.

Lemma well_formed_perm bindings e e' :
  leaves e' ≡ₚ leaves e -> well_formed bindings e -> well_formed bindings e'.
Proof.
  intros Hperm [Hnames Hdom]. split.
  - by rewrite Hperm.
  - rewrite Hdom. apply list_to_set_perm_L. by rewrite Hperm.
Qed.

(** A filter that converts is converted when it is the screen alone, and
    so is its negation [~x_0]: "the conjunct converts" means the same
    for a conjunct standing alone and inside a conjunction. *)
Lemma converts_alone term p :
  isinstance_Filter term = true -> converts term -> installs_prescreen term p.
Proof.
  intros Hf [out Hout]. unfold installs_prescreen.
  rewrite set_screen_overwrite by done. unfold _maybe_convert_to_prescreen.
  rewrite Hout. simpl. eauto.
Qed.

Lemma fielddef_raises_not_converts term err :
  _term_to_prescreen_fielddef term = Raise err -> ~ converts term.
Proof.
  intros Hraise [out Hout]. revert Hout. unfold _term_to_prescreen_dict.
  destruct term as [ds nm|comp nd|a|sids|sids|sids|ins op args|expr bindings|ins|ins|ins| |ins|c];
    try discriminate Hraise;
    try (unfold field_term_to_prescreen; by rewrite Hraise).
  destruct (String.eqb_spec expr "~x_0") as [->|_];
    [discriminate Hraise | unfold field_term_to_prescreen; by rewrite Hraise].
Qed.

Lemma negation_converts_alone term p :
  converts term -> installs_prescreen (NumExprFilter "~x_0" {["x_0" := term]}) p.
Proof.
  intros Hconv. unfold installs_prescreen.
  rewrite set_screen_overwrite by done. unfold _maybe_convert_to_prescreen.
  assert (Hloop : exists out,
            convert_terms {["x_0" := term]} (conjunction_terms "~x_0") empty_prescreen
            = Ok (Some out)).
  { change (conjunction_terms "~x_0") with ["~x_0"]. cbn [convert_terms].
    change (str_replace "~x_0" "~" "") with "x_0".
    change (str_contains "~" "~x_0") with true.
    unfold getitem. rewrite lookup_singleton_eq. simpl.
    apply converts_converted in Hconv.
    rewrite <- (dict_converted term (Some empty_prescreen) true) in Hconv.
    apply converted_Some in Hconv as [out Hout]. rewrite Hout. simpl.
    rewrite (dict_truthy _ _ _ _ Hout). eauto. }
  destruct Hloop as [out Hloop].
  assert (Hsingle :
            _term_to_prescreen_dict (NumExprFilter "~x_0" {["x_0" := term]}) None false
            = match _term_to_prescreen_fielddef term with
              | Ok (Some fd) => Ok (Some (append_field empty_prescreen (flip_negate fd)))
              | Ok None => Ok None
              | Raise err => Raise err
              end).
  { unfold _term_to_prescreen_dict, getitem.
    rewrite lookup_singleton_eq, String.eqb_refl. cbn [mbind result_bind].
    by destruct (_term_to_prescreen_fielddef term) as [[fd|]|err]. }
  rewrite Hsingle.
  destruct (_term_to_prescreen_fielddef term) as [[fd|]|err] eqn:Hfd.
  - simpl. eauto.
  - rewrite bool_decide_eq_true_2, Hloop; [simpl; eauto|].
    change (conjunction_terms "~x_0") with ["~x_0"].
    rewrite dom_singleton_L. simpl. by rewrite (right_id_L ∅ (∪)).
  - by apply fielddef_raises_not_converts in Hfd.
Qed.

(** The names that [NumExprFilter.create] gives to its bindings are
    variable names. *)
Lemma binding_names (i : nat) :
  str_forall name_char ("x_" +:+ Z_to_string (Z.of_nat i)) = true.
Proof.
  rewrite str_forall_app. apply andb_true_iff. split; [done|].
  eapply str_forall_impl; [|apply isin_facts.Z_to_string_chars].
  intros c. destruct c as [[] [] [] [] [] [] [] []]; vm_compute; congruence.
Qed.

(** What the loop over the conjuncts decides on.  Take a screen whose
    expression is a conjunction of two or more variables, each possibly
    negated, in any order and with parentheses anywhere, bound to filters.
    Setting it as the screen installs a prescreen if and only if every
    variable is bound to a filter that converts; the negation written in
    front of a variable plays no part in this.  Then the screen is
    cleared.  If some variable is bound to a filter that does not convert,
    no prescreen is installed and the screen is the filter that was
    passed.  Whether a prescreen is installed is the same for any other
    conjunction of the same variables, in whatever order and
    parenthesization.  A screen whose expression contains [|] is never
    converted: it stays the screen and no prescreen is installed. *)
Theorem conjunction_converts_all_or_nothing :
  (forall (bindings : gmap string Term) (e : conjunction) (p : Pipeline),
     well_formed bindings e -> (2 <= length (leaves e))%nat ->
     let screen := NumExprFilter (render e) bindings in
     (installs_prescreen screen p <-> all_convert bindings e)
     /\ (all_convert bindings e -> _screen (fst (set_screen screen true p)) = None)
     /\ (some_fails bindings e -> fst (set_screen screen true p) = with_screen screen p)
     /\ (forall e', leaves e' ≡ₚ leaves e ->
           installs_prescreen (NumExprFilter (render e') bindings) p
           <-> installs_prescreen screen p))
  /\ (forall (term : Term) (p : Pipeline),
        isinstance_Filter term = true -> converts term ->
        installs_prescreen term p
        /\ installs_prescreen (NumExprFilter "~x_0" {["x_0" := term]}) p)
  /\ (forall (_expr : string) (bindings : gmap string Term) (p : Pipeline),
        str_contains "|" _expr = true ->
        (forall name, name ∈ dom bindings -> str_contains "|" name = false) ->
        set_screen (NumExprFilter _expr bindings) true p
        = (with_screen (NumExprFilter _expr bindings) p, Ok tt)).
Proof.
  split; [|split].
  - intros bindings e p Hwf Hlen screen.
    destruct (conjunction_installs bindings e p Hwf Hlen) as [Hall Hfail].
    split; [by apply conjunction_installs_iff|].
    split; [intros Ha; by destruct (Hall Ha)|]. split; [done|].
    intros e' Hperm. subst screen.
    rewrite !conjunction_installs_iff;
      [by apply all_convert_perm|done|done|by eapply well_formed_perm|].
    by rewrite Hperm.
  - intros term p Hf Hconv.
    split; [by apply converts_alone | by apply negation_converts_alone].
  - intros expr bindings p Hor Hnames.
    rewrite set_screen_overwrite by done. by apply disjunction_not_converted.
Qed.

Lemma conjunction_converts_all_or_nothing_witness :
  installs_prescreen
    (NumExprFilter (render examples.not_x0_and_x1) examples.stock_etf_bindings)
    examples.one_column
  /\ fst (set_screen
            (NumExprFilter (render examples.not_x0_and_x1) examples.stock_other_bindings)
            true examples.one_column)
     = with_screen
         (NumExprFilter (render examples.not_x0_and_x1) examples.stock_other_bindings)
         examples.one_column
  /\ set_screen (NumExprFilter "x_0 | x_1" examples.stock_etf_bindings) true
       examples.one_column
     = (with_screen (NumExprFilter "x_0 | x_1" examples.stock_etf_bindings)
          examples.one_column, Ok tt).
Proof.
  destruct conjunction_converts_all_or_nothing as (Hand & _ & Hor).
  assert (Hwf : forall bindings : gmap string Term,
            dom bindings = {["x_0"; "x_1"]} ->
            well_formed bindings examples.not_x0_and_x1).
  { intros bindings Hdom. split; [by repeat constructor|].
    rewrite Hdom. by apply (bool_decide_unpack _). }
  assert (Hlen : (2 <= length (leaves examples.not_x0_and_x1))%nat) by (simpl; lia).
  split; [|split].
  - destruct (Hand examples.stock_etf_bindings examples.not_x0_and_x1 examples.one_column)
      as (Hiff & _); [apply Hwf; by apply (bool_decide_unpack _)|exact Hlen|].
    apply Hiff.
    intros leaf [->|[->|[]%elem_of_nil]%elem_of_cons]%elem_of_cons.
    + exists examples.is_stock. split; [reflexivity|]. eexists. reflexivity.
    + exists examples.is_etf. split; [reflexivity|]. eexists. reflexivity.
  - destruct (Hand examples.stock_other_bindings examples.not_x0_and_x1 examples.one_column)
      as (_ & _ & Hfail & _); [apply Hwf; by apply (bool_decide_unpack _)|exact Hlen|].
    apply Hfail.
    exists (false, "x_1"), examples.unrecognized.
    split; [by right; left|]. split; [reflexivity|]. by intros [? ?].
  - apply Hor; [reflexivity|].
    intros name. unfold examples.stock_etf_bindings.
    rewrite dom_insert_L, dom_singleton_L.
    by intros [->%elem_of_singleton| ->%elem_of_singleton]%elem_of_union.
Defined.

(** C2 fails on the code.  A prescreen is installed although one conjunct
    does not convert.  In the screen [(~x_0) & (x_1)] with [x_0] bound to
    a sid filter ([SingleAsset], [StaticAssets], [StaticSids],
    [StaticUniverse]) and [x_1] to a filter that converts, the conjunct
    [~x_0] is the inversion of a sid filter: it is not a recognized leaf,
    and [_term_to_prescreen_dict] declines it.  Yet setting the screen
    clears it and installs a prescreen, in which the sids of the inverted
    filter are listed for inclusion.  For [~SingleAsset(asset1) &
    is_stock] the prescreen is [{"sids": [1], "fields": [SecType eq
    STK]}]: it admits the security 1 alone, where the screen keeps the
    stocks other than 1. *)
Theorem declined_conjunct_is_prescreened :
  (forall (term other : Term) (p : Pipeline),
     invariants.sid_filter term = true ->
     converts other ->
     let screen :=
       NumExprFilter "(~x_0) & (x_1)" (<["x_1" := other]> {["x_0" := term]}) in
     _term_to_prescreen_dict (invariants.invert term) None false = Ok None
     /\ _screen (fst (set_screen screen true p)) = None
     /\ is_Some (_prescreen (fst (set_screen screen true p))))
  /\ (let screen :=
        NumExprFilter "(~x_0) & (x_1)"
          (<["x_1" := examples.is_stock]> {["x_0" := SingleAsset examples.asset1]}) in
      _term_to_prescreen_dict (invariants.invert (SingleAsset examples.asset1)) None false
      = Ok None
      /\ (exists p,
            Pipeline__init__ None (Some screen) GENERIC = Ok p
            /\ _screen p = None
            /\ _prescreen p =
                 Some (mkPrescreen (Some [1]) None
                         (Some [mkFieldDef "SecType" "eq" false (PyList [PyStr "STK"])]))
            /\ output_sids p examples.universe = Ok [1])
      /\ output_sids (mkPipeline ∅ None (Some screen) GENERIC) examples.universe = Ok [2]).
Proof.
  split.
  - intros term other p Hsid Hconv screen. split; [by destruct term|].
    assert (Hwf : well_formed (<["x_1" := other]> {["x_0" := term]}) examples.not_x0_and_x1).
    { split; [by repeat constructor|].
      rewrite dom_insert_L, dom_singleton_L. simpl. set_solver. }
    assert (Hlen : (2 <= length (leaves examples.not_x0_and_x1))%nat) by (simpl; lia).
    destruct (conjunction_installs _ _ p Hwf Hlen) as [Hall _].
    destruct Hall as (Hscreen & _ & _ & ps & Hps).
    + intros leaf [->|[->|[]%elem_of_nil]%elem_of_cons]%elem_of_cons.
      * exists term. split; [by rewrite lookup_insert_ne, lookup_singleton_eq|].
        destruct term; try done; by eexists.
      * exists other. split; [by rewrite lookup_insert_eq|done].
    + split; [exact Hscreen|]. change (render examples.not_x0_and_x1) with "(~x_0) & (x_1)" in Hps.
      subst screen. rewrite Hps. by eexists.
  - cbv zeta. split; [by vm_compute|]. split; [|by vm_compute].
    eexists. split; [vm_compute; reflexivity|]. by vm_compute.
Qed.

End conjunction_facts.

(** * Columns: construction, add and remove *)

Module columns_facts.
Import pipeline props invariants.

Lemma valid_column_spec term :
  valid_column term = true <-> isinstance_ComputableTerm term = true /\ ndim term <> 1.
Proof.
  unfold valid_column. rewrite andb_true_iff, negb_true_iff, Z.eqb_neq. done.
Qed.

Lemma validate_column_ok name term :
  validate_column name term = Ok tt <-> ndim term <> 1.
Proof.
  unfold validate_column. destruct (Z.eqb_spec (ndim term) 1); split; done.
Qed.

Lemma validate_columns_ok items :
  validate_columns items = Ok tt <-> Forall (fun item => valid_column item.2 = true) items.
Proof.
  induction items as [|[name term] items IH]; simpl.
  - split; [constructor | done].
  - rewrite Forall_cons, <- IH, valid_column_spec. simpl.
    unfold validate_column.
    destruct (Z.eqb_spec (ndim term) 1) as [H1|H1]; simpl.
    + split; [done | by intros [[_ ?] _]].
    + destruct (isinstance_ComputableTerm term); simpl.
      * split; [done | by intros [_ ?]].
      * split; [done | by intros [[? _] _]].
Qed.

Lemma validate_columns_raises items e :
  validate_columns items = Raise e ->
  exn_class e = UnsupportedPipelineOutput \/ exn_class e = TypeError.
Proof.
  induction items as [|[name term] items IH]; simpl; [done|].
  unfold validate_column. destruct (ndim term =? 1); simpl.
  - intros [= <-]. by left.
  - destruct (isinstance_ComputableTerm term); [done|].
    intros [= <-]. by right.
Qed.

Lemma map_valid (columns : gmap string Term) :
  Forall (fun item => valid_column item.2 = true) (map_to_list columns)
  <-> forall name term, columns !! name = Some term -> valid_column term = true.
Proof.
  rewrite Forall_forall. split.
  - intros H name term Hl. by apply (H (name, term)), elem_of_map_to_list.
  - intros H [name term] Hl. apply (H name), elem_of_map_to_list, Hl.
Qed.

Lemma maybe_convert_columns screen p :
  _columns (fst (_maybe_convert_to_prescreen screen p)) = _columns p
  /\ _domain (fst (_maybe_convert_to_prescreen screen p)) = _domain p.
Proof.
  destruct (pipeline_facts.maybe_convert_cases screen p) as [-> | [ps ->]]; done.
Qed.

Lemma set_screen_columns screen overwrite p :
  _columns (fst (set_screen screen overwrite p)) = _columns p
  /\ _domain (fst (set_screen screen overwrite p)) = _domain p.
Proof.
  unfold set_screen. destruct (negb _); [done|].
  destruct (_ && _); [done|].
  match goal with |- context [_maybe_convert_to_prescreen _ ?q] =>
    apply (maybe_convert_columns screen q) end.
Qed.

Lemma init_columns columns screen domain p :
  Pipeline__init__ columns screen domain = Ok p ->
  _columns p = default ∅ columns
  /\ _domain p = domain
  /\ validate_columns (map_to_list (default ∅ columns)) = Ok tt.
Proof.
  unfold Pipeline__init__. destruct (negb _); [done|].
  destruct (validate_columns _) as [[]|e]; simpl; [|done].
  destruct screen as [s|]; simpl.
  - pose proof (maybe_convert_columns s (mkPipeline (default ∅ columns) None (Some s) GENERIC))
      as [Hc _].
    destruct (_maybe_convert_to_prescreen s _) as [p' [u|e]]; simpl in *; [|done].
    intros [= <-]. by rewrite <- Hc.
  - by intros [= <-].
Qed.

(** What [add] does to the columns, case by case. *)
Lemma add_cases term name overwrite p :
  let p' := fst (add term name overwrite p) in
  let outcome := snd (add term name overwrite p) in
  (outcome = Ok tt /\ valid_column term = true
   /\ (overwrite = true \/ _columns p !! name = None)
   /\ _columns p' = <[name := term]> (_columns p))
  \/ ((exists e, outcome = Raise e) /\ p' = p
      /\ (valid_column term = false \/ (overwrite = false /\ is_Some (_columns p !! name))))
  \/ ((exists e, outcome = Raise e /\ exn_class e = TypeError)
      /\ overwrite = true /\ is_Some (_columns p !! name)
      /\ isinstance_ComputableTerm term = false /\ ndim term <> 1
      /\ _columns p' = delete name (_columns p)).
Proof.
  unfold add, remove, valid_column, validate_column.
  destruct (Z.eqb_spec (ndim term) 1) as [H1|H1]; simpl.
  { right. left. rewrite andb_false_r. eauto. }
  rewrite andb_true_r.
  case_bool_decide as Hin; [apply elem_of_dom in Hin as [old Hold]|apply not_elem_of_dom in Hin].
  - rewrite Hold. destruct overwrite; simpl.
    + destruct (isinstance_ComputableTerm term); simpl.
      * left. by rewrite insert_delete_eq; eauto.
      * right. right. eauto 10.
    + right. left. eauto 10.
  - destruct (isinstance_ComputableTerm term); simpl.
    + left. eauto.
    + right. left. eauto.
Qed.

Lemma reachable_columns_valid p :
  reachable p -> forall name term, _columns p !! name = Some term -> valid_column term = true.
Proof.
  induction 1 as [c s d p Hinit | t n o p _ IH | n p _ IH | s o p _ IH]; intros name term.
  - apply init_columns in Hinit as (-> & _ & Hv).
    apply validate_columns_ok in Hv. by apply (proj1 (map_valid _) Hv).
  - destruct (add_cases t n o p) as [(_ & Hv & _ & ->)|[(_ & -> & _)|(_ & _ & _ & _ & _ & ->)]].
    + destruct (decide (name = n)) as [->|Hne].
      * rewrite lookup_insert_eq. by intros [= <-].
      * rewrite lookup_insert_ne by done. apply IH.
    + apply IH.
    + intros Hl. apply lookup_delete_Some in Hl as [_ Hl]. by eapply IH.
  - unfold remove. destruct (_columns p !! n); simpl; [|apply IH].
    intros Hl. apply lookup_delete_Some in Hl as [_ Hl]. by eapply IH.
  - destruct (set_screen_columns s o p) as [-> _]. apply IH.
Qed.

(** X1.  Every column of a pipeline reached by construction followed by
    any sequence of [add], [remove] and [set_screen] calls, failed calls
    included, is a [ComputableTerm] whose [ndim] is not 1. *)
Theorem columns_stay_valid (p : Pipeline) (name : string) (term : Term) :
  reachable p ->
  _columns p !! name = Some term ->
  isinstance_ComputableTerm term = true /\ ndim term <> 1.
Proof.
  intros Hp Hl. apply valid_column_spec. by eapply reachable_columns_valid.
Qed.

Lemma columns_stay_valid_witness :
  isinstance_ComputableTerm examples.is_stock = true /\ ndim examples.is_stock <> 1.
Proof.
  apply (columns_stay_valid
           (fst (remove "sector"
              (fst (add examples.is_stock "stock" false examples.one_column))))
           "stock").
  - apply reach_remove, reach_add.
    by apply (reach_init (Some {["sector" := ClassifierTerm examples.sector]}) None GENERIC).
  - by vm_compute.
Defined.

(** X2.  [Pipeline(columns)] without a screen succeeds exactly when every
    column is a [ComputableTerm] whose [ndim] is not 1, whatever the order
    in which the dict is traversed; it then holds these columns and the
    given domain, with neither screen nor prescreen.  When it fails, it
    raises [UnsupportedPipelineOutput] or [TypeError]. *)
Theorem constructor_accepts_valid_columns :
  forall (columns : gmap string Term) (domain : Domain),
    ((forall name term, columns !! name = Some term -> valid_column term = true)
     <-> Pipeline__init__ (Some columns) None domain
         = Ok (mkPipeline columns None None domain))
    /\ (forall e, Pipeline__init__ (Some columns) None domain = Raise e ->
          (exn_class e = UnsupportedPipelineOutput \/ exn_class e = TypeError)
          /\ exists name term, columns !! name = Some term /\ valid_column term = false).
Proof.
  intros columns domain. rewrite <- map_valid, <- validate_columns_ok.
  unfold Pipeline__init__. simpl.
  destruct (validate_columns (map_to_list columns)) as [[]|e] eqn:Hv; simpl.
  - split; [done|]. intros e. done.
  - split; [split; done|]. intros e' [= <-]. split; [by eapply validate_columns_raises|].
    destruct (decide (Forall (fun item : string * Term => valid_column item.2 = true)
                             (map_to_list columns))) as [Hall|Hex].
    { apply validate_columns_ok in Hall. congruence. }
    apply not_Forall_Exists in Hex; [|solve_decision].
    apply Exists_exists in Hex as ([name term] & Hin & Hbad).
    exists name, term. split; [by apply elem_of_map_to_list|].
    simpl in Hbad. by destruct (valid_column term).
Qed.

(** X3.  Round trip: on a reachable pipeline, removing a column and adding
    the removed term back under the same name restores the pipeline. *)
Theorem remove_then_add_restores (p : Pipeline) (name : string) (term : Term) :
  reachable p ->
  _columns p !! name = Some term ->
  snd (remove name p) = Ok term
  /\ add term name false (fst (remove name p)) = (p, Ok tt).
Proof.
  intros Hp Hl.
  destruct (proj1 (valid_column_spec term) (reachable_columns_valid p Hp name term Hl))
    as [Hc Hn].
  unfold remove. rewrite Hl. simpl. split; [done|].
  unfold add, validate_column. simpl.
  destruct (Z.eqb_spec (ndim term) 1); [done|].
  rewrite bool_decide_eq_false_2 by (apply not_elem_of_dom, lookup_delete_eq).
  rewrite Hc. simpl. rewrite insert_delete_id by done. by destruct p.
Qed.

Lemma remove_then_add_restores_witness :
  add examples.is_stock "stock" false (fst (remove "stock" examples.two_columns))
  = (examples.two_columns, Ok tt).
Proof.
  apply (remove_then_add_restores examples.two_columns "stock" examples.is_stock).
  - by apply (reach_init (Some (_columns examples.two_columns)) None GENERIC).
  - by vm_compute.
Defined.

(** X4.  Round trip: adding a valid term under a name that is not in use
    succeeds, with or without [overwrite], and removing that name
    afterwards returns the term and restores the pipeline. *)
Theorem add_then_remove_restores
    (p : Pipeline) (name : string) (term : Term) (overwrite : bool) :
  _columns p !! name = None ->
  isinstance_ComputableTerm term = true ->
  ndim term <> 1 ->
  snd (add term name overwrite p) = Ok tt
  /\ remove name (fst (add term name overwrite p)) = (p, Ok term).
Proof.
  intros Hl Hc Hn. unfold add, validate_column.
  destruct (Z.eqb_spec (ndim term) 1); [done|].
  rewrite bool_decide_eq_false_2 by (by apply not_elem_of_dom).
  rewrite Hc. simpl. split; [done|].
  unfold remove. simpl. rewrite lookup_insert_eq. simpl.
  rewrite delete_insert_id by done. by destruct p.
Qed.

Lemma add_then_remove_restores_witness :
  remove "etf" (fst (add examples.is_etf "etf" false examples.two_columns))
  = (examples.two_columns, Ok examples.is_etf).
Proof.
  apply (add_then_remove_restores examples.two_columns "etf" examples.is_etf false);
    by vm_compute.
Defined.

(** X5.  [add] touches nothing but the column it is called for: every
    other column, the screen, the prescreen and the domain are the same
    after the call, whether it succeeded or raised. *)
Theorem add_touches_only_its_column
    (term : Term) (name other : string) (overwrite : bool) (p : Pipeline) :
  other <> name ->
  _columns (fst (add term name overwrite p)) !! other = _columns p !! other
  /\ _screen (fst (add term name overwrite p)) = _screen p
  /\ _prescreen (fst (add term name overwrite p)) = _prescreen p
  /\ _domain (fst (add term name overwrite p)) = _domain p.
Proof.
  intros Hne. split; [|apply pipeline_facts.add_screen_unchanged].
  destruct (add_cases term name overwrite p)
    as [(_ & _ & _ & ->)|[(_ & -> & _)|(_ & _ & _ & _ & _ & ->)]].
  - by rewrite lookup_insert_ne.
  - done.
  - by rewrite lookup_delete_ne.
Qed.

Lemma add_touches_only_its_column_witness :
  _columns (fst (add examples.not_computable "sector" true examples.two_columns)) !! "stock"
  = Some examples.is_stock.
Proof.
  destruct (add_touches_only_its_column examples.not_computable "sector" "stock" true
              examples.two_columns) as [-> _]; by vm_compute.
Defined.

(** X6.  Without [overwrite], [add] is all or nothing.  It succeeds
    exactly when the term is a [ComputableTerm] whose [ndim] is not 1 and
    the name is not in use, and then the columns are the old ones with
    the new entry; whenever it raises, the pipeline is left as it was. *)
Theorem add_without_overwrite_is_atomic :
  forall (term : Term) (name : string) (p : Pipeline),
    (snd (add term name false p) = Ok tt
     <-> valid_column term = true /\ _columns p !! name = None)
    /\ (snd (add term name false p) = Ok tt ->
          fst (add term name false p)
          = mkPipeline (<[name := term]> (_columns p)) (_prescreen p) (_screen p) (_domain p))
    /\ (forall e, snd (add term name false p) = Raise e -> fst (add term name false p) = p).
Proof.
  intros term name p.
  unfold add, valid_column, validate_column.
  destruct (Z.eqb_spec (ndim term) 1) as [H1|H1]; simpl.
  { rewrite andb_false_r. split; [split; [done|by intros [? _]]|done]. }
  rewrite andb_true_r.
  case_bool_decide as Hin; [apply elem_of_dom in Hin as [old Hold]|apply not_elem_of_dom in Hin];
    simpl.
  - rewrite Hold. split; [split; [done|by intros [_ ?]]|done].
  - rewrite Hin. destruct (isinstance_ComputableTerm term); simpl.
    + split; [done|]. split; done.
    + split; [split; [done|by intros [? _]]|done].
Qed.

End columns_facts.

(** * Setting a screen *)

Module screen_facts.
Import pipeline props invariants.

(** Whether a screen converts, and into what, does not depend on the
    pipeline that receives it. *)
Lemma maybe_convert_uniform screen :
  (exists outcome, forall p, _maybe_convert_to_prescreen screen p = (p, outcome))
  \/ (exists prescreen,
        forall p, _maybe_convert_to_prescreen screen p
                  = (install_prescreen p prescreen, Ok tt)).
Proof.
  unfold _maybe_convert_to_prescreen.
  destruct (_term_to_prescreen_dict screen None false) as [[ps|]|e]; eauto.
  destruct screen; eauto.
  case_bool_decide; eauto.
  destruct (convert_terms _ _ _) as [[ps|]|e]; eauto.
Qed.

Lemma set_screen_guard_passed screen overwrite p :
  isinstance_Filter screen = true ->
  overwrite = true \/ (_screen p = None /\ _prescreen p = None) ->
  set_screen screen overwrite p = _maybe_convert_to_prescreen screen (with_screen screen p).
Proof.
  intros Hf Hguard. unfold set_screen. rewrite Hf. simpl.
  destruct Hguard as [->|[Hs Hp]].
  - by rewrite andb_false_r.
  - by rewrite Hs, Hp.
Qed.

(** X7.  A call of [set_screen] that gets past its guard leaves the
    pipeline with its new screen and no prescreen, or with a prescreen and
    no screen, also when the conversion raised.  Either way a following
    [set_screen(second)] without [overwrite] raises [ValueError] and
    changes nothing. *)
Theorem set_screen_occupies
    (screen second : Term) (overwrite : bool) (p : Pipeline) :
  isinstance_Filter screen = true ->
  isinstance_Filter second = true ->
  overwrite = true \/ (_screen p = None /\ _prescreen p = None) ->
  let p1 := fst (set_screen screen overwrite p) in
  ((_screen p1 = Some screen /\ _prescreen p1 = None)
   \/ (_screen p1 = None /\ is_Some (_prescreen p1)))
  /\ fst (set_screen second false p1) = p1
  /\ exists e, snd (set_screen second false p1) = Raise e /\ exn_class e = ValueError.
Proof.
  intros Hf Hf2 Hguard. cbv zeta.
  rewrite set_screen_guard_passed by done.
  set (p1 := fst (_maybe_convert_to_prescreen screen (with_screen screen p))).
  assert (Hcase : (_screen p1 = Some screen /\ _prescreen p1 = None)
                  \/ (_screen p1 = None /\ is_Some (_prescreen p1))).
  { subst p1.
    destruct (pipeline_facts.maybe_convert_cases screen (with_screen screen p))
      as [-> | [ps ->]]; simpl; eauto. }
  split; [exact Hcase|].
  unfold set_screen. rewrite Hf2. simpl.
  destruct Hcase as [[-> ->]|[-> [ps ->]]]; simpl; eauto.
Qed.

Lemma set_screen_occupies_witness :
  exists e,
    snd (set_screen examples.is_etf false
           (fst (set_screen examples.is_stock false examples.one_column)))
    = Raise e
    /\ exn_class e = ValueError.
Proof.
  apply (set_screen_occupies examples.is_stock examples.is_etf false examples.one_column);
    [reflexivity | reflexivity | right; split; reflexivity].
Defined.

(** X8.  On a reachable pipeline, [set_screen(screen, overwrite=True)]
    succeeds with the pipeline [q] exactly when constructing a new
    pipeline from the same columns, the same domain and [screen] gives
    [q]: nothing of the previous screen or prescreen is left. *)
Theorem set_screen_overwrite_is_construction (screen : Term) (p q : Pipeline) :
  reachable p ->
  set_screen screen true p = (q, Ok tt)
  <-> Pipeline__init__ (Some (_columns p)) (Some screen) (_domain p) = Ok q.
Proof.
  intros Hp.
  assert (Hv : validate_columns (map_to_list (_columns p)) = Ok tt).
  { apply columns_facts.validate_columns_ok, columns_facts.map_valid.
    by apply columns_facts.reachable_columns_valid. }
  unfold Pipeline__init__, set_screen. simpl. rewrite Hv. simpl.
  destruct (isinstance_Filter screen); simpl; [|split; [intros [= _ ?]; done|done]].
  rewrite andb_false_r.
  destruct (maybe_convert_uniform screen) as [[outcome H]|[ps H]]; rewrite !H; simpl.
  - destruct outcome as [[]|e]; simpl.
    + split; [intros [= <-]|intros [= <-]]; done.
    + split; [intros [= _ ?]; done|done].
  - split; [intros [= <-]|intros [= <-]]; done.
Qed.

Lemma set_screen_overwrite_is_construction_witness :
  Pipeline__init__ (Some (_columns examples.two_columns)) (Some examples.is_etf) GENERIC
  = Ok (mkPipeline (_columns examples.two_columns)
          (Some (mkPrescreen None None
                   (Some [mkFieldDef "Etf" "eq" false (PyList [PyBool true])])))
          None GENERIC).
Proof.
  apply (set_screen_overwrite_is_construction examples.is_etf
           (fst (set_screen examples.is_stock false examples.two_columns))).
  - apply reach_set_screen.
    by apply (reach_init (Some (_columns examples.two_columns)) None GENERIC).
  - by vm_compute.
Defined.

(** ** The prescreens that get installed *)

Lemma flip_negate_involutive fd : flip_negate (flip_negate fd) = fd.
Proof. by destruct fd as [f o [] v]. Qed.

Lemma flip_negate_valid fd : valid_fielddef (flip_negate fd) = valid_fielddef fd.
Proof. by destruct fd. Qed.

Lemma array_predicate_fielddef_valid field op opargs fd :
  op ∈ prescreen_ops ->
  array_predicate_fielddef field op opargs = Ok fd ->
  valid_fielddef fd = true /\ fd_field fd = field.
Proof.
  intros Hop. unfold array_predicate_fielddef.
  destruct opargs as [|arg rest]; [done|]. simpl.
  unfold prescreen_ops in Hop.
  repeat (apply elem_of_cons in Hop as [->|Hop]); [..|by apply elem_of_nil in Hop]; simpl;
    try (intros [= <-]; done).
  destruct arg; simpl; try done; intros [= <-]; done.
Qed.

Lemma fielddef_valid term fd :
  _term_to_prescreen_fielddef term = Ok (Some fd) -> valid_fielddef fd = true.
Proof.
  destruct term as [ds nm|comp nd|a|sids|sids|sids|ins op args|expr bindings|ins|ins|ins| |ins|c];
    simpl; try done.
  - destruct (single ins) as [input0|]; [|done].
    destruct (isinstance_LatestClassifier input0); [|done].
    destruct (single (term_inputs input0)) as [col|]; [|done].
    destruct (is_SecuritiesMaster_column col); [|done]. simpl.
    case_bool_decide as Hop; [|done].
    destruct (array_predicate_fielddef _ _ _) as [fd'|] eqn:Hfd; [|done]. simpl.
    intros [= <-]. by eapply array_predicate_fielddef_valid.
  - destruct (String.eqb expr "x_0 != x_0"); [|done].
    destruct (getitem bindings "x_0") as [x_0|]; [|done]. simpl.
    destruct (isinstance_LatestFactor x_0); [|done].
    destruct (single (term_inputs x_0)) as [col|]; [|done].
    destruct (is_SecuritiesMaster_column col); [|done]. by intros [= <-].
  - destruct ins as [|col rest]; [done|]. simpl.
    destruct (is_SecuritiesMaster_column col); [|done]. by intros [= <-].
  - destruct ins as [|input0 rest]; [done|]. simpl.
    destruct (_ || _); [|done].
    destruct (term_inputs input0) as [|col rest']; [done|]. simpl.
    destruct (is_SecuritiesMaster_column col); [|done]. by intros [= <-].
  - destruct ins as [|input0 rest]; [done|]. simpl.
    destruct (_ || _); [|done].
    destruct (term_inputs input0) as [|col rest']; [done|]. simpl.
    destruct (is_SecuritiesMaster_column col); [|done]. by intros [= <-].
Qed.

Lemma prescreen_or_empty_fields ps :
  default [] (ps_fields (prescreen_or_empty (Some ps))) = default [] (ps_fields ps)
  /\ default [] (ps_sids (prescreen_or_empty (Some ps))) = default [] (ps_sids ps)
  /\ default [] (ps_real_sids (prescreen_or_empty (Some ps))) = default [] (ps_real_sids ps).
Proof. by destruct ps as [[?|] [?|] [?|]]. Qed.

(** One conversion step appends: it adds sids, real sids or one field
    definition behind those of the dict it is given. *)
Lemma dict_appends term ps negate ps' :
  _term_to_prescreen_dict term (Some ps) negate = Ok (Some ps') ->
  exists sids real_sids fields,
    default [] (ps_sids ps') = default [] (ps_sids ps) ++ sids
    /\ default [] (ps_real_sids ps') = default [] (ps_real_sids ps) ++ real_sids
    /\ default [] (ps_fields ps') = default [] (ps_fields ps) ++ fields
    /\ Forall (fun fd => valid_fielddef fd = true) fields.
Proof.
  destruct (prescreen_or_empty_fields ps) as (Hf & Hs & Hr).
  unfold _term_to_prescreen_dict.
  set (q := prescreen_or_empty (Some ps)) in *.
  assert (Hfield : forall t,
    field_term_to_prescreen t q negate = Ok (Some ps') ->
    exists sids real_sids fields,
      default [] (ps_sids ps') = default [] (ps_sids ps) ++ sids
      /\ default [] (ps_real_sids ps') = default [] (ps_real_sids ps) ++ real_sids
      /\ default [] (ps_fields ps') = default [] (ps_fields ps) ++ fields
      /\ Forall (fun fd => valid_fielddef fd = true) fields).
  { intros t. unfold field_term_to_prescreen.
    destruct (_term_to_prescreen_fielddef t) as [[fd|]|] eqn:Hfd; simpl; [|done..].
    intros [= <-]. exists [], [], [if negate then flip_negate fd else fd]. simpl.
    rewrite Hf, Hs, Hr, !app_nil_r. repeat split; try done.
    apply Forall_singleton. apply fielddef_valid in Hfd.
    destruct negate; by rewrite ?flip_negate_valid. }
  destruct term as [ds nm|comp nd|a|sids|sids|sids|ins op args|expr bindings|ins|ins|ins| |ins|c];
    try apply Hfield.
  - intros [= <-]. exists [sid a], [], []. simpl. by rewrite Hs, Hr, Hf, !app_nil_r.
  - intros [= <-]. exists sids, [], []. simpl. by rewrite Hs, Hr, Hf, !app_nil_r.
  - intros [= <-]. exists [], sids, []. simpl. by rewrite Hs, Hr, Hf, !app_nil_r.
  - intros [= <-]. exists [], sids, []. simpl. by rewrite Hs, Hr, Hf, !app_nil_r.
  - destruct (String.eqb expr "~x_0"); [|apply Hfield].
    destruct (getitem bindings "x_0") as [x_0|]; [|done]. simpl.
    destruct (_term_to_prescreen_fielddef x_0) as [[fd|]|] eqn:Hfd; simpl; [|apply Hfield|done].
    intros [= <-].
    exists [], [], [if negate then flip_negate (flip_negate fd) else flip_negate fd]. simpl.
    rewrite Hf, Hs, Hr, !app_nil_r. repeat split; try done.
    apply Forall_singleton. apply fielddef_valid in Hfd.
    destruct negate; by rewrite ?flip_negate_valid.
Qed.

Lemma convert_terms_appends bindings terms ps ps' :
  convert_terms bindings terms ps = Ok (Some ps') ->
  exists sids real_sids fields,
    default [] (ps_sids ps') = default [] (ps_sids ps) ++ sids
    /\ default [] (ps_real_sids ps') = default [] (ps_real_sids ps) ++ real_sids
    /\ default [] (ps_fields ps') = default [] (ps_fields ps) ++ fields
    /\ Forall (fun fd => valid_fielddef fd = true) fields
    /\ (terms <> [] -> prescreen_truthy ps' = true).
Proof.
  revert ps. induction terms as [|term rest IH]; intros ps; simpl.
  - intros [= <-]. exists [], [], []. by rewrite !app_nil_r.
  - destruct (getitem bindings _) as [bound|]; [|done]. simpl.
    destruct (_term_to_prescreen_dict bound (Some ps) _) as [[mid|]|] eqn:Hmid; [|done..].
    simpl. destruct (prescreen_truthy mid) eqn:Htruthy; [|done].
    intros Hrest.
    apply dict_appends in Hmid as (s1 & r1 & f1 & Hs1 & Hr1 & Hf1 & Hv1).
    assert (Hlast : rest = [] -> ps' = mid) by (intros ->; simpl in Hrest; congruence).
    apply IH in Hrest as (s2 & r2 & f2 & Hs2 & Hr2 & Hf2 & Hv2 & Ht2).
    exists (s1 ++ s2), (r1 ++ r2), (f1 ++ f2).
    rewrite Hs2, Hr2, Hf2, Hs1, Hr1, Hf1, !(assoc_L (++)). repeat split; try done.
    + by apply Forall_app.
    + intros _. destruct rest as [|next rest]; [by rewrite Hlast|by apply Ht2].
Qed.

Lemma split_go_nonempty sep s cur skip : split_go sep s cur skip <> [].
Proof.
  revert cur skip. induction s as [|a s IH]; intros cur skip; cbn [split_go]; [done|].
  destruct skip; [|apply IH]. case_match; [done|apply IH].
Qed.

Lemma forallb_of_Forall {A} (f : A -> bool) (l : list A) :
  Forall (fun x => f x = true) l -> forallb f l = true.
Proof. induction 1 as [|x l Hx _ IH]; simpl; [done|]. by rewrite Hx, IH. Qed.

Lemma maybe_convert_valid screen p :
  fst (_maybe_convert_to_prescreen screen p) = p
  \/ exists ps, valid_prescreen ps = true
                /\ fst (_maybe_convert_to_prescreen screen p) = install_prescreen p ps.
Proof.
  unfold _maybe_convert_to_prescreen.
  destruct (_term_to_prescreen_dict screen None false) as [[ps|]|e] eqn:Hdict; simpl; eauto.
  - right. exists ps. split; [|done]. unfold valid_prescreen.
    rewrite (conjunction_facts.dict_truthy _ _ _ _ Hdict). simpl.
    assert (Hsome : _term_to_prescreen_dict screen (Some empty_prescreen) false = Ok (Some ps))
      by exact Hdict.
    apply dict_appends in Hsome as (s & r & f & _ & _ & -> & Hv).
    simpl. by apply forallb_of_Forall.
  - destruct screen; simpl; auto.
    case_bool_decide; simpl; auto.
    destruct (convert_terms _ _ _) as [[ps|]|e] eqn:Hloop; simpl; auto.
    right. exists ps. split; [|done].
    apply convert_terms_appends in Hloop as (s & r & f & _ & _ & Hf & Hv & Ht).
    unfold valid_prescreen. rewrite Ht by apply split_go_nonempty.
    rewrite Hf. simpl. by apply forallb_of_Forall.
Qed.

Lemma reachable_prescreen_valid p ps :
  reachable p -> _prescreen p = Some ps -> valid_prescreen ps = true.
Proof.
  intros Hp. revert ps.
  induction Hp as [c s d p Hinit | t n o p _ IH | n p _ IH | s o p _ IH]; intros ps.
  - revert Hinit. unfold Pipeline__init__. destruct (negb _); [done|].
    destruct (validate_columns _); simpl; [|done].
    destruct s as [s|]; simpl.
    + destruct (maybe_convert_valid s (mkPipeline (default ∅ c) None (Some s) GENERIC))
        as [H|(ps' & Hv & H)];
        destruct (_maybe_convert_to_prescreen s _) as [p' [u|e]]; simpl in *; try done;
        subst p'; intros [= <-]; simpl; [done|]. by intros [= <-].
    + by intros [= <-].
  - destruct (pipeline_facts.add_screen_unchanged t n o p) as (_ & -> & _). apply IH.
  - destruct (pipeline_facts.remove_screen_unchanged n p) as (_ & -> & _). apply IH.
  - unfold set_screen. destruct (negb _); [apply IH|].
    destruct (_ && _); [apply IH|].
    match goal with |- context [_maybe_convert_to_prescreen _ ?q] =>
      destruct (maybe_convert_valid s q) as [->|(ps' & Hv & ->)] end; simpl; [done|].
    by intros [= <-].
Qed.

(** X9.  The prescreen of a reachable pipeline is never the empty dict,
    every one of its field definitions has one of the operators [eq],
    [contains], [startswith], [endswith], [match], [isnull], and those of
    the operators [eq] and [isnull] carry a list of values. *)
Theorem installed_prescreen_is_valid (p : Pipeline) (prescreen : Prescreen) :
  reachable p ->
  _prescreen p = Some prescreen ->
  prescreen_truthy prescreen = true
  /\ forall fielddef,
       fielddef ∈ default [] (ps_fields prescreen) ->
       fd_op fielddef ∈ field_ops
       /\ (fd_op fielddef = "eq" \/ fd_op fielddef = "isnull" ->
             exists values, fd_values fielddef = PyList values).
Proof.
  intros Hp Hps. pose proof (reachable_prescreen_valid p prescreen Hp Hps) as Hv.
  unfold valid_prescreen in Hv. apply andb_true_iff in Hv as [Ht Hf].
  split; [done|]. intros fd Hin.
  rewrite forallb_forall in Hf. apply list_elem_of_In, Hf in Hin.
  unfold valid_fielddef in Hin. apply andb_true_iff in Hin as [Hop Hvalues].
  apply bool_decide_eq_true in Hop. split; [done|].
  intros Hlist.
  assert (String.eqb (fd_op fd) "eq" || String.eqb (fd_op fd) "isnull" = true) as Htest.
  { destruct Hlist as [->| ->]; reflexivity. }
  rewrite Htest in Hvalues. destruct (fd_values fd); try done. eauto.
Qed.

Lemma installed_prescreen_is_valid_witness :
  prescreen_truthy
    (mkPrescreen None None
       (Some [mkFieldDef "SecType" "eq" true (PyList [PyStr "STK"]);
              mkFieldDef "Etf" "eq" false (PyList [PyBool true])])) = true.
Proof.
  apply (installed_prescreen_is_valid
           (fst (set_screen
                   (NumExprFilter (render examples.not_x0_and_x1) examples.stock_etf_bindings)
                   false examples.one_column))).
  - apply reach_set_screen.
    by apply (reach_init (Some (_columns examples.one_column)) None GENERIC).
  - by vm_compute.
Defined.

(** X10.  A conversion step never drops or reorders what the prescreen
    dict already holds: the sids, the real sids and the field definitions
    of the dict it returns start with those of the dict it was given.
    The same holds for the loop over the conjuncts of a screen. *)
Theorem conversion_only_appends :
  (forall term ps negate ps',
     _term_to_prescreen_dict term (Some ps) negate = Ok (Some ps') ->
     default [] (ps_sids ps) `prefix_of` default [] (ps_sids ps')
     /\ default [] (ps_real_sids ps) `prefix_of` default [] (ps_real_sids ps')
     /\ default [] (ps_fields ps) `prefix_of` default [] (ps_fields ps'))
  /\ (forall bindings terms ps ps',
        convert_terms bindings terms ps = Ok (Some ps') ->
        default [] (ps_sids ps) `prefix_of` default [] (ps_sids ps')
        /\ default [] (ps_real_sids ps) `prefix_of` default [] (ps_real_sids ps')
        /\ default [] (ps_fields ps) `prefix_of` default [] (ps_fields ps')).
Proof.
  split.
  - intros term ps negate ps' H.
    apply dict_appends in H as (s & r & f & -> & -> & -> & _).
    repeat split; by apply prefix_app_r.
  - intros bindings terms ps ps' H.
    apply convert_terms_appends in H as (s & r & f & -> & -> & -> & _).
    repeat split; by apply prefix_app_r.
Qed.

End screen_facts.

(** * Negation and conjunction in the prescreen conversion *)

Module conversion_facts.
Import pipeline props invariants.

Lemma prescreen_or_empty_Some ps : prescreen_or_empty (Some ps) = ps.
Proof. by destruct ps as [[?|] [?|] [?|]]. Qed.

(** A term that has a field definition converts through the last branch
    of [_term_to_prescreen_dict]. *)
Lemma dict_of_field_term term fd prescreen negate :
  _term_to_prescreen_fielddef term = Ok (Some fd) ->
  _term_to_prescreen_dict term prescreen negate
  = Ok (Some (append_field (prescreen_or_empty prescreen)
                (if negate then flip_negate fd else fd))).
Proof.
  intros Hfd. unfold _term_to_prescreen_dict, field_term_to_prescreen.
  destruct term as [ds nm|comp nd|a|sids|sids|sids|ins op args|expr bindings|ins|ins|ins| |ins|c];
    try discriminate Hfd; try (by rewrite Hfd).
  destruct (String.eqb_spec expr "~x_0") as [->|_]; [discriminate Hfd|].
  by rewrite Hfd.
Qed.

Lemma dict_of_inverted term prescreen negate :
  _term_to_prescreen_dict (invert term) prescreen negate
  = match _term_to_prescreen_fielddef term with
    | Ok (Some fd) =>
        Ok (Some (append_field (prescreen_or_empty prescreen)
                    (if negate then flip_negate (flip_negate fd) else flip_negate fd)))
    | Ok None => Ok None
    | Raise err => Raise err
    end.
Proof.
  unfold invert, _term_to_prescreen_dict, getitem.
  rewrite lookup_singleton_eq, String.eqb_refl. cbn [mbind result_bind].
  by destruct (_term_to_prescreen_fielddef term) as [[fd|]|err].
Qed.

Lemma field_term_is_filter term fd :
  _term_to_prescreen_fielddef term = Ok (Some fd) -> isinstance_Filter term = true.
Proof. by destruct term. Qed.

(** X11.  For a filter that has a field definition, converting its
    inversion [~x_0] is converting the filter itself with the [negate]
    flag flipped; in particular an inversion converted with
    [negate=True] gives the field definition of the filter unchanged. *)
Theorem inversion_flips_negate
    (term : Term) (fielddef : FieldDef) (prescreen : option Prescreen) (negate : bool) :
  _term_to_prescreen_fielddef term = Ok (Some fielddef) ->
  _term_to_prescreen_dict (invert term) prescreen negate
  = _term_to_prescreen_dict term prescreen (negb negate)
  /\ _term_to_prescreen_dict (invert term) prescreen true
     = Ok (Some (append_field (prescreen_or_empty prescreen) fielddef)).
Proof.
  intros Hfd. rewrite !dict_of_inverted, (dict_of_field_term _ _ _ _ Hfd), Hfd.
  rewrite screen_facts.flip_negate_involutive. by destruct negate.
Qed.

Lemma inversion_flips_negate_witness :
  _term_to_prescreen_dict (invert examples.is_stock) None true
  = Ok (Some (mkPrescreen None None
                (Some [mkFieldDef "SecType" "eq" false (PyList [PyStr "STK"])]))).
Proof.
  apply (inversion_flips_negate examples.is_stock
           (mkFieldDef "SecType" "eq" false (PyList [PyStr "STK"])) None true).
  reflexivity.
Defined.

Lemma conjunction_terms_inverted : conjunction_terms "~x_0" = ["~x_0"].
Proof. reflexivity. Qed.

Lemma conjunction_terms_inverted_twice : conjunction_terms "~(~x_0)" = ["~~x_0"].
Proof. reflexivity. Qed.

Lemma names_of_single_binding (term : Term) (piece : string) :
  str_replace piece "~" "" = "x_0" ->
  bool_decide (list_to_set ((fun t => str_replace t "~" "") <$> [piece])
               = dom ({["x_0" := term]} : gmap string Term)) = true.
Proof.
  intros Hpiece. apply bool_decide_eq_true_2.
  rewrite dom_singleton_L. simpl. rewrite Hpiece. by rewrite (right_id_L ∅ (∪)).
Qed.

(** The loop over the one conjunct of [~x_0] or [~(~x_0)]. *)
Lemma convert_single_piece (term : Term) (piece : string) :
  str_replace piece "~" "" = "x_0" ->
  convert_terms {["x_0" := term]} [piece] empty_prescreen
  = match _term_to_prescreen_dict term (Some empty_prescreen) (str_contains "~" piece) with
    | Ok (Some ps) => Ok (Some ps)
    | Ok None => Ok None
    | Raise err => Raise err
    end.
Proof.
  intros Hpiece. cbn [convert_terms]. rewrite Hpiece. unfold getitem.
  rewrite lookup_singleton_eq. cbn [mbind result_bind].
  destruct (_term_to_prescreen_dict term _ _) as [[ps|]|err] eqn:Hd; [|done..].
  cbn [mbind result_bind]. by rewrite (conjunction_facts.dict_truthy _ _ _ _ Hd).
Qed.

Lemma sid_filter_dict term prescreen :
  sid_filter term = true ->
  _term_to_prescreen_fielddef term = Ok None
  /\ exists ps, forall negate, _term_to_prescreen_dict term prescreen negate = Ok (Some ps).
Proof. destruct term; try done; intros _; (split; [done|]); eexists; reflexivity. Qed.

Lemma maybe_convert_inverted_sid_filter term :
  sid_filter term = true ->
  exists ps, forall p,
    _maybe_convert_to_prescreen (invert term) p = (install_prescreen p ps, Ok tt)
    /\ _maybe_convert_to_prescreen term p = (install_prescreen p ps, Ok tt).
Proof.
  intros Hsid.
  destruct (sid_filter_dict term None Hsid) as [Hfd [ps Hps]].
  destruct (sid_filter_dict term (Some empty_prescreen) Hsid) as [_ [ps' Hps']].
  assert (ps' = ps) as ->.
  { specialize (Hps false). specialize (Hps' false).
    unfold _term_to_prescreen_dict in *. simpl in *. congruence. }
  exists ps. intros p. unfold _maybe_convert_to_prescreen.
  rewrite dict_of_inverted, Hfd, Hps. unfold invert at 1.
  rewrite conjunction_terms_inverted, names_of_single_binding by done.
  by rewrite convert_single_piece, Hps' by done.
Qed.

(** X12.  The inversion of a sid filter ([SingleAsset], [StaticAssets],
    [StaticSids], [StaticUniverse]) is converted into the very prescreen
    of the filter itself: [set_screen] and the constructor leave the same
    pipeline for [~term] as for [term], with a prescreen and no screen. *)
Theorem inverted_sid_filter_converts_as_filter (term : Term) (p : Pipeline) :
  sid_filter term = true ->
  set_screen (invert term) true p = set_screen term true p
  /\ (forall columns domain,
        Pipeline__init__ columns (Some (invert term)) domain
        = Pipeline__init__ columns (Some term) domain)
  /\ _screen (fst (set_screen (invert term) true p)) = None
  /\ is_Some (_prescreen (fst (set_screen (invert term) true p))).
Proof.
  intros Hsid.
  assert (Hf : isinstance_Filter term = true) by (by destruct term).
  destruct (maybe_convert_inverted_sid_filter term Hsid) as [ps H].
  rewrite !conjunction_facts.set_screen_overwrite by done.
  destruct (H (with_screen (invert term) p)) as [-> _].
  destruct (H (with_screen term p)) as [_ ->].
  split; [done|]. split; [|simpl; eauto].
  intros columns domain. unfold Pipeline__init__. simpl. rewrite Hf. simpl.
  destruct (validate_columns _); simpl; [|done].
  destruct (H (mkPipeline (default ∅ columns) None (Some (invert term)) GENERIC)) as [-> _].
  by destruct (H (mkPipeline (default ∅ columns) None (Some term) GENERIC)) as [_ ->].
Qed.

Lemma inverted_sid_filter_converts_as_filter_witness :
  _prescreen (fst (set_screen (invert (SingleAsset examples.asset1)) true examples.one_column))
  = Some (mkPrescreen (Some [1]) None None).
Proof.
  destruct (inverted_sid_filter_converts_as_filter (SingleAsset examples.asset1)
              examples.one_column) as [-> _]; reflexivity.
Defined.

(** X13.  For a filter that has a field definition, the double inversion
    [~(~x_0)] is converted like the single inversion [~x_0]: both install
    the field definition with its [negate] flag flipped, whereas the
    filter itself installs it as it is. *)
Theorem double_inversion_converts_as_inversion
    (term : Term) (fielddef : FieldDef) (p : Pipeline) :
  _term_to_prescreen_fielddef term = Ok (Some fielddef) ->
  set_screen (invert_twice term) true p = set_screen (invert term) true p
  /\ _prescreen (fst (set_screen (invert_twice term) true p))
     = Some (mkPrescreen None None (Some [flip_negate fielddef]))
  /\ _prescreen (fst (set_screen term true p))
     = Some (mkPrescreen None None (Some [fielddef])).
Proof.
  intros Hfd. pose proof (field_term_is_filter _ _ Hfd) as Hf.
  rewrite !conjunction_facts.set_screen_overwrite by done.
  assert (Htwice : forall q,
            _maybe_convert_to_prescreen (invert_twice term) q
            = (install_prescreen q (mkPrescreen None None (Some [flip_negate fielddef])), Ok tt)).
  { intros q. unfold _maybe_convert_to_prescreen, invert_twice.
    rewrite (conjunction_facts.single_term_attempt_fails "(") by done.
    rewrite conjunction_terms_inverted_twice, names_of_single_binding by done.
    rewrite convert_single_piece by done.
    by rewrite (dict_of_field_term _ _ _ _ Hfd). }
  assert (Honce : forall q,
            _maybe_convert_to_prescreen (invert term) q
            = (install_prescreen q (mkPrescreen None None (Some [flip_negate fielddef])), Ok tt)).
  { intros q. unfold _maybe_convert_to_prescreen. by rewrite dict_of_inverted, Hfd. }
  rewrite Htwice, Honce. split; [done|]. split; [done|].
  unfold _maybe_convert_to_prescreen. by rewrite (dict_of_field_term _ _ _ _ Hfd).
Qed.

Lemma double_inversion_converts_as_inversion_witness :
  _prescreen (fst (set_screen (invert_twice examples.is_etf) true examples.one_column))
  = Some (mkPrescreen None None
            (Some [mkFieldDef "Etf" "eq" true (PyList [PyBool true])])).
Proof.
  apply (double_inversion_converts_as_inversion examples.is_etf
           (mkFieldDef "Etf" "eq" false (PyList [PyBool true])) examples.one_column).
  reflexivity.
Defined.

(** ** Conjunctions of asset filters *)

Lemma extend_sids_twice ps a b :
  extend_sids (extend_sids ps a) b = extend_sids ps (a ++ b).
Proof. unfold extend_sids. simpl. by rewrite (assoc_L (++)). Qed.

Lemma asset_filter_dict term ps negate :
  asset_filter term = true ->
  _term_to_prescreen_dict term (Some ps) negate
  = Ok (Some (extend_sids ps (asset_sids term))).
Proof.
  intros Ha. unfold _term_to_prescreen_dict. rewrite prescreen_or_empty_Some.
  by destruct term.
Qed.

Lemma convert_asset_filters bindings (ls : list (bool * string)) ps :
  Forall (fun leaf : bool * string => str_forall name_char leaf.2 = true) ls ->
  (forall leaf, leaf ∈ ls ->
     exists term, bindings !! leaf.2 = Some term /\ asset_filter term = true) ->
  convert_terms bindings (written <$> ls) ps
  = Ok (Some (match ls with
              | [] => ps
              | _ => extend_sids ps
                       (concat ((fun leaf : bool * string => bound_sids bindings leaf.2) <$> ls))
              end)).
Proof.
  revert ps. induction ls as [|leaf ls IH]; intros ps Hnames Hall; [done|].
  apply Forall_cons in Hnames as [Hname Hnames].
  destruct (Hall leaf) as (term & Hbound & Hasset); [by left|].
  rewrite fmap_cons. cbn [convert_terms].
  destruct (conjunction_facts.written_name leaf Hname) as [-> _].
  unfold getitem. rewrite Hbound. cbn [mbind result_bind].
  rewrite asset_filter_dict by done. cbn [mbind result_bind].
  change (prescreen_truthy (extend_sids ps (asset_sids term))) with true. cbn iota.
  rewrite IH; [|done|intros l Hl; apply Hall; by right].
  rewrite fmap_cons. cbn [concat]. unfold bound_sids at 2. rewrite Hbound.
  destruct ls as [|next rest]; [by rewrite app_nil_r|].
  by rewrite extend_sids_twice.
Qed.

(** X14.  A screen that is an AND of two or more asset filters
    ([SingleAsset], [StaticAssets]), each possibly inverted, is converted
    into the prescreen whose ["sids"] list is the concatenation of the
    sids of the conjuncts, from left to right; an inverted conjunct
    contributes its sids like any other. *)
Theorem conjunction_of_asset_filters_concatenates
    (bindings : gmap string Term) (e : conjunction) (p : Pipeline) :
  well_formed bindings e ->
  (2 <= length (leaves e))%nat ->
  (forall leaf, leaf ∈ leaves e ->
     exists term, bindings !! leaf.2 = Some term /\ asset_filter term = true) ->
  set_screen (NumExprFilter (render e) bindings) true p
  = (mkPipeline (_columns p)
       (Some (mkPrescreen
                (Some (concat ((fun leaf : bool * string => bound_sids bindings leaf.2)
                                 <$> leaves e)))
                None None))
       None (_domain p),
     Ok tt).
Proof.
  intros Hwf Hlen Hall.
  rewrite conjunction_facts.set_screen_overwrite by done.
  rewrite conjunction_facts.maybe_convert_conjunction by done.
  rewrite convert_asset_filters; [|apply Hwf|done].
  destruct (leaves e) as [|leaf ls]; [simpl in Hlen; lia|]. done.
Qed.

Lemma conjunction_of_asset_filters_concatenates_witness :
  _prescreen
    (fst (set_screen (NumExprFilter (render samples.x0_and_not_x1) samples.asset_bindings)
            true examples.one_column))
  = Some (mkPrescreen (Some [1; 2; 3]) None None).
Proof.
  rewrite (conjunction_of_asset_filters_concatenates samples.asset_bindings
             samples.x0_and_not_x1 examples.one_column).
  - reflexivity.
  - split; [by repeat constructor|]. by apply (bool_decide_unpack _).
  - simpl. lia.
  - intros leaf [->|[->|[]%elem_of_nil]%elem_of_cons]%elem_of_cons.
    + exists (SingleAsset examples.asset1). by split.
    + exists (StaticAssets [2; 3]). by split.
Defined.

(** ** Conjunctions of field filters *)

Lemma convert_field_filters bindings (ls : list (bool * string)) ps :
  Forall (fun leaf : bool * string => str_forall name_char leaf.2 = true) ls ->
  (forall leaf, leaf ∈ ls ->
     exists term fd, bindings !! leaf.2 = Some term
                     /\ _term_to_prescreen_fielddef term = Ok (Some fd)) ->
  convert_terms bindings (written <$> ls) ps
  = Ok (Some (match ls with
              | [] => ps
              | _ => mkPrescreen (ps_sids ps) (ps_real_sids ps)
                       (Some (default [] (ps_fields ps) ++ omap (bound_fielddef bindings) ls))
              end)).
Proof.
  revert ps. induction ls as [|leaf ls IH]; intros ps Hnames Hall; [done|].
  apply Forall_cons in Hnames as [Hname Hnames].
  destruct (Hall leaf) as (term & fd & Hbound & Hfd); [by left|].
  rewrite fmap_cons. cbn [convert_terms].
  destruct (conjunction_facts.written_name leaf Hname) as [-> ->].
  unfold getitem. rewrite Hbound. cbn [mbind result_bind].
  rewrite (dict_of_field_term _ _ _ _ Hfd), prescreen_or_empty_Some.
  cbn [mbind result_bind].
  match goal with |- context [prescreen_truthy ?q] =>
    replace (prescreen_truthy q) with true by (by destruct ps as [[?|] [?|] ?]) end.
  rewrite IH; [|done|intros l Hl; apply Hall; by right].
  cbn [omap list_omap]. unfold bound_fielddef at 2. rewrite Hbound, Hfd.
  destruct ls as [|next rest]; [done|].
  cbn [append_field ps_sids ps_real_sids ps_fields default from_option].
  unfold id. by rewrite <- (assoc_L (++)).
Qed.

(** The expression that [&] builds from the null check of a float column
    and another filter holds the null check as an expression, not as a
    variable: it is left as the screen, whatever is bound to its two
    variables. *)
Lemma expression_conjunct_not_converted (bindings : gmap string Term) (p : Pipeline) :
  dom bindings = {["x_0"; "x_1"]} ->
  _maybe_convert_to_prescreen (NumExprFilter "(x_0 != x_0) & (x_1)" bindings) p = (p, Ok tt).
Proof.
  intros Hdom. unfold _maybe_convert_to_prescreen.
  rewrite (conjunction_facts.single_term_attempt_fails "&") by done.
  change (conjunction_terms "(x_0 != x_0) & (x_1)") with ["x_0 != x_0"; "x_1"].
  rewrite bool_decide_eq_false_2; [done|]. rewrite Hdom. simpl. intros Hset.
  assert (Hin : "x_0 != x_0" ∈ ({["x_0"; "x_1"]} : gset string))
    by (rewrite <- Hset; set_solver).
  set_solver.
Qed.

(** X24.  A screen whose expression is an AND of two or more variables,
    each possibly inverted, each bound to a filter that has a field
    definition, is converted into the prescreen whose ["fields"] list
    holds the field definitions of the bound filters from left to right,
    the [negate] flag flipped where the variable is inverted.  This is
    about conjuncts that are variables: the screen [(x_0 != x_0) & (x_1)],
    in which the null check of a float column is a conjunct written out
    as an expression, is left as the screen although that null check has
    a field definition of its own. *)
Theorem conjunction_of_field_filters_lists_fields :
  (forall (bindings : gmap string Term) (e : conjunction) (p : Pipeline),
     well_formed bindings e ->
     (2 <= length (leaves e))%nat ->
     (forall leaf, leaf ∈ leaves e ->
        exists term fd, bindings !! leaf.2 = Some term
                        /\ _term_to_prescreen_fielddef term = Ok (Some fd)) ->
     set_screen (NumExprFilter (render e) bindings) true p
     = (mkPipeline (_columns p)
          (Some (mkPrescreen None None (Some (omap (bound_fielddef bindings) (leaves e)))))
          None (_domain p),
        Ok tt))
  /\ (forall (bindings : gmap string Term) (p : Pipeline),
        dom bindings = {["x_0"; "x_1"]} ->
        set_screen (NumExprFilter "(x_0 != x_0) & (x_1)" bindings) true p
        = (with_screen (NumExprFilter "(x_0 != x_0) & (x_1)" bindings) p, Ok tt))
  /\ (forall (ds : DataSet) (name : string),
        qualname ds = "SecuritiesMaster" ->
        _term_to_prescreen_fielddef
          (NumExprFilter "x_0 != x_0" {["x_0" := LatestFactor [BoundColumn ds name]]})
        = Ok (Some (mkFieldDef name "isnull" false (PyList [PyBool true])))).
Proof.
  split; [|split].
  - intros bindings e p Hwf Hlen Hall.
    rewrite conjunction_facts.set_screen_overwrite by done.
    rewrite conjunction_facts.maybe_convert_conjunction by done.
    rewrite convert_field_filters; [|apply Hwf|done].
    destruct (leaves e) as [|leaf ls]; [simpl in Hlen; lia|]. done.
  - intros bindings p Hdom.
    rewrite conjunction_facts.set_screen_overwrite by done.
    by apply expression_conjunct_not_converted.
  - intros ds name Hq. simpl. unfold getitem. rewrite lookup_singleton_eq. simpl.
    by rewrite Hq.
Qed.

Lemma conjunction_of_field_filters_lists_fields_witness :
  _prescreen
    (fst (set_screen
            (NumExprFilter (render examples.not_x0_and_x1) examples.stock_etf_bindings)
            true examples.one_column))
  = Some (mkPrescreen None None
            (Some [mkFieldDef "SecType" "eq" true (PyList [PyStr "STK"]);
                   mkFieldDef "Etf" "eq" false (PyList [PyBool true])])).
Proof.
  destruct conjunction_of_field_filters_lists_fields as [Hfields _].
  rewrite (Hfields examples.stock_etf_bindings examples.not_x0_and_x1 examples.one_column).
  - reflexivity.
  - split; [by repeat constructor|]. by apply (bool_decide_unpack _).
  - simpl. lia.
  - intros leaf [->|[->|[]%elem_of_nil]%elem_of_cons]%elem_of_cons.
    + exists examples.is_stock. by eexists.
    + exists examples.is_etf. by eexists.
Defined.

(** ** Columns of other datasets *)

Lemma declined_filter_stays screen p :
  _term_to_prescreen_dict screen None false = Ok None ->
  (forall _expr bindings, screen <> NumExprFilter _expr bindings) ->
  _maybe_convert_to_prescreen screen p = (p, Ok tt).
Proof.
  intros Hdict Hscreen. unfold _maybe_convert_to_prescreen. rewrite Hdict.
  destruct screen; try done. by destruct (Hscreen _expr bindings).
Qed.

(** X23.  Filters on the latest value of a column whose dataset is not
    the securities master are never prescreened: a comparison or string
    method of its classifier, the boolean column itself, and its null
    checks are all left as screens. *)
Theorem other_datasets_are_not_prescreened
    (c : Classifier) (ds : DataSet) (name op : string) (opargs : list pyvalue)
    (rest : list Term) (p : Pipeline) :
  qualname ds <> "SecuritiesMaster" ->
  inputs c = [BoundColumn ds name] ->
  _maybe_convert_to_prescreen (ArrayPredicate [ClassifierTerm c] op opargs) p = (p, Ok tt)
  /\ _maybe_convert_to_prescreen (LatestFilter (BoundColumn ds name :: rest)) p = (p, Ok tt)
  /\ _maybe_convert_to_prescreen (NullFilter (ClassifierTerm c :: rest)) p = (p, Ok tt)
  /\ _maybe_convert_to_prescreen (NotNullFilter (ClassifierTerm c :: rest)) p = (p, Ok tt)
  /\ _maybe_convert_to_prescreen (NullFilter (LatestFactor [BoundColumn ds name] :: rest)) p
     = (p, Ok tt).
Proof.
  intros Hq Hin.
  assert (Hno : String.eqb (qualname ds) "SecuritiesMaster" = false)
    by (by apply String.eqb_neq).
  repeat split; (apply declined_filter_stays; [|done]);
    unfold _term_to_prescreen_dict, field_term_to_prescreen;
    cbn [_term_to_prescreen_fielddef single term_inputs getitem0 mbind result_bind
         isinstance_LatestFactor orb];
    rewrite ?Hin; cbn [single getitem0 mbind result_bind is_SecuritiesMaster_column];
    rewrite ?Hno; try done.
  - by destruct (isinstance_LatestClassifier c).
  - by destruct (isinstance_LatestClassifier c).
  - by destruct (isinstance_LatestClassifier c).
Qed.

Lemma other_datasets_are_not_prescreened_witness :
  _maybe_convert_to_prescreen (LatestFilter [BoundColumn samples.ETB "etb"])
    examples.one_column
  = (examples.one_column, Ok tt).
Proof.
  apply (other_datasets_are_not_prescreened
           (mkClassifier Latest categorical_dtype PyNone 1 [BoundColumn samples.ETB "etb"] None)
           samples.ETB "etb" "eq" [PyStr "Y"] [] examples.one_column);
    [by vm_compute | reflexivity].
Defined.

End conversion_facts.

(** * Compiling a pipeline *)

Module graph_facts.
Import pipeline pipeline_graph props.

(** X15.  The domain that [Pipeline.domain] resolves is one that
    [to_execution_plan] accepts: compiling the pipeline on it never raises
    the [AssertionError] of the domain check, and hands the graph
    constructor that domain with the prepared terms. *)
Theorem resolved_domain_compiles
    (SCREEN_NAME : string) (Timestamp ExecutionPlan : Type)
    (ExecutionPlan__init__ :
       Domain -> gmap string Term -> Timestamp -> Timestamp -> result ExecutionPlan)
    (infer_domain : list Term -> result Domain)
    (default resolved : Domain) (default_screen : Term)
    (start_date end_date : Timestamp) (p : Pipeline) :
  domain infer_domain default p = Ok resolved ->
  to_execution_plan SCREEN_NAME Timestamp ExecutionPlan ExecutionPlan__init__
    resolved default_screen start_date end_date p
  = ExecutionPlan__init__ resolved (_prepare_graph_terms SCREEN_NAME default_screen p)
      start_date end_date.
Proof.
  unfold domain, to_execution_plan.
  destruct (infer_domain (_output_terms p)) as [inferred|e]; simpl; [|done].
  repeat case_bool_decide; simpl; try done; intros [= <-]; try done.
  all: congruence.
Qed.

Lemma resolved_domain_compiles_witness :
  to_execution_plan "screen_f0e1" Z (Domain * gmap string Term) samples.plan_of
    examples.US_EQUITIES OtherFilter 0 5
    (mkPipeline (_columns examples.one_column) None None examples.US_EQUITIES)
  = Ok (examples.US_EQUITIES,
        <["screen_f0e1" := OtherFilter]> (_columns examples.one_column)).
Proof.
  apply (resolved_domain_compiles "screen_f0e1" Z (Domain * gmap string Term) samples.plan_of
           (fun _ => Ok GENERIC) examples.CA_EQUITIES examples.US_EQUITIES OtherFilter 0 5
           (mkPipeline (_columns examples.one_column) None None examples.US_EQUITIES)).
  reflexivity.
Defined.

(** X16.  A reachable pipeline that holds a prescreen is compiled without
    the screen it was given: its graph terms are its columns with the
    default screen under [SCREEN_NAME], its output terms are its columns
    alone, and its domain is resolved as if it never had a screen. *)
Theorem prescreened_pipeline_compiles_without_screen
    (SCREEN_NAME : string) (infer_domain : list Term -> result Domain)
    (default : Domain) (default_screen : Term) (p : Pipeline) :
  reachable p ->
  is_Some (_prescreen p) ->
  _prepare_graph_terms SCREEN_NAME default_screen p
  = <[SCREEN_NAME := default_screen]> (_columns p)
  /\ _output_terms p = (snd <$> map_to_list (_columns p))
  /\ domain infer_domain default p = domain infer_domain default (without_screen p).
Proof.
  intros Hp [ps Hps].
  destruct (pipeline_facts.reachable_at_most_one p Hp) as [Hs|Hn]; [|congruence].
  unfold _prepare_graph_terms, domain, _output_terms. simpl. rewrite Hs.
  by rewrite app_nil_r.
Qed.

Lemma prescreened_pipeline_compiles_without_screen_witness :
  _prepare_graph_terms "screen_f0e1" OtherFilter
    (fst (set_screen examples.is_stock false examples.one_column))
  = <["screen_f0e1" := OtherFilter]> (_columns examples.one_column).
Proof.
  apply (prescreened_pipeline_compiles_without_screen "screen_f0e1" (fun _ => Ok GENERIC)
           GENERIC OtherFilter (fst (set_screen examples.is_stock false examples.one_column))).
  - apply reach_set_screen.
    by apply (reach_init (Some (_columns examples.one_column)) None GENERIC).
  - by eexists.
Defined.

End graph_facts.

(** * Comparisons and validation of classifiers *)

Module comparison_facts.
Import pipeline classifier props invariants.

#[local] Arguments append : simpl nomatch.

(** X17.  [CustomClassifier._validate] passes exactly when the validation
    of the base classes passes, and raises an exception of the class that
    the base classes raised: the very same exception, unless it is an
    [UnsupportedDataType] on a dtype of factors or filters, which is
    replaced by one carrying a hint.  [Shift._validate] passes exactly
    when the base classes pass and the window length is at least 2; an
    error of the base classes comes before the one on the window length. *)
Theorem validation_keeps_the_error
    (base_validate : Classifier -> result unit)
    (FACTOR_DTYPES FILTER_DTYPES : list DType) (self : Classifier) :
  (CustomClassifier_validate base_validate FACTOR_DTYPES FILTER_DTYPES self = Ok tt
   <-> base_validate self = Ok tt)
  /\ (forall e,
        CustomClassifier_validate base_validate FACTOR_DTYPES FILTER_DTYPES self = Raise e ->
        exists e0,
          base_validate self = Raise e0
          /\ exn_class e = exn_class e0
          /\ (e = e0
              \/ (exn_class e0 = UnsupportedDataType
                  /\ (dtype self ∈ FACTOR_DTYPES \/ dtype self ∈ FILTER_DTYPES))))
  /\ (Shift_validate base_validate FACTOR_DTYPES FILTER_DTYPES self = Ok tt
      <-> base_validate self = Ok tt /\ 2 <= window_length self)
  /\ (forall e0,
        base_validate self = Raise e0 ->
        exists e,
          Shift_validate base_validate FACTOR_DTYPES FILTER_DTYPES self = Raise e
          /\ exn_class e = exn_class e0).
Proof.
  unfold Shift_validate, CustomClassifier_validate.
  destruct (base_validate self) as [[]|e0]; simpl.
  - split; [done|]. split; [done|]. split; [|done].
    destruct (Z.ltb_spec (window_length self) 2); split; try done; try lia.
  - assert (Hclass : forall e,
      match exn_class e0 with
      | UnsupportedDataType =>
          if bool_decide (dtype self ∈ FACTOR_DTYPES)
          then Raise (mkExn UnsupportedDataType
                        [Arg_dtype (dtype self); Text "Did you mean to create a CustomFactor?"])
          else if bool_decide (dtype self ∈ FILTER_DTYPES)
               then Raise (mkExn UnsupportedDataType
                             [Arg_dtype (dtype self);
                              Text "Did you mean to create a CustomFilter?"])
               else Raise e0
      | _ => Raise e0
      end = (Raise e : result unit) ->
      exn_class e = exn_class e0
      /\ (e = e0
          \/ (exn_class e0 = UnsupportedDataType
              /\ (dtype self ∈ FACTOR_DTYPES \/ dtype self ∈ FILTER_DTYPES)))).
    { intros e. destruct (exn_class e0) eqn:Hc; try (intros [= <-]; by auto).
      repeat case_bool_decide; intros [= <-]; simpl; auto. }
    split; [split; [|done]|].
    { destruct (exn_class e0); try done. by repeat case_bool_decide. }
    split; [intros e He; exists e0; split; [done|by apply Hclass]|].
    split; [split; [|by intros [? _]]|].
    { destruct (exn_class e0); try done. by repeat case_bool_decide. }
    intros e1 [= <-].
    destruct (match exn_class e0 with UnsupportedDataType => _ | _ => _ end) as [[]|e] eqn:He.
    + destruct (exn_class e0); try done. by repeat case_bool_decide.
    + exists e. split; [done|]. by apply Hclass.
Qed.



(** ** isin *)

Lemma py_eq_class_back (C : pyvalue -> bool) a b :
  C = isinstance_int \/ C = isinstance_str ->
  C b = true -> py_eq a b = true -> C a = true.
Proof. intros [-> | ->]; destruct a, b; simpl; done. Qed.

Lemma forallb_remove_equal_back (C : pyvalue -> bool) y l :
  C = isinstance_int \/ C = isinstance_str ->
  C y = true -> forallb C (remove_equal y l) = true -> forallb C l = true.
Proof.
  intros HC Hy. induction l as [|z l IH]; simpl; [done|].
  destruct (py_eq z y) eqn:Hz; simpl.
  - intros Hl. rewrite IH by done. by rewrite (py_eq_class_back C z y).
  - rewrite !andb_true_iff. intros [? ?]. auto.
Qed.

Lemma forallb_dedup_back (C : pyvalue -> bool) l :
  C = isinstance_int \/ C = isinstance_str ->
  forallb C (dedup l) = true -> forallb C l = true.
Proof.
  intros HC. induction l as [|y l IH]; simpl; [done|].
  rewrite !andb_true_iff. intros [Hy Hl]. split; [done|].
  apply IH. by eapply forallb_remove_equal_back.
Qed.

Lemma py_in_typed (C : pyvalue -> bool) x l :
  C = isinstance_int \/ C = isinstance_str ->
  forallb C l = true -> C x = false -> py_in x l = false.
Proof.
  intros HC Hl Hx. unfold py_in. induction l as [|y l IH]; simpl; [done|].
  simpl in Hl. apply andb_true_iff in Hl as [Hy Hl]. rewrite IH by done.
  destruct (py_eq x y) eqn:Hxy; [|done].
  rewrite (py_eq_class_back C x y) in Hx by done. done.
Qed.

(** Among choices of one type, the missing value is in the set exactly
    when it is in the list it was made from. *)
Lemma py_in_dedup_typed (C : pyvalue -> bool) x l :
  C = isinstance_int \/ C = isinstance_str ->
  forallb C l = true -> py_in x (dedup l) = py_in x l.
Proof.
  intros HC Hl. destruct (C x) eqn:Hx.
  - apply isin_facts.py_in_dedup. destruct HC as [-> | ->]; auto.
  - rewrite !(py_in_typed C x) by (done || by apply isin_facts.forallb_dedup). done.
Qed.

Lemma isin_of_list items self :
  isin (PyList items) self =
    if forallb hashable items then
      if py_in (missing_value self) (dedup items) then
        match py_sorted (dedup items) with
        | Ok sorted_choices =>
            Raise (mkExn ValueError
                     [Text "Found self.missing_value ("; Arg_value (missing_value self);
                      Text ") in choices supplied to "; Arg_typename_of_term self; Text ".isin().
Missing values have NaN semantics, so the requested comparison would always produce False.
Use the isnull() method to check for missing values.
Received choices were "; Arg_values sorted_choices; Text "."])
        | Raise e => Raise e
        end
      else if bool_decide (dtype self = int64_dtype) then
        if forallb isinstance_int (dedup items) then
          Ok (ArrayPredicate [ClassifierTerm self] "vectorized_is_element"
                [PyFrozenset (dedup items)])
        else
          Raise (mkExn TypeError
                   [Text "Found non-int in choices for "; Arg_typename_of_term self; Text ".isin.
Supplied choices were "; Arg_values (dedup items); Text "."])
      else if bool_decide (dtype self = categorical_dtype) then
        if forallb isinstance_str (dedup items) then
          Ok (ArrayPredicate [ClassifierTerm self] "isin" [PyFrozenset (dedup items)])
        else
          Raise (mkExn TypeError
                   [Text "Found non-string in choices for "; Arg_typename_of_term self;
                    Text ".isin.
Supplied choices were "; Arg_values (dedup items); Text "."])
      else
        Raise (mkExn AssertionError
                 [Text "Unknown dtype in Classifier.isin "; Arg_dtype (dtype self); Text "."])
    else
      Raise (mkExn TypeError
               [Text "Expected `choices` to be an iterable of hashable values, but got ";
                Arg_value (PyList items); Text " instead.
This caused the following error: "; Arg_exn TypeError; Text "."]).
Proof.
  unfold isin, py_frozenset. simpl.
  destruct (forallb hashable items); [|done]. simpl.
  destruct (py_in _ _); [|done]. by destruct (py_sorted _).
Qed.

Lemma chars_hashable s :
  forallb hashable ((fun c => PyStr (String c EmptyString)) <$> list_ascii_of_string s) = true.
Proof. induction s as [|c s IH]; simpl; [done|exact IH]. Qed.

Lemma isin_shape items self f :
  isin (PyList items) self = Ok f ->
  f = ArrayPredicate [ClassifierTerm self]
        (if bool_decide (dtype self = int64_dtype)
         then "vectorized_is_element" else "isin")
        [PyFrozenset (dedup items)].
Proof.
  rewrite isin_of_list.
  destruct (forallb hashable items); [|done].
  destruct (py_in _ _); [by destruct (py_sorted _)|].
  case_bool_decide.
  - destruct (forallb isinstance_int _); [|done]. by intros [= <-].
  - case_bool_decide; [|done].
    destruct (forallb isinstance_str _); [|done]. by intros [= <-].
Qed.

(** X19.  [isin] on a list of choices returns a filter exactly when every
    choice is hashable, the missing value is not among the choices, and
    the choices are all integers for an [int64] classifier or all strings
    for a categorical one.  The filter is an [ArrayPredicate] over the
    classifier whose operand is the set of the choices, each kept once.
    A bare string given as [choices] is read as the list of its
    characters. *)
Theorem isin_accepts (items : list pyvalue) (self : Classifier) :
  ((exists f, isin (PyList items) self = Ok f)
   <-> forallb hashable items = true
       /\ py_in (missing_value self) items = false
       /\ ((dtype self = int64_dtype /\ forallb isinstance_int items = true)
           \/ (dtype self = categorical_dtype /\ forallb isinstance_str items = true)))
  /\ (forall f,
        isin (PyList items) self = Ok f ->
        f = ArrayPredicate [ClassifierTerm self]
              (if bool_decide (dtype self = int64_dtype)
               then "vectorized_is_element" else "isin")
              [PyFrozenset (dedup items)])
  /\ (forall s,
        isin (PyStr s) self
        = isin (PyList ((fun c => PyStr (String c EmptyString)) <$> list_ascii_of_string s))
               self).
Proof.
  split; [|split].
  - rewrite isin_of_list. split.
    + intros [f Hf]. destruct (forallb hashable items); [|done]. split; [done|].
      destruct (py_in (missing_value self) (dedup items)) eqn:Hin;
        [by destruct (py_sorted _)|].
      case_bool_decide as Hint.
      * destruct (forallb isinstance_int (dedup items)) eqn:Hall; [|done].
        apply forallb_dedup_back in Hall; [|by left].
        rewrite (py_in_dedup_typed isinstance_int) in Hin by auto. auto.
      * case_bool_decide as Hcat; [|done].
        destruct (forallb isinstance_str (dedup items)) eqn:Hall; [|done].
        apply forallb_dedup_back in Hall; [|by right].
        rewrite (py_in_dedup_typed isinstance_str) in Hin by auto. auto.
    + intros (-> & Hin & [[Hd Hall]|[Hd Hall]]).
      * rewrite (py_in_dedup_typed isinstance_int), Hin by auto.
        rewrite bool_decide_eq_true_2 by done.
        rewrite isin_facts.forallb_dedup by done. eauto.
      * rewrite (py_in_dedup_typed isinstance_str), Hin by auto.
        rewrite bool_decide_eq_false_2 by (rewrite Hd; done).
        rewrite bool_decide_eq_true_2 by done.
        rewrite isin_facts.forallb_dedup by done. eauto.
  - intros f. apply isin_shape.
  - intros s. unfold isin, py_frozenset. simpl. by rewrite chars_hashable.
Qed.

(** ** Comparisons as screens *)

Lemma create_single expr (term : Term) :
  NumExprFilter_create expr [term] = NumExprFilter expr {["x_0" := term]}.
Proof. unfold NumExprFilter_create. simpl. by rewrite insert_empty. Qed.

Lemma latest_predicate_fielddef (c : Classifier) ds name op opargs :
  cls c = Latest -> inputs c = [BoundColumn ds name] ->
  qualname ds = "SecuritiesMaster" ->
  op ∈ prescreen_ops ->
  _term_to_prescreen_fielddef (ArrayPredicate [ClassifierTerm c] op opargs)
  = match array_predicate_fielddef name op opargs with
    | Ok fd => Ok (Some fd)
    | Raise e => Raise e
    end.
Proof.
  intros Hcls Hin Hq Hop. simpl. rewrite Hcls, Hin. simpl. rewrite Hq. simpl.
  rewrite bool_decide_eq_true_2 by done.
  by destruct (array_predicate_fielddef _ _ _).
Qed.

Lemma latest_predicate_dict (c : Classifier) ds name op opargs fd :
  cls c = Latest -> inputs c = [BoundColumn ds name] ->
  qualname ds = "SecuritiesMaster" ->
  op ∈ prescreen_ops ->
  array_predicate_fielddef name op opargs = Ok fd ->
  _term_to_prescreen_fielddef (ArrayPredicate [ClassifierTerm c] op opargs) = Ok (Some fd)
  /\ _term_to_prescreen_dict (ArrayPredicate [ClassifierTerm c] op opargs) None false
     = Ok (Some (mkPrescreen None None (Some [fd]))).
Proof.
  intros Hcls Hin Hq Hop Hfd.
  assert (H : _term_to_prescreen_fielddef (ArrayPredicate [ClassifierTerm c] op opargs)
              = Ok (Some fd))
    by (by rewrite (latest_predicate_fielddef c ds name), Hfd).
  split; [done|]. by rewrite (conversion_facts.dict_of_field_term _ _ _ _ H).
Qed.

(** X20.  Comparisons of the latest value of a string column of the
    securities master are prescreened.  For such a classifier and a string
    [v] that is not its missing value, [eq(v)] converts into the field
    definition [eq [v]], [!= v] into the same with [negate] set, and so
    does the inversion of [eq(v)]; [isin] of strings converts into [eq]
    with a list that holds each of the choices once, in the order in which
    the set of the choices is iterated. *)
Theorem securities_master_comparisons_are_prescreened
    (c : Classifier) (ds : DataSet) (name v : string) :
  cls c = Latest ->
  dtype c = categorical_dtype ->
  inputs c = [BoundColumn ds name] ->
  qualname ds = "SecuritiesMaster" ->
  py_eq (PyStr v) (missing_value c) = false ->
  (exists f,
     eq (PyStr v) c = Ok f
     /\ _term_to_prescreen_dict f None false
        = Ok (Some (mkPrescreen None None
                      (Some [mkFieldDef name "eq" false (PyList [PyStr v])])))
     /\ _term_to_prescreen_dict (invert f) None false
        = Ok (Some (mkPrescreen None None
                      (Some [mkFieldDef name "eq" true (PyList [PyStr v])]))))
  /\ (exists g,
        __ne__ (PyStr v) c = Ok g
        /\ _term_to_prescreen_dict g None false
           = Ok (Some (mkPrescreen None None
                         (Some [mkFieldDef name "eq" true (PyList [PyStr v])]))))
  /\ (forall items,
        forallb isinstance_str items = true ->
        py_in (missing_value c) items = false ->
        exists h values,
          isin (PyList items) c = Ok h
          /\ _term_to_prescreen_dict h None false
             = Ok (Some (mkPrescreen None None
                           (Some [mkFieldDef name "eq" false (PyList values)])))
          /\ values ≡ₚ dedup items).
Proof.
  intros Hcls Hd Hin Hq Hmiss. split; [|split].
  - exists (ArrayPredicate [ClassifierTerm c] "eq" [PyStr v]).
    split; [by apply isin_facts.eq_str_filter|].
    destruct (latest_predicate_dict c ds name "eq" [PyStr v]
                (mkFieldDef name "eq" false (PyList [PyStr v]))) as [Hfd Hdict];
      [done|done|done|set_solver|done|].
    split; [done|]. by rewrite conversion_facts.dict_of_inverted, Hfd.
  - exists (ArrayPredicate [ClassifierTerm c] "ne" [PyStr v]). split.
    + unfold __ne__. rewrite Hd. reflexivity.
    + by apply (latest_predicate_dict c ds name "ne"); [..|set_solver|].
  - intros items Hall Hnot.
    exists (ArrayPredicate [ClassifierTerm c] "isin" [PyFrozenset (dedup items)]),
      (dedup items).
    split; [|split; [|done]].
    + rewrite isin_of_list, isin_facts.hashable_scalars by auto.
      rewrite (py_in_dedup_typed isinstance_str), Hnot by auto.
      rewrite Hd. simpl. by rewrite isin_facts.forallb_dedup.
    + by apply (latest_predicate_dict c ds name "isin"); [..|set_solver|].
Qed.

Lemma securities_master_comparisons_are_prescreened_witness :
  exists g,
    __ne__ (PyStr "STK") examples.SecType_latest = Ok g
    /\ _term_to_prescreen_dict g None false
       = Ok (Some (mkPrescreen None None
                     (Some [mkFieldDef "SecType" "eq" true (PyList [PyStr "STK"])]))).
Proof.
  apply (securities_master_comparisons_are_prescreened examples.SecType_latest
           examples.SecuritiesMaster "SecType" "STK"); reflexivity.
Defined.

(** X21.  The string methods of the latest value of a string column of
    the securities master are prescreened: [startswith], [endswith],
    [has_substring] and [matches] convert into field definitions with the
    operators [startswith], [endswith], [contains] and [match], whose
    value is the bare string given. *)
Theorem securities_master_string_methods_are_prescreened
    (c : Classifier) (ds : DataSet) (name v : string) :
  cls c = Latest ->
  dtype c = categorical_dtype ->
  inputs c = [BoundColumn ds name] ->
  qualname ds = "SecuritiesMaster" ->
  (exists f, startswith v c = Ok f
             /\ _term_to_prescreen_dict f None false
                = Ok (Some (mkPrescreen None None
                              (Some [mkFieldDef name "startswith" false (PyStr v)]))))
  /\ (exists f, endswith v c = Ok f
                /\ _term_to_prescreen_dict f None false
                   = Ok (Some (mkPrescreen None None
                                 (Some [mkFieldDef name "endswith" false (PyStr v)]))))
  /\ (exists f, has_substring v c = Ok f
                /\ _term_to_prescreen_dict f None false
                   = Ok (Some (mkPrescreen None None
                                 (Some [mkFieldDef name "contains" false (PyStr v)]))))
  /\ (exists f, matches v c = Ok f
                /\ _term_to_prescreen_dict f None false
                   = Ok (Some (mkPrescreen None None
                                 (Some [mkFieldDef name "match" false (PyStr v)])))).
Proof.
  intros Hcls Hd Hin Hq.
  unfold startswith, endswith, has_substring, matches, string_classifiers_only.
  rewrite Hd. simpl.
  repeat split; eexists; (split; [reflexivity|]);
    by apply (latest_predicate_dict c ds name); [..|set_solver|].
Qed.

Lemma securities_master_string_methods_are_prescreened_witness :
  exists f,
    has_substring "ET" examples.SecType_latest = Ok f
    /\ _term_to_prescreen_dict f None false
       = Ok (Some (mkPrescreen None None
                     (Some [mkFieldDef "SecType" "contains" false (PyStr "ET")]))).
Proof.
  apply (securities_master_string_methods_are_prescreened examples.SecType_latest
           examples.SecuritiesMaster "SecType" "ET"); reflexivity.
Defined.

(** ** Comparisons of integer classifiers *)

(** An expression over [x_0] that holds a character foreign to variable
    names and to [~], [&], blanks and parentheses is left as a screen,
    once the conversion of the single term has declined it. *)
Lemma expression_with_operator_not_converted (c : ascii) _expr (term : Term) p :
  c <> " "%char -> c <> "&"%char -> c <> "~"%char -> c <> "("%char -> c <> ")"%char ->
  str_contains c "x_0" = false ->
  str_contains c _expr = true ->
  _term_to_prescreen_dict (NumExprFilter _expr {["x_0" := term]}) None false = Ok None ->
  _maybe_convert_to_prescreen (NumExprFilter _expr {["x_0" := term]}) p = (p, Ok tt).
Proof.
  intros Hsp Hamp Htilde Hl Hr Hname Hc Hsingle. unfold _maybe_convert_to_prescreen.
  rewrite Hsingle.
  rewrite bool_decide_eq_false_2; [done|]. intros Hset.
  destruct (conjunction_facts.split_go_keeps c (strip_parens _expr) "" 0)
    as (piece & Hin & Hpiece); [done|done| |].
  { right. unfold strip_parens. cbn [str_drop].
    by rewrite !string_facts.str_contains_replace_other. }
  assert (str_replace piece "~" "" ∈ dom ({["x_0" := term]} : gmap string Term)) as Hdom.
  { rewrite <- Hset. apply elem_of_list_to_set, list_elem_of_fmap.
    exists piece. split; [done|]. exact Hin. }
  rewrite dom_singleton_L in Hdom. apply elem_of_singleton in Hdom.
  apply (f_equal (str_contains c)) in Hdom.
  rewrite string_facts.str_contains_replace_other in Hdom by done.
  congruence.
Qed.

Lemma single_term_declines _expr (term : Term) :
  String.eqb _expr "~x_0" = false -> String.eqb _expr "x_0 != x_0" = false ->
  _term_to_prescreen_dict (NumExprFilter _expr {["x_0" := term]}) None false = Ok None.
Proof.
  intros H1 H2. unfold _term_to_prescreen_dict, field_term_to_prescreen.
  cbn [_term_to_prescreen_fielddef]. by rewrite H1, H2.
Qed.

Lemma predicate_not_converted (ins : list Term) op opargs p :
  op ∉ prescreen_ops ->
  _maybe_convert_to_prescreen (ArrayPredicate ins op opargs) p = (p, Ok tt).
Proof.
  intros Hop. unfold _maybe_convert_to_prescreen, _term_to_prescreen_dict,
    field_term_to_prescreen.
  cbn [_term_to_prescreen_fielddef].
  destruct (single ins) as [input0|]; [|done].
  destruct (isinstance_LatestClassifier input0); [|done].
  destruct (single (term_inputs input0)) as [col|]; [|done].
  by rewrite (bool_decide_eq_false_2 _ Hop), andb_false_r.
Qed.

(** X22.  Comparisons of an integer classifier are never prescreened,
    whatever the classifier reads: the filters that [eq], [!=] and [isin]
    build for an [int64] classifier are left as screens by
    [_maybe_convert_to_prescreen]. *)
Theorem integer_comparisons_are_not_prescreened
    (c : Classifier) (k m : Z) (p : Pipeline) :
  dtype c = int64_dtype ->
  missing_value c = PyInt m ->
  (k <> m ->
     exists f, eq (PyInt k) c = Ok f
               /\ _maybe_convert_to_prescreen f p = (p, Ok tt))
  /\ (exists g, __ne__ (PyInt k) c = Ok g
                /\ _maybe_convert_to_prescreen g p = (p, Ok tt))
  /\ (forall items h,
        isin (PyList items) c = Ok h ->
        _maybe_convert_to_prescreen h p = (p, Ok tt)).
Proof.
  intros Hd Hm. split; [|split].
  - intros Hk. eexists. split.
    + unfold eq. rewrite Hm, Hd. simpl.
      destruct (Z.eqb_spec k m); [done|]. by rewrite create_single.
    + by apply (expression_with_operator_not_converted "=");
        try apply single_term_declines.
  - eexists. split.
    + unfold __ne__. rewrite Hm, Hd. simpl. by rewrite create_single.
    + by apply (expression_with_operator_not_converted "!");
        try apply single_term_declines.
  - intros items h Hh.
    rewrite (isin_shape items c h Hh), bool_decide_eq_true_2 by done.
    apply predicate_not_converted. unfold prescreen_ops. set_solver.
Qed.

Lemma integer_comparisons_are_not_prescreened_witness :
  exists f,
    eq (PyInt 205) examples.sector = Ok f
    /\ _maybe_convert_to_prescreen f examples.one_column = (examples.one_column, Ok tt).
Proof.
  apply (integer_comparisons_are_not_prescreened examples.sector 205 (-1) examples.one_column);
    [reflexivity | reflexivity | lia].
Defined.

End comparison_facts.
